(* ===== verification/_CoqProject ===== *)
-Q . S2P
Prelude.v
Config.v
Dom.v
Scale.v
Fingerprint.v
Host.v
AdBlocker.v
PageScaler.v
Script.v
UriEncode.v
MainWindow.v
Application.v
