(* ===== verification/Prelude.v ===== *)
(** * A verification development for the electron-apps desktop shell

    The repository is a small Electron application made of two scripts.

    - [src/main.js] runs in the main process.  Its class [MainWindow]
      owns one [BrowserWindow]: it builds it ([create]), rewrites the
      User-Agent header of every request, turns [window.open] into an
      in-place navigation, reacts to renderer crashes, hangs and failed
      loads, dispatches Ctrl/Cmd keyboard shortcuts, builds the context
      menu and renders an HTML error page through a [data:] URL.  Its class
      [Application] wires the Electron [app] events ([activate],
      [before-quit], [window-all-closed]) to the window.
    - [src/preload.js] runs inside every loaded page.  On
      [DOMContentLoaded] it masks two fingerprinting properties, starts a
      [PageScaler] (waits, through a MutationObserver, for the element
      [#app-container], then keeps it scaled to the viewport, debouncing
      resize events with a 100 ms timer) and an [AdBlocker] (a JS [Set] of
      CSS selectors, hidden through one batched [querySelectorAll] run at
      most once per animation frame), and exposes a two-operation bridge
      [electronAPI] ([addAdSelector], [refreshAds]).

    The two controllers of the preload script share one event stream (DOM
    mutations), one DOM (a store of nodes that the scaler and the blocker
    both write styles into) and the host's timer and animation-frame
    queues.  They never call each other.  The main process and the page
    interact only through loads: [MainWindow] loads URLs, the page's
    script runs in each of them.

    ** Layout of the library (in dependency order)

    - [Prelude] (this file): a small state monad [St] written with
      stdpp's [≫=]/[←] notation and its method combinators ([this_get],
      [on_env]); the frame facts [keeps] and the invariant facts
      [preserves] with their composition lemmas; the [electron] hint
      database, the tactics [st_run], [keeps_walk], [preserves_walk]; the
      generic lemmas on lists and strings.
    - [Config]: [Preload] and [Main], the two [CONFIG] objects.
    - [Dom]: nodes, inline styles (a [gmap]), the document, selector
      engines as a class [SelectorEngine] with laws (a [Proper] instance
      over documents of the same shape) and a concrete [SimpleEngine].
    - [Scale] ([Module Scaling]): the arithmetic of [applyScale] over exact
      rationals [Q] (the JavaScript doubles are their rounding).
    - [Fingerprint]: [hideBrowserFingerprint]; the two [Math.random()]
      draws are parameters in [[0,1)].
    - [Host]: the browser's timer and animation-frame queues ([Queue],
      [replace_slot], the single-slot invariant [slot_inv]) and [Page],
      the state both controllers act on.
    - [AdBlocker] ([Module AdBlocker]): the class's fields and every method.
    - [PageScaler] ([Module PageScaler]): the class, [setupScaling], the
      observer callback, the resize listener; [fire_timers] is the host
      running due timers.
    - [Script] ([Module Script]): the whole preload script, a [World] and
      a step function over the page's events, the bridge, [reachable].
    - [UriEncode] ([Module Uri]): JavaScript's [encodeURIComponent] on the
      UTF-8 bytes of a string, and its inverse.
    - [MainWindow] ([Module MainWindow]): the class over a state [Main]
      (the window and its web contents' history, [isQuitting], whether
      [app.quit()] ran, the clipboard, the error boxes), every handler,
      the exact HTML of the error page.
    - [Application] ([Module Application]): [init], the [app] handlers,
      [main_step] over the main process's events, [reachable].

    ** What the theorems show

    - [Scale]: the fit policy (no cropping, one side filled, centring);
      the factors that fit are exactly those up to the chosen one; which
      side is filled and where the margins go on either side of 16:9
      (C1-C3).
    - [AdBlocker]: a scan hides exactly the matches, is idempotent, and
      hides nothing when one selector is malformed (a divergence from the
      spec); [add] twice is [add] once, a fresh [add] schedules one scan;
      [remove] never un-hides (C4-C9).
    - [PageScaler]: a resize burst yields one recomputation with the last
      viewport; the first batch that finds the container activates
      scaling once (C10, C11).
    - [Script]: every reachable world has at most one pending timer and
      one pending frame, a duplicate-free selector set, a disconnected
      observer once activated (C12); without mutation batches the scaler
      never activates even if the container exists (C13, a divergence);
      the bridge rejects every value but a non-empty string (C16); a
      selector added through the bridge takes effect at the next frame,
      in any reachable world (C17).
    - [Fingerprint]: the bounds of the installed heap sizes, idempotence
      (C14, C15).
    - [UriEncode]: [decodeURIComponent] inverts [encodeURIComponent], whose
      output is URL-safe and at most three times longer (lemmas used by
      the error-page theorems).
    - [MainWindow]: load errors (the error page decodes back to its
      template), the load timeout race, keyboard shortcuts (Ctrl+R never
      prevents the default), crashes (only ['crashed'] is handled),
      [window.open], the User-Agent rewrite, the context menu's enabled
      flags and clicks (C21-C28).
    - [Application]: the macOS close/activate cycle, destruction and
      quitting, the invariant of every reachable state, the page left
      showing after a failed initial load, start-up (C18-C20, C29, C30).

    ** Choices

    No fuel is needed: every loop of the code is a [forEach] or a [for]
    over a finite list, modelled by structural recursion ([st_iter],
    [foldl]).  Time is [nat] milliseconds; the load race lets the load
    win only when it settles strictly before [LOAD_TIMEOUT].  Numbers the
    scaler computes are exact rationals; the heap sizes are [Z].  Strings
    are byte strings (the UTF-8 encoding of the JavaScript strings);
    [toLowerCase] is modelled on ASCII letters, which covers every key
    name of the key map.

    ** Not modelled

    The [BrowserWindow] options and command-line switches (passed to
    Electron only), [Menu.setApplicationMenu(null)], the
    [uncaughtException]/[unhandledRejection] loggers, the console text of
    the main process, [initUserData]'s path computation and [mkdir] (their
    outcome is a parameter of [init]), the native rendering of menus and
    dialogs (the user's choice is a parameter), [openDevTools] beyond a
    flag.  Electron's navigation history and [app.quit()] sequence are
    modelled as far as the handlers observe them. *)

From stdpp Require Export base decidable strings list.

Declare Scope js_scope.
Delimit Scope js_scope with js.

(** ** A state monad

    The handlers of the sources thread a mutable object (the page, the
    window) through several statements.  [St S A] is a computation that
    reads and writes a state of type [S] and returns an [A]; it is made an
    instance of stdpp's monad classes so that handlers are written with
    [x ← m; k] and [m ;; k] in the order of the source statements. *)

Definition St (S A : Type) : Type := S -> A * S.

#[export] Instance st_mret {S} : MRet (St S) := fun A a s => (a, s).
#[export] Instance st_mbind {S} : MBind (St S) :=
  fun A B k m s => let '(a, s') := m s in k a s'.

Definition st_get {S} : St S S := fun s => (s, s).
Definition st_put {S} (s : S) : St S unit := fun _ => (tt, s).
Definition st_modify {S} (f : S -> S) : St S unit := fun s => (tt, f s).

(** Running a computation for its final state or its result. *)
Definition exec {S A} (m : St S A) (s : S) : S := snd (m s).
Definition eval {S A} (m : St S A) (s : S) : A := fst (m s).

(** Sequencing a list of effects in order (a [for ... of] loop whose body
    returns nothing). *)
Fixpoint st_iter {S X} (f : X -> St S unit) (xs : list X) : St S unit :=
  match xs with
  | [] => mret tt
  | x :: xs' => f x ;; st_iter f xs'
  end.

(** A method runs on [this] (the object) and on the environment it
    reaches (the page, the window). *)
Definition this_get {T P} : St (T * P) T := fun s => (s.1, s).
Definition this_put {T P} (t : T) : St (T * P) unit := fun s => (tt, (t, s.2)).
Definition on_env {T P A} (m : St P A) : St (T * P) A :=
  fun s => let '(a, p) := m s.2 in (a, (s.1, p)).

Create HintDb electron discriminated.
Create Rewrite HintDb electron_rw.

Lemma st_bind_unfold {S A B} (m : St S A) (k : A -> St S B) (s : S) :
  (m ≫= k) s = let '(a, s') := m s in k a s'.
Proof. reflexivity. Qed.

Lemma st_ret_unfold {S A} (a : A) (s : S) : (mret a : St S A) s = (a, s).
Proof. reflexivity. Qed.

Lemma st_get_bind {S A} (k : S -> St S A) (s : S) : (st_get ≫= k) s = k s s.
Proof. reflexivity. Qed.

Lemma st_modify_bind {S A} (f : S -> S) (k : unit -> St S A) (s : S) :
  (st_modify f ≫= k) s = k tt (f s).
Proof. reflexivity. Qed.

Lemma exec_bind {S A B} (m : St S A) (k : A -> St S B) (s : S) :
  exec (m ≫= k) s = exec (k (eval m s)) (exec m s).
Proof. unfold exec, eval. rewrite st_bind_unfold. by destruct (m s). Qed.

Lemma exec_modify {S} (f : S -> S) (s : S) : exec (st_modify f) s = f s.
Proof. reflexivity. Qed.

Lemma st_then_ret {S A B} (m : St S A) (b : B) (s : S) :
  (m ≫= fun _ => mret b) s = (b, exec m s).
Proof. unfold mbind, st_mbind, exec. simpl. by destruct (m s). Qed.

Lemma exec_ret {S A} (a : A) (s : S) : exec (mret a : St S A) s = s.
Proof. reflexivity. Qed.

Lemma exec_iter_cons {S X} (f : X -> St S unit) x xs s :
  exec (st_iter f (x :: xs)) s = exec (st_iter f xs) (exec (f x) s).
Proof. simpl. by rewrite exec_bind. Qed.

Lemma exec_on_env {T P A} (m : St P A) (t : T) (p : P) :
  exec (on_env m) (t, p) = (t, exec m p).
Proof. unfold exec, on_env. simpl. by destruct (m p). Qed.

Lemma eval_st_get {S} (s : S) : eval st_get s = s.
Proof. reflexivity. Qed.

Lemma exec_st_get {S} (s : S) : exec st_get s = s.
Proof. reflexivity. Qed.

Lemma eval_this_get {T P} (t : T) (p : P) : eval this_get (t, p) = t.
Proof. reflexivity. Qed.

Lemma exec_this_get {T P} (t : T) (p : P) : exec this_get (t, p) = (t, p).
Proof. reflexivity. Qed.

Lemma exec_this_put {T P} (t t' : T) (p : P) : exec (this_put t') (t, p) = (t', p).
Proof. reflexivity. Qed.

#[export] Hint Rewrite @eval_st_get @exec_st_get @exec_on_env @eval_this_get @exec_this_get @exec_this_put : electron_rw.

#[export] Hint Rewrite @exec_bind @exec_modify @exec_ret @exec_iter_cons : electron_rw.

(** ** Frame facts: what a computation leaves alone

    [keeps f m]: running [m] never changes the projection [f] of the
    state (for a page: its timer and frame queues; for a window: its
    handle).  The facts compose along [≫=] and [st_iter]. *)

Definition keeps {S B A} (f : S -> B) (m : St S A) : Prop := ∀ s, f (exec m s) = f s.

Lemma keeps_ret {S B A} (f : S -> B) (a : A) : keeps f (mret a : St S A).
Proof. by intros s. Qed.

Lemma keeps_get {S B} (f : S -> B) : keeps f (st_get : St S S).
Proof. by intros s. Qed.

Lemma keeps_modify {S B} (f : S -> B) (g : S -> S) : (∀ s, f (g s) = f s) -> keeps f (st_modify g).
Proof. intros Hg s. apply Hg. Qed.

Lemma keeps_bind {S B A C} (f : S -> B) (m : St S A) (k : A -> St S C) :
  keeps f m -> (∀ a, keeps f (k a)) -> keeps f (m ≫= k).
Proof. intros Hm Hk s. rewrite exec_bind, Hk. apply Hm. Qed.

Lemma keeps_iter {S B X} (f : S -> B) (g : X -> St S unit) (xs : list X) :
  (∀ x, keeps f (g x)) -> keeps f (st_iter g xs).
Proof.
  intros Hg. induction xs as [|x xs IH]; intros s; [done|].
  rewrite exec_iter_cons, IH. apply Hg.
Qed.

#[export] Hint Resolve keeps_ret keeps_get keeps_bind keeps_iter : electron.

(** [preserves P m]: running [m] from a state satisfying [P] ends in
    one satisfying [P]; it composes the same way. *)
Definition preserves {S A} (P : S -> Prop) (m : St S A) : Prop := ∀ s, P s -> P (exec m s).

Lemma preserves_ret {S A} (P : S -> Prop) (a : A) : preserves P (mret a : St S A).
Proof. by intros s. Qed.

Lemma preserves_get {S} (P : S -> Prop) : preserves P (st_get : St S S).
Proof. by intros s. Qed.

Lemma preserves_bind {S A B} (P : S -> Prop) (m : St S A) (k : A -> St S B) :
  preserves P m -> (∀ a, preserves P (k a)) -> preserves P (m ≫= k).
Proof. intros Hm Hk s Hs. rewrite exec_bind. apply Hk, Hm, Hs. Qed.

Lemma preserves_iter {S X} (P : S -> Prop) (g : X -> St S unit) (xs : list X) :
  (∀ x, preserves P (g x)) -> preserves P (st_iter g xs).
Proof.
  intros Hg. induction xs as [|x xs IH]; intros s Hs; [done|].
  rewrite exec_iter_cons. apply IH, Hg, Hs.
Qed.

#[export] Hint Resolve preserves_ret preserves_get preserves_bind preserves_iter : electron.

(** ** Tactics *)

Ltac invc H := inversion H; subst; clear H.

(** Unfold the monad's plumbing so that a run becomes nested matches on
    pairs, then split those pairs. *)
Ltac st_unfold :=
  cbv [mbind st_mbind mret st_mret this_get this_put on_env st_get st_put st_modify exec eval];
  cbn [fst snd].

Ltac st_run := st_unfold; repeat case_match; simpl in *; simplify_eq; try done.

(** Case on every [decide] and boolean test left in the goal. *)
(** Prove a [keeps] fact by walking the computation. *)
Ltac keeps_walk :=
  repeat first
    [ apply keeps_bind; [|intros ?]
    | apply keeps_iter; intros ?
    | apply keeps_ret | apply keeps_get
    | apply keeps_modify; intros ?; reflexivity
    | progress case_match
    | solve [eauto with electron] ].

(** Prove a [preserves] fact by walking the computation; the leaves are
    left to [eauto] with the [electron] hints. *)
Ltac preserves_walk :=
  repeat first
    [ solve [eauto with electron]
    | apply preserves_bind; [|intros ?]
    | apply preserves_iter; intros ?
    | apply preserves_ret | apply preserves_get
    | progress case_match ].

Ltac case_tests :=
  repeat first [ case_decide | case_match ]; simplify_eq/=.

(** ** Lists used as JavaScript [Set]s

    A JS [Set] keeps its elements once each, in insertion order. *)

Lemma NoDup_snoc {A} (l : list A) (x : A) :
  x ∉ l -> NoDup l -> NoDup (l ++ [x]).
Proof.
  intros Hx Hl. apply NoDup_app. split; [done|]. split; [|apply NoDup_singleton].
  intros y Hy ->%list_elem_of_singleton. done.
Qed.

Lemma NoDup_filter_neq `{EqDecision A} (l : list A) (x : A) :
  NoDup l -> NoDup (filter (fun y => y ≠ x) l).
Proof. intros. by apply NoDup_filter. Qed.

Lemma filter_neq_notin `{EqDecision A} (l : list A) (x : A) :
  x ∉ l -> filter (fun y => y ≠ x) l = l.
Proof.
  induction l as [|y l IH]; intros Hx; [done|].
  apply not_elem_of_cons in Hx as [Hxy Hx].
  rewrite filter_cons_True by congruence. by rewrite IH.
Qed.

Lemma length_filter_neq_in `{EqDecision A} (l : list A) (x : A) :
  NoDup l -> x ∈ l -> S (length (filter (fun y => y ≠ x) l)) = length l.
Proof.
  induction l as [|y l IH]; intros Hnd Hin; [by apply elem_of_nil in Hin|].
  apply NoDup_cons in Hnd as [Hy Hnd].
  apply elem_of_cons in Hin as [->|Hin].
  - rewrite filter_cons_False by (intros H; by apply H).
    by rewrite filter_neq_notin.
  - rewrite filter_cons_True by (intros ->; done). simpl. by rewrite IH.
Qed.

Lemma elem_of_fmap_filter {A B} (f : A -> B) (P : A -> Prop) `{∀ x, Decision (P x)}
    (l : list A) (y : B) :
  y ∈ f <$> filter P l -> y ∈ f <$> l.
Proof.
  intros (x & -> & Hx)%list_elem_of_fmap. apply list_elem_of_fmap_2.
  by apply list_elem_of_filter in Hx as [_ Hx].
Qed.

Lemma NoDup_fmap_filter {A B} (f : A -> B) (P : A -> Prop) `{∀ x, Decision (P x)}
    (l : list A) :
  NoDup (f <$> l) -> NoDup (f <$> filter P l).
Proof.
  induction l as [|x l IH]; [done|]. rewrite filter_cons. simpl.
  intros [Hx Hnd]%NoDup_cons. case_decide; simpl; [|by apply IH].
  apply NoDup_cons. split; [|by apply IH].
  intros Hin. apply Hx. by eapply elem_of_fmap_filter.
Qed.

Lemma existsb_ext_eq {A} (f g : A -> bool) (l : list A) :
  (∀ x, f x = g x) -> existsb f l = existsb g l.
Proof. intros Hfg. induction l as [|x l IH]; simpl; [done|]. by rewrite Hfg, IH. Qed.

Lemma list_filter_ext_in {A} (P Q : A -> Prop) `{∀ x, Decision (P x)} `{∀ x, Decision (Q x)}
    (l : list A) :
  (∀ x, x ∈ l -> P x <-> Q x) -> filter P l = filter Q l.
Proof.
  induction l as [|x l IH]; intros HPQ; [done|]. rewrite !filter_cons.
  rewrite IH by (intros y Hy; apply HPQ; by right).
  destruct (decide (P x)) as [Hp|Hp], (decide (Q x)) as [Hq|Hq]; try done;
    exfalso; [apply Hq|apply Hp]; apply HPQ; try left; done.
Qed.

Lemma filter_none {A} (P : A -> Prop) `{∀ x, Decision (P x)} (l : list A) :
  (∀ x, x ∈ l -> ¬ P x) -> filter P l = [].
Proof.
  induction l as [|x l IH]; intros Hn; [done|].
  rewrite filter_cons_False by (apply Hn; left). apply IH. intros y Hy. apply Hn. by right.
Qed.

Lemma filter_all {A} (P : A -> Prop) `{∀ x, Decision (P x)} (l : list A) :
  (∀ x, x ∈ l -> P x) -> filter P l = l.
Proof.
  induction l as [|x l IH]; intros Ha; [done|].
  rewrite filter_cons_True by (apply Ha; left). f_equal. apply IH. intros y Hy. apply Ha. by right.
Qed.

#[export] Hint Resolve NoDup_snoc NoDup_filter_neq NoDup_fmap_filter : electron.

(** ** Strings *)

Lemma prefix_app (p s : string) : String.prefix p (p ++ s) = true.
Proof.
  induction p as [|c p IH]; [by destruct s|]. simpl.
  destruct (Ascii.ascii_dec c c); [done|congruence].
Qed.
