(* ===== verification/Config.v ===== *)
(** * Configuration constants of the two scripts

    [Preload] is the [CONFIG] object of [src/preload.js] (scaling
    parameters and the default ad selectors); [Main] is the [CONFIG]
    object of [src/main.js] (target URL, User-Agent, load timeout, the
    error code that is ignored).  Integers that the code compares with
    [===] against Chromium error codes are [Z]; times are milliseconds
    in [nat]. *)

From S2P Require Import Prelude.
From Stdlib Require Import ZArith.

Module Preload.

(** [CONFIG.SCALE] *)
Record ScaleConfig := {
  BASE_WIDTH : Z;
  BASE_HEIGHT : Z;
  CONTAINER_ID : string;
  RESIZE_DELAY : nat
}.

Definition SCALE : ScaleConfig := {|
  BASE_WIDTH := 1920;
  BASE_HEIGHT := 1080;
  CONTAINER_ID := "app-container";
  RESIZE_DELAY := 100
|}.

(** [CONFIG.AD_SELECTORS] *)
Definition AD_SELECTORS : list string :=
  [ "#player+div+div";
    "div.mgp_adRollEventCatcher.mgp_clickable";
    "div.toc-container" ].

End Preload.

Module Main.

Definition TARGET_URL : string := "https://google.com/".

Definition USER_AGENT : string :=
  "Mozilla/5.0 (Windows NT 10.0; Win64; x64) AppleWebKit/537.36 (KHTML, like Gecko) Chrome/138.0.0.0 Safari/537.36".

(** [CONFIG.LOAD_TIMEOUT], in milliseconds. *)
Definition LOAD_TIMEOUT : nat := 60000.

(** [CONFIG.ERROR_CODES.ABORTED], Chromium's [net::ERR_ABORTED]. *)
Definition ERROR_ABORTED : Z := (-3)%Z.

End Main.
