(* ===== verification/Dom.v ===== *)
(** * The page the preload script runs in

    This file holds the part of the browser that [src/preload.js] reads
    and writes: a store of element nodes with their inline styles, the
    list of the nodes attached to the document in document order,
    [getElementById], [querySelectorAll] over a selector list, and the
    page's own mutations.  None of it is code of the repository: it is
    the environment the code is verified against, and it is stated once
    here so that the scaler and the blocker, which both write styles into
    the same nodes, share it.

    The selector engine is an interface ([SelectorEngine]): for one
    complex selector (no top-level comma) it says whether the selector
    parses and which nodes it matches.  A selector list is split at its
    commas; following the Selectors specification, a list is invalid as
    soon as one of its selectors is, and then [querySelectorAll] throws
    (here: returns [None]).  [SimpleEngine] is a small executable engine
    (type, [#id], [.class] and the [+] sibling combinator, on a document
    whose attached nodes are siblings) used by the concrete scenarios. *)

From S2P Require Import Prelude.
From stdpp Require Import gmap.
From Stdlib Require Import QArith Ascii.
Local Open Scope string_scope.

(** ** Styles

    The values the code writes into [element.style]: plain keywords,
    pixel lengths ([`${x}px`]) and a [scale(...)] transform. *)
Inductive StyleVal :=
  | SStr (s : string)
  | SPx (q : Q)
  | SScale (q : Q).

Abbreviation Style := (gmap string StyleVal) (only parsing).

(** [Object.assign(el.style, {k1: v1, ...})]: the properties are written
    in order, a later write of the same key wins. *)
Definition style_assign (st : Style) (props : list (string * StyleVal)) : Style :=
  foldl (fun acc kv => <[kv.1 := kv.2]> acc) st props.

Lemma style_assign_cons st k v props :
  style_assign st ((k, v) :: props) = style_assign (<[k := v]> st) props.
Proof. reflexivity. Qed.

Lemma style_assign_nil st : style_assign st [] = st.
Proof. reflexivity. Qed.

Definition display_none (st : Style) : bool :=
  match st !! "display" with
  | Some (SStr v) => bool_decide (v = "none")
  | _ => false
  end.

(** ** Elements and the document *)

Record Element := {
  el_tag : string;
  el_id : string;
  el_classes : list string;
  el_style : Style
}.

Definition set_el_style (e : Element) (st : Style) : Element :=
  {| el_tag := el_tag e; el_id := el_id e; el_classes := el_classes e;
     el_style := st |}.

(** The node store is shared: a node removed from the document keeps its
    identity and can still be written through a reference the script
    holds.  [doc_tree] lists the attached nodes in document order. *)
Record Doc := {
  doc_nodes : gmap nat Element;
  doc_tree : list nat;
  doc_root_style : Style;
  doc_body_style : Style
}.

Definition doc_set_nodes (d : Doc) (ns : gmap nat Element) : Doc :=
  {| doc_nodes := ns; doc_tree := doc_tree d;
     doc_root_style := doc_root_style d; doc_body_style := doc_body_style d |}.

(** Write properties into the inline style of node [n] (through a held
    reference: attached or not). *)
Definition assign_node_style (d : Doc) (n : nat) (props : list (string * StyleVal)) : Doc :=
  match doc_nodes d !! n with
  | Some e => doc_set_nodes d (<[n := set_el_style e (style_assign (el_style e) props)]> (doc_nodes d))
  | None => d
  end.

Definition assign_root_style (d : Doc) (props : list (string * StyleVal)) : Doc :=
  {| doc_nodes := doc_nodes d; doc_tree := doc_tree d;
     doc_root_style := style_assign (doc_root_style d) props;
     doc_body_style := doc_body_style d |}.

Definition assign_body_style (d : Doc) (props : list (string * StyleVal)) : Doc :=
  {| doc_nodes := doc_nodes d; doc_tree := doc_tree d;
     doc_root_style := doc_root_style d;
     doc_body_style := style_assign (doc_body_style d) props |}.

Definition node_hidden (d : Doc) (n : nat) : bool :=
  match doc_nodes d !! n with
  | Some e => display_none (el_style e)
  | None => false
  end.

(** [document.getElementById(id)]: the first attached node, in document
    order, whose id is [id]. *)
Definition get_element_by_id (d : Doc) (id : string) : option nat :=
  List.find (fun n => match doc_nodes d !! n with
                            | Some e => bool_decide (el_id e = id)
                            | None => false
                            end) (doc_tree d).

(** ** The page's own mutations (what the MutationObservers watch) *)
Inductive DomOp :=
  | Append (n : nat) (e : Element)   (** [body.appendChild] of a new node *)
  | Remove (n : nat).                (** [node.remove()] *)

Definition apply_dom_op (d : Doc) (op : DomOp) : Doc :=
  match op with
  | Append n e =>
      {| doc_nodes := <[n := e]> (doc_nodes d); doc_tree := doc_tree d ++ [n];
         doc_root_style := doc_root_style d; doc_body_style := doc_body_style d |}
  | Remove n =>
      {| doc_nodes := doc_nodes d; doc_tree := filter (fun m => m ≠ n) (doc_tree d);
         doc_root_style := doc_root_style d; doc_body_style := doc_body_style d |}
  end.

Definition apply_dom_ops (d : Doc) (ops : list DomOp) : Doc := foldl apply_dom_op d ops.

(** ** Documents with the same shape

    Two documents have the same shape when they attach the same nodes in
    the same order and every node has the same type, id and classes: they
    differ at most in inline styles, which is all the preload script
    writes.  Selector matching that ignores inline styles respects this
    equivalence. *)

Definition shape (e : Element) : string * string * list string :=
  (el_tag e, el_id e, el_classes e).

Definition doc_shape_eq (d1 d2 : Doc) : Prop :=
  doc_tree d1 = doc_tree d2 /\ shape <$> doc_nodes d1 = shape <$> doc_nodes d2.

#[export] Instance doc_shape_eq_equiv : Equivalence doc_shape_eq.
Proof.
  split.
  - intros d. by split.
  - intros d1 d2 [H1 H2]. by split.
  - intros d1 d2 d3 [H1 H2] [H3 H4]. split; congruence.
Qed.

Lemma assign_node_style_shape d n props : doc_shape_eq (assign_node_style d n props) d.
Proof.
  unfold assign_node_style. destruct (doc_nodes d !! n) as [e|] eqn:E; [|reflexivity].
  split; [done|]. simpl. rewrite fmap_insert. apply insert_id.
  by rewrite lookup_fmap, E.
Qed.

Lemma assign_node_style_lookup_eq d n props :
  doc_nodes (assign_node_style d n props) !! n =
    (fun e => set_el_style e (style_assign (el_style e) props)) <$> doc_nodes d !! n.
Proof.
  unfold assign_node_style. destruct (doc_nodes d !! n) eqn:E; simpl; [|by rewrite E].
  by rewrite lookup_insert_eq.
Qed.

Lemma assign_node_style_page_styles d n props :
  doc_root_style (assign_node_style d n props) = doc_root_style d /\
  doc_body_style (assign_node_style d n props) = doc_body_style d.
Proof. unfold assign_node_style. by case_match. Qed.

Lemma assign_node_style_tree d n props : doc_tree (assign_node_style d n props) = doc_tree d.
Proof. apply assign_node_style_shape. Qed.

Lemma shape_eq_is_Some d1 d2 m :
  doc_shape_eq d1 d2 -> is_Some (doc_nodes d1 !! m) <-> is_Some (doc_nodes d2 !! m).
Proof.
  intros [_ Hn]. rewrite <- (fmap_is_Some shape (doc_nodes d1 !! m)).
  rewrite <- (fmap_is_Some shape (doc_nodes d2 !! m)), <- !lookup_fmap, Hn. done.
Qed.

(** The document is well formed when its attached nodes are distinct
    and stored. *)
Definition doc_wf (d : Doc) : Prop :=
  NoDup (doc_tree d) /\ Forall (fun n => is_Some (doc_nodes d !! n)) (doc_tree d).

Lemma doc_wf_shape d1 d2 : doc_shape_eq d1 d2 -> doc_wf d1 -> doc_wf d2.
Proof.
  intros [Ht Hn] [Hnd Hall]. split; rewrite <- Ht; [done|].
  eapply Forall_impl; [exact Hall|]. intros n Hs.
  apply (fmap_is_Some shape). rewrite <- lookup_fmap, <- Hn, lookup_fmap.
  by apply fmap_is_Some.
Qed.

(** ** Hiding a node *)

Definition hide_props : list (string * StyleVal) := [("display", SStr "none")].

Lemma node_hidden_assign_display d n m :
  node_hidden (assign_node_style d n hide_props) m =
    if decide (m = n) then bool_decide (is_Some (doc_nodes d !! n)) else node_hidden d m.
Proof.
  unfold node_hidden, assign_node_style. destruct (doc_nodes d !! n) as [e|] eqn:E.
  - unfold doc_set_nodes; cbn [doc_nodes]. case_decide as Hmn.
    + subst. rewrite lookup_insert_eq. cbn [el_style set_el_style].
      unfold hide_props. rewrite style_assign_cons, style_assign_nil.
      unfold display_none. rewrite lookup_insert_eq. by rewrite bool_decide_true.
    + by rewrite lookup_insert_ne by congruence.
  - case_decide; subst; [by rewrite E|done].
Qed.

Lemma assign_hidden_noop d n : node_hidden d n = true -> assign_node_style d n hide_props = d.
Proof.
  unfold node_hidden, assign_node_style. destruct (doc_nodes d !! n) as [e|] eqn:E; [|done].
  intros Hh. unfold doc_set_nodes. rewrite insert_id; [by destruct d|].
  rewrite E. f_equal. destruct e as [t i c st]. unfold set_el_style, hide_props.
  cbn [el_style el_tag el_id el_classes] in *.
  rewrite style_assign_cons, style_assign_nil. f_equal. symmetry. apply insert_id.
  unfold display_none in Hh.
  destruct (st !! "display") as [[v| |]|]; try discriminate.
  apply bool_decide_eq_true in Hh. by subst.
Qed.

(** ** Selector lists *)

Definition comma : Ascii.ascii := ","%char.

(** [Array.prototype.join(',')] on a list of strings. *)
Fixpoint join_comma (l : list string) : string :=
  match l with
  | [] => ""
  | [s] => s
  | s :: l' => s ++ String comma (join_comma l')
  end.

(** The selectors of a selector list, split at its commas. *)
Fixpoint split_comma (s : string) : list string :=
  match s with
  | EmptyString => [""]
  | String c s' =>
      match split_comma s' with
      | [] => [""]
      | h :: t => if Ascii.eqb c comma then "" :: h :: t else String c h :: t
      end
  end.

Definition no_comma (s : string) : Prop := comma ∉ String.list_ascii_of_string s.

Lemma split_comma_nonempty s : split_comma s ≠ [].
Proof. destruct s as [|c s]; simpl; [done|]. destruct (split_comma s); [done|]. by case_match. Qed.

Lemma split_comma_app x y : split_comma (x ++ String comma y) = (split_comma x ++ split_comma y)%list.
Proof.
  induction x as [|c x IH]; simpl.
  - pose proof (split_comma_nonempty y). destruct (split_comma y); [done|]. done.
  - rewrite IH. pose proof (split_comma_nonempty x).
    destruct (split_comma x) as [|h t]; [done|]. simpl. by case_match.
Qed.

Lemma split_comma_no_comma s : no_comma s -> split_comma s = [s].
Proof.
  unfold no_comma. induction s as [|c s IH]; intros Hs; [done|]. simpl in *.
  apply not_elem_of_cons in Hs as [Hc Hs]. rewrite IH by done.
  destruct (Ascii.eqb_spec c comma); congruence.
Qed.

(** Joining selectors with commas and splitting the result at its commas
    gives back the selectors, when none of them contains a comma. *)
Lemma split_join_comma l : l ≠ [] -> Forall no_comma l -> split_comma (join_comma l) = l.
Proof.
  induction l as [|s [|s' l] IH]; intros Hne Hall; [done| |].
  - apply Forall_cons in Hall as [Hs _]. by apply split_comma_no_comma.
  - apply Forall_cons in Hall as [Hs Hall]. change (join_comma (s :: s' :: l))
      with (s ++ String comma (join_comma (s' :: l))).
    rewrite split_comma_app, split_comma_no_comma by done. rewrite IH; done.
Qed.

(** Each selector of the set, comma-free, is one of the parts of the
    joined list. *)
Lemma no_comma_in_split_join l s : s ∈ l -> no_comma s -> s ∈ split_comma (join_comma l).
Proof.
  induction l as [|s0 [|s1 l] IH]; intros Hin Hs; [by apply elem_of_nil in Hin| |].
  - apply list_elem_of_singleton in Hin as ->. rewrite split_comma_no_comma by done. by left.
  - change (join_comma (s0 :: s1 :: l)) with (s0 ++ String comma (join_comma (s1 :: l))).
    rewrite split_comma_app. apply elem_of_app.
    apply elem_of_cons in Hin as [->|Hin].
    + left. rewrite split_comma_no_comma by done. by left.
    + right. by apply IH.
Qed.

(** What the browser promises [querySelectorAll] about one complex
    selector: whether it parses and which nodes of a document it
    matches. *)
Class SelectorEngine := {
  complex_valid : string -> bool;
  complex_matches : string -> Doc -> nat -> bool
}.

(** The law an engine must satisfy for the theorems that rescan a page:
    matching ignores inline styles. *)
Class SelectorEngineLaws `{SelectorEngine} : Prop := {
  complex_matches_shape : ∀ s, Proper (doc_shape_eq ==> eq ==> eq) (complex_matches s)
}.

Section Query.
Context `{SelectorEngine}.

(** [document.querySelectorAll(q)]: [None] when the call throws a
    [SyntaxError], otherwise the attached nodes matched by some selector
    of the list, once each, in document order. *)
Definition query_selector_all (d : Doc) (q : string) : option (list nat) :=
  let parts := split_comma q in
  if forallb complex_valid parts
  then Some (filter (fun n => existsb (fun p => complex_matches p d n) parts = true)
                    (doc_tree d))
  else None.
Lemma query_selector_all_shape `{!SelectorEngineLaws} d1 d2 q :
  doc_shape_eq d1 d2 -> query_selector_all d1 q = query_selector_all d2 q.
Proof.
  intros Hs. unfold query_selector_all. case_match; [|done].
  destruct Hs as [Ht Hn]. rewrite Ht. f_equal. apply list_filter_iff. intros n.
  assert (Heq : ∀ p, complex_matches p d1 n = complex_matches p d2 n).
  { intros p. by apply complex_matches_shape. }
  by rewrite (existsb_ext_eq _ _ _ Heq).
Qed.

(** Querying the comma-joined list of comma-free, valid selectors
    returns the attached nodes one of them matches. *)
Lemma query_join_valid d l :
  l ≠ [] -> Forall no_comma l -> Forall (fun s => complex_valid s = true) l ->
  query_selector_all d (join_comma l) =
    Some (filter (fun n => existsb (fun s => complex_matches s d n) l = true) (doc_tree d)).
Proof.
  intros Hne Hnc Hv. unfold query_selector_all. rewrite split_join_comma by done.
  replace (forallb complex_valid l) with true; [done|].
  symmetry. apply forallb_forall. intros x Hx. rewrite Forall_forall in Hv.
  apply Hv. by apply list_elem_of_In.
Qed.

(** One comma-free selector that does not parse makes the whole query
    throw. *)
Lemma query_join_invalid d l s :
  s ∈ l -> no_comma s -> complex_valid s = false -> query_selector_all d (join_comma l) = None.
Proof.
  intros Hin Hnc Hv. unfold query_selector_all.
  replace (forallb complex_valid (split_comma (join_comma l))) with false; [done|].
  symmetry. apply not_true_iff_false. intros Hall. apply forallb_forall with (x := s) in Hall.
  - congruence.
  - apply list_elem_of_In. by apply no_comma_in_split_join.
Qed.

Lemma query_selector_all_sub d q ns : query_selector_all d q = Some ns -> ns ⊆ doc_tree d.
Proof.
  unfold query_selector_all. case_match; [|done]. intros [= <-] n Hn.
  by apply list_elem_of_filter in Hn as [_ Hn].
Qed.
End Query.

(** ** A small executable engine

    A compound selector is an optional type followed by [#id] and
    [.class] parts; a complex selector chains compounds with [+], the
    next-sibling combinator, the attached nodes being siblings. *)
Module SimpleEngine.

Record Compound := { c_tag : string; c_ids : list string; c_classes : list string }.

Definition ident_char (c : Ascii.ascii) : bool :=
  let n := Ascii.nat_of_ascii c in
  bool_decide (48 <= n <= 57)%nat || bool_decide (65 <= n <= 90)%nat ||
  bool_decide (97 <= n <= 122)%nat || bool_decide (n = 45)%nat || bool_decide (n = 95)%nat.

Definition ident_ok (s : string) : bool :=
  bool_decide (s ≠ "") && forallb ident_char (String.list_ascii_of_string s).

(** Split a compound into its sigil-prefixed tokens: the type (sigil
    space) and each [#...] or [.]... part. *)
Fixpoint tokens (s : string) (sigil : Ascii.ascii) (buf : string) : list (Ascii.ascii * string) :=
  match s with
  | EmptyString => [(sigil, buf)]
  | String c s' =>
      if Ascii.eqb c "#"%char || Ascii.eqb c "."%char
      then (sigil, buf) :: tokens s' c ""
      else tokens s' sigil (buf ++ String c "")
  end.

Definition parse_compound (s : string) : option Compound :=
  match tokens s " "%char "" with
  | [] => None
  | (_, tag) :: rest =>
      if (bool_decide (tag = "") || ident_ok tag) &&
         bool_decide (tag ≠ "" ∨ rest ≠ []) &&
         forallb (fun t => ident_ok t.2) rest
      then Some {| c_tag := tag;
                   c_ids := (filter (fun t => t.1 = "#"%char) rest).*2;
                   c_classes := (filter (fun t => t.1 = "."%char) rest).*2 |}
      else None
  end.

Fixpoint split_plus (s : string) : list string :=
  match s with
  | EmptyString => [""]
  | String c s' =>
      match split_plus s' with
      | [] => [""]
      | h :: t => if Ascii.eqb c "+"%char then "" :: h :: t else String c h :: t
      end
  end.

Definition parse_complex (s : string) : option (list Compound) :=
  mapM parse_compound (split_plus s).

Definition compound_matches (d : Doc) (c : Compound) (n : nat) : bool :=
  match (shape <$> doc_nodes d) !! n with
  | Some (tag, id, classes) =>
      (bool_decide (c_tag c = "") || bool_decide (c_tag c = tag)) &&
      forallb (fun i => bool_decide (i = id)) (c_ids c) &&
      forallb (fun k => bool_decide (k ∈ classes)) (c_classes c)
  | None => false
  end.

(** [cs] is the chain read from the subject backwards; [prevs] are the
    preceding siblings of [n], nearest first. *)
Fixpoint chain_matches (d : Doc) (cs : list Compound) (n : nat) (prevs : list nat) : bool :=
  match cs with
  | [] => true
  | [c] => compound_matches d c n
  | c :: cs' =>
      compound_matches d c n &&
      match prevs with
      | [] => false
      | p :: ps => chain_matches d cs' p ps
      end
  end.

Fixpoint preceding (tree : list nat) (n : nat) : list nat :=
  match tree with
  | [] => []
  | m :: t => if decide (m = n) then [] else preceding t n ++ [m]
  end.

#[export] Instance engine : SelectorEngine := {|
  complex_valid s := bool_decide (is_Some (parse_complex s));
  complex_matches s d n :=
    match parse_complex s with
    | Some cs => chain_matches d (reverse cs) n (preceding (doc_tree d) n)
    | None => false
    end
|}.

Lemma chain_matches_shape d1 d2 cs n prevs :
  doc_shape_eq d1 d2 -> chain_matches d1 cs n prevs = chain_matches d2 cs n prevs.
Proof.
  intros [_ Hn]. unfold chain_matches.
  assert (Hc : ∀ c m, compound_matches d1 c m = compound_matches d2 c m).
  { intros c m. unfold compound_matches. by rewrite Hn. }
  revert n prevs. induction cs as [|c cs IH]; intros n prevs; [done|].
  destruct cs as [|c' cs]; [apply Hc|]. rewrite Hc. destruct prevs; [done|]. by rewrite IH.
Qed.

#[export] Instance engine_laws : SelectorEngineLaws.
Proof.
  constructor. intros s d1 d2 Hd n ? <-. simpl. destruct (parse_complex s); [|done].
  rewrite (proj1 Hd). by apply chain_matches_shape.
Qed.

End SimpleEngine.
