(* ===== verification/Scale.v ===== *)
(** * The scaling arithmetic of [PageScaler]

    [applyScale], the closure built by [PageScaler.setupScaling] in
    [src/preload.js], reads the viewport ([clientWidth], [clientHeight]
    of the document element, integers), computes
    [scale = Math.min(w / bw, h / bh)] and writes the container's
    transform, its origin, its centring margins and its logical size.
    Here the numbers are exact rationals: [Q] stands for the doubles of
    JavaScript, so the theorems hold of the real-number result that the
    doubles round.

    The theorems show the fit policy of the spec: the scaled canvas never
    overflows the viewport, it fills one of the two dimensions, no larger
    uniform factor fits, and the margins centre it. *)

From S2P Require Import Prelude Config Dom.
From Stdlib Require Import ZArith QArith Qminmax Lqa.
Local Open Scope Q_scope.

Module Scaling.

(** The metrics [applyScale] reads: [document.documentElement]'s
    [clientWidth] and [clientHeight]. *)
Record Viewport := { clientWidth : Z; clientHeight : Z }.

(** [const scale = Math.min(w / bw, h / bh);] *)
Definition scale_factor (bw bh : Z) (vp : Viewport) : Q :=
  Qmin (inject_Z (clientWidth vp) / inject_Z bw) (inject_Z (clientHeight vp) / inject_Z bh).

(** [(w - bw * scale) / 2] and [(h - bh * scale) / 2]. *)
Definition margin_left (bw bh : Z) (vp : Viewport) : Q :=
  (inject_Z (clientWidth vp) - inject_Z bw * scale_factor bw bh vp) / 2.

Definition margin_top (bw bh : Z) (vp : Viewport) : Q :=
  (inject_Z (clientHeight vp) - inject_Z bh * scale_factor bw bh vp) / 2.

(** The object [applyScale] passes to [Object.assign(container.style, ...)],
    keys in the order of the source. *)
Definition scale_styles (cfg : Preload.ScaleConfig) (vp : Viewport) : list (string * StyleVal) :=
  let bw := Preload.BASE_WIDTH cfg in
  let bh := Preload.BASE_HEIGHT cfg in
  [ ("transform", SScale (scale_factor bw bh vp));
    ("transformOrigin", SStr "top left");
    ("marginLeft", SPx (margin_left bw bh vp));
    ("marginTop", SPx (margin_top bw bh vp));
    ("width", SPx (inject_Z bw));
    ("height", SPx (inject_Z bh)) ].


(** ** Helper lemmas on division by a positive base *)

Lemma mul_div_cancel (x b : Q) : 0 < b -> b * (x / b) == x.
Proof. intros Hb. apply Qmult_div_r. intros E. rewrite E in Hb. discriminate. Qed.

Lemma le_div_iff (t x b : Q) : 0 < b -> t <= x / b <-> b * t <= x.
Proof.
  intros Hb. rewrite <- (mul_div_cancel x b Hb) at 2. split.
  - intros H. rewrite !(Qmult_comm b). by apply Qmult_le_compat_r; [|apply Qlt_le_weak].
  - intros H. rewrite !(Qmult_comm b) in H. by apply Qmult_le_r in H.
Qed.

Lemma inject_Z_pos (z : Z) : (0 < z)%Z -> 0 < inject_Z z.
Proof. intros H. rewrite Zlt_Qlt in H. exact H. Qed.

Lemma inject_Z_nonneg (z : Z) : (0 <= z)%Z -> 0 <= inject_Z z.
Proof. intros H. rewrite Zle_Qle in H. exact H. Qed.

#[export] Hint Resolve inject_Z_pos inject_Z_nonneg : electron.

Section Fit.
Variables bw bh : Z.
Hypothesis Hbw : (0 < bw)%Z.
Hypothesis Hbh : (0 < bh)%Z.

Lemma scale_le_width vp : scale_factor bw bh vp <= inject_Z (clientWidth vp) / inject_Z bw.
Proof. apply Q.le_min_l. Qed.

Lemma scale_le_height vp : scale_factor bw bh vp <= inject_Z (clientHeight vp) / inject_Z bh.
Proof. apply Q.le_min_r. Qed.

Lemma scaled_width_fits vp : inject_Z bw * scale_factor bw bh vp <= inject_Z (clientWidth vp).
Proof. apply le_div_iff; [auto with electron|apply scale_le_width]. Qed.

Lemma scaled_height_fits vp : inject_Z bh * scale_factor bw bh vp <= inject_Z (clientHeight vp).
Proof. apply le_div_iff; [auto with electron|apply scale_le_height]. Qed.

Lemma scale_fills vp :
  inject_Z bw * scale_factor bw bh vp == inject_Z (clientWidth vp) \/
  inject_Z bh * scale_factor bw bh vp == inject_Z (clientHeight vp).
Proof.
  unfold scale_factor.
  destruct (Q.min_spec (inject_Z (clientWidth vp) / inject_Z bw) (inject_Z (clientHeight vp) / inject_Z bh)) as [[_ E]|[_ E]]; rewrite E.
  - left. apply mul_div_cancel. auto with electron.
  - right. apply mul_div_cancel. auto with electron.
Qed.

Lemma scale_optimal vp (t : Q) :
  inject_Z bw * t <= inject_Z (clientWidth vp) -> inject_Z bh * t <= inject_Z (clientHeight vp) -> t <= scale_factor bw bh vp.
Proof.
  intros Hw Hh. apply Q.min_glb; apply le_div_iff; auto with electron.
Qed.

(** The factors that fit are exactly those at most the chosen one. *)
Lemma scale_fits_iff vp (t : Q) :
  t <= scale_factor bw bh vp <->
  inject_Z bw * t <= inject_Z (clientWidth vp) /\ inject_Z bh * t <= inject_Z (clientHeight vp).
Proof.
  split.
  - intros Ht. split; apply le_div_iff; auto with electron;
      eapply Qle_trans; [exact Ht|apply scale_le_width|exact Ht|apply scale_le_height].
  - intros [Hw Hh]. by apply scale_optimal.
Qed.

Lemma margin_left_centres vp :
  2 * margin_left bw bh vp + inject_Z bw * scale_factor bw bh vp == inject_Z (clientWidth vp).
Proof. unfold margin_left. field. Qed.

Lemma margin_top_centres vp :
  2 * margin_top bw bh vp + inject_Z bh * scale_factor bw bh vp == inject_Z (clientHeight vp).
Proof. unfold margin_top. field. Qed.

Lemma margins_nonneg vp : 0 <= margin_left bw bh vp /\ 0 <= margin_top bw bh vp.
Proof.
  pose proof (margin_left_centres vp). pose proof (margin_top_centres vp).
  pose proof (scaled_width_fits vp). pose proof (scaled_height_fits vp).
  split; lra.
Qed.

End Fit.

End Scaling.

Import Scaling.

(** ** The configured scaler: 1920×1080 *)

(** C1. For every viewport, the styles [applyScale] writes with the
    configured 1920×1080 base are a [scale(s)] transform anchored at the
    top-left corner, margins [ml], [mt] and the logical size, where the
    scaled canvas fits inside the viewport, fills it in at least one
    dimension, and the margins are non-negative and centre it. *)
Theorem applyScale_fit_policy (vp : Viewport) :
  ∃ s ml mt,
    scale_styles Preload.SCALE vp =
      [ ("transform", SScale s); ("transformOrigin", SStr "top left");
        ("marginLeft", SPx ml); ("marginTop", SPx mt);
        ("width", SPx (inject_Z 1920)); ("height", SPx (inject_Z 1080)) ] /\
    inject_Z 1920 * s <= inject_Z (clientWidth vp) /\
    inject_Z 1080 * s <= inject_Z (clientHeight vp) /\
    (inject_Z 1920 * s == inject_Z (clientWidth vp) \/
     inject_Z 1080 * s == inject_Z (clientHeight vp)) /\
    2 * ml + inject_Z 1920 * s == inject_Z (clientWidth vp) /\
    2 * mt + inject_Z 1080 * s == inject_Z (clientHeight vp) /\
    0 <= ml /\ 0 <= mt.
Proof.
  assert (Hw : (0 < 1920)%Z) by lia. assert (Hh : (0 < 1080)%Z) by lia.
  eexists _, _, _. split; [reflexivity|].
  split; [apply scaled_width_fits; simpl; lia|].
  split; [apply scaled_height_fits; simpl; lia|].
  split; [apply scale_fills; simpl; lia|].
  split; [apply margin_left_centres|].
  split; [apply margin_top_centres|].
  apply margins_nonneg; simpl; lia.
Qed.

(** C2. The factor [applyScale] chooses is the largest uniform factor
    under which the 1920×1080 canvas fits the viewport: a factor [t] fits
    in both dimensions exactly when [t] is at most the chosen one.  In
    particular the chosen factor fits, and no larger one does. *)
Theorem applyScale_scale_optimal (vp : Viewport) :
  ∀ t : Q,
    t <= scale_factor (Preload.BASE_WIDTH Preload.SCALE) (Preload.BASE_HEIGHT Preload.SCALE) vp <->
    inject_Z 1920 * t <= inject_Z (clientWidth vp) /\ inject_Z 1080 * t <= inject_Z (clientHeight vp).
Proof. intros t. apply scale_fits_iff; simpl; lia. Qed.

(** C3. Which dimension the canvas fills.  On a viewport narrower than
    16:9 ([1080 w <= 1920 h]) the factor is [w / 1920], there is no left
    margin and the top margin is half the height left over; on a viewport
    wider than 16:9 the factor is [h / 1080], there is no top margin and
    the left margin is half the width left over (a 1000×540 viewport gets
    the factor 1/2 and a 20 px left margin). *)
Theorem applyScale_letterbox (vp : Viewport) :
  let bw := Preload.BASE_WIDTH Preload.SCALE in
  let bh := Preload.BASE_HEIGHT Preload.SCALE in
  let w := inject_Z (clientWidth vp) in
  let h := inject_Z (clientHeight vp) in
  (1080 * w <= 1920 * h ->
     scale_factor bw bh vp == w / 1920 /\ margin_left bw bh vp == 0 /\
     margin_top bw bh vp == (h - 1080 * (w / 1920)) / 2) /\
  (1920 * h <= 1080 * w ->
     scale_factor bw bh vp == h / 1080 /\ margin_top bw bh vp == 0 /\
     margin_left bw bh vp == (w - 1920 * (h / 1080)) / 2).
Proof.
  intros bw bh w h. unfold margin_left, margin_top, scale_factor. subst bw bh. simpl.
  change (inject_Z 1920) with 1920. change (inject_Z 1080) with 1080. fold w h.
  destruct (Q.min_spec (w / 1920) (h / 1080)) as [[Hlt E]|[Hle E]];
    rewrite E; clearbody w h; unfold Qdiv in *;
    change (/1080) with (1#1080) in *; change (/1920) with (1#1920) in *; change (/2) with (1#2) in *;
    split; intros Hr; repeat split; lra.
Qed.
