(* ===== verification/Fingerprint.v ===== *)
(** * [hideBrowserFingerprint] (src/preload.js, lines 26-42)

    The function redefines [navigator.webdriver] as a getter answering
    [false] and, when [window.performance] exists without a [memory]
    property, installs a [memory] object whose heap sizes are drawn from
    [Math.random()].  The two draws are parameters [r1], [r2] (in the
    order the object literal evaluates them), each in [[0, 1)] as
    [Math.random] promises.

    The theorems show the bounds of the values installed: a total heap
    size of a whole number of MiB in [[50, 149]], a used size in
    [[0, 49]] MiB, the fixed 200 MiB limit, so [used < total <= limit]
    always holds; an existing [memory] object is left alone; and a second
    application leaves the heap object installed by the first. *)

From S2P Require Import Prelude.
From Stdlib Require Import ZArith QArith Qround Lqa.

Module Fingerprint.

Record HeapMemory := {
  totalJSHeapSize : Z;
  usedJSHeapSize : Z;
  jsHeapSizeLimit : Z
}.

(** What the function reads and writes: the value [navigator.webdriver]
    answers, whether [window.performance] exists, and its [memory]. *)
Record Navigator := {
  webdriver : bool;
  has_performance : bool;
  memory : option HeapMemory
}.

Definition MiB : Z := 1024 * 1024.

(** [Math.floor(Math.random() * 100 + 50) * 1024 * 1024] and
    [Math.floor(Math.random() * 50) * 1024 * 1024]. *)
Definition fake_memory (r1 r2 : Q) : HeapMemory :=
  {| totalJSHeapSize := Qfloor (r1 * 100 + 50) * 1024 * 1024;
     usedJSHeapSize := Qfloor (r2 * 50) * 1024 * 1024;
     jsHeapSizeLimit := 200 * 1024 * 1024 |}.

Definition hideBrowserFingerprint (r1 r2 : Q) (nav : Navigator) : Navigator :=
  let nav1 := {| webdriver := false; has_performance := has_performance nav; memory := memory nav |} in
  if has_performance nav && negb (bool_decide (is_Some (memory nav))) then
    {| webdriver := false; has_performance := true; memory := Some (fake_memory r1 r2) |}
  else nav1.

(** [Math.random()]'s range. *)
Definition random_draw (r : Q) : Prop := (0 <= r /\ r < 1)%Q.

(** ** Floors of a draw *)

Lemma Qfloor_between (x : Q) (a b : Z) :
  (inject_Z a <= x)%Q -> (x < inject_Z b)%Q -> (a <= Qfloor x <= b - 1)%Z.
Proof.
  intros Ha Hb. split.
  - pose proof (Qfloor_resp_le _ _ Ha) as Hf. by rewrite Qfloor_Z in Hf.
  - pose proof (Qfloor_le x) as Hf.
    assert (Hlt : (inject_Z (Qfloor x) < inject_Z b)%Q) by lra.
    rewrite <- Zlt_Qlt in Hlt. lia.
Qed.

Lemma total_draw_bounds (r : Q) :
  random_draw r -> (50 <= Qfloor (r * 100 + 50) <= 149)%Z.
Proof. intros [H0 H1]. apply (Qfloor_between _ 50 150); unfold inject_Z; lra. Qed.

Lemma used_draw_bounds (r : Q) :
  random_draw r -> (0 <= Qfloor (r * 50) <= 49)%Z.
Proof. intros [H0 H1]. apply (Qfloor_between _ 0 50); unfold inject_Z; lra. Qed.

Lemma hideBrowserFingerprint_installs r1 r2 nav :
  has_performance nav = true -> memory nav = None ->
  hideBrowserFingerprint r1 r2 nav =
    {| webdriver := false; has_performance := true; memory := Some (fake_memory r1 r2) |}.
Proof. intros Hp Hm. unfold hideBrowserFingerprint. by rewrite Hp, Hm. Qed.

(** C14. On a page whose [window.performance] has no [memory], the
    patch makes [navigator.webdriver] answer [false] and installs a heap
    descriptor whose total size is a whole number of MiB between 50 and
    149, whose used size is a whole number of MiB between 0 and 49, whose
    limit is 200 MiB, so that [used < total <= limit]. *)
Theorem hideBrowserFingerprint_bounds r1 r2 nav :
  random_draw r1 -> random_draw r2 ->
  has_performance nav = true -> memory nav = None ->
  let nav' := hideBrowserFingerprint r1 r2 nav in
  webdriver nav' = false /\
  ∃ m, memory nav' = Some m /\
    (50 * MiB <= totalJSHeapSize m <= 149 * MiB)%Z /\ (totalJSHeapSize m mod MiB = 0)%Z /\
    (0 <= usedJSHeapSize m <= 49 * MiB)%Z /\ (usedJSHeapSize m mod MiB = 0)%Z /\
    jsHeapSizeLimit m = (200 * MiB)%Z /\
    (usedJSHeapSize m < totalJSHeapSize m <= jsHeapSizeLimit m)%Z.
Proof.
  intros H1 H2 Hp Hm nav'. subst nav'. rewrite hideBrowserFingerprint_installs by done.
  split; [done|]. eexists; split; [reflexivity|]. cbn [totalJSHeapSize usedJSHeapSize jsHeapSizeLimit fake_memory].
  pose proof (total_draw_bounds r1 H1). pose proof (used_draw_bounds r2 H2). unfold MiB.
  repeat split; try lia; rewrite <- Z.mul_assoc; apply Z.mod_mul; lia.
Qed.

(** C15. The patch is idempotent: applied a second time, with any
    draws, it changes nothing; in particular an installed heap
    descriptor, and one the page had before, are never replaced. *)
Theorem hideBrowserFingerprint_idempotent r1 r2 r3 r4 nav :
  hideBrowserFingerprint r3 r4 (hideBrowserFingerprint r1 r2 nav) = hideBrowserFingerprint r1 r2 nav.
Proof.
  unfold hideBrowserFingerprint.
  destruct (has_performance nav), (memory nav) as [m|]; simpl; reflexivity.
Qed.

Lemma hideBrowserFingerprint_bounds_witness :
  let nav := {| webdriver := true; has_performance := true; memory := None |} in
  random_draw (1#2) /\ random_draw (99#100) /\
  ∃ m, memory (hideBrowserFingerprint (1#2) (99#100) nav) = Some m /\
    (usedJSHeapSize m < totalJSHeapSize m <= jsHeapSizeLimit m)%Z.
Proof.
  assert (H1 : random_draw (1#2)) by (unfold random_draw; lra).
  assert (H2 : random_draw (99#100)) by (unfold random_draw; lra).
  split; [exact H1|]. split; [exact H2|].
  destruct (hideBrowserFingerprint_bounds (1#2) (99#100)
              {| webdriver := true; has_performance := true; memory := None |} H1 H2 eq_refl eq_refl)
    as (_ & m & Hm & _ & _ & _ & _ & _ & Hlt).
  exists m. split; [exact Hm|exact Hlt].
Defined.

End Fingerprint.
