(* ===== verification/Host.v ===== *)
(** * The host event loop the preload script runs on

    The two controllers of [src/preload.js] defer work through the
    browser: [PageScaler] with [setTimeout]/[clearTimeout], [AdBlocker]
    with [requestAnimationFrame]/[cancelAnimationFrame].  A [Queue] holds
    the pending callbacks of one of these facilities with the handle the
    call returned; handles are allocated in increasing order and a cancel
    with a stale or null handle does nothing, as in the browser.

    [replace_slot] is the pattern both controllers use: cancel the
    handle held in a field, schedule anew and keep the new handle.  Its
    invariant ([slot_inv]: every pending entry is the one the field
    names) gives "at most one pending unit of work per controller".

    [Page] gathers what the two controllers share: the document, the
    viewport, the clock, the two queues and the console. *)

From S2P Require Import Prelude Dom Scale.

Section Queue.
Context {Cb : Type}.

Record Queue := { q_next : nat; q_pending : list (nat * Cb) }.

Definition q_empty : Queue := {| q_next := 1; q_pending := [] |}.

(** [setTimeout] / [requestAnimationFrame]: a fresh handle. *)
Definition q_schedule (cb : Cb) (q : Queue) : nat * Queue :=
  (q_next q, {| q_next := S (q_next q); q_pending := q_pending q ++ [(q_next q, cb)] |}).

(** [clearTimeout(h)] / [cancelAnimationFrame(h)]; [None] is [null]. *)
Definition q_cancel (h : option nat) (q : Queue) : Queue :=
  match h with
  | None => q
  | Some i => {| q_next := q_next q; q_pending := filter (fun e => e.1 ≠ i) (q_pending q) |}
  end.

(** [clearTimeout(this.slot); this.slot = setTimeout(cb, ...)]. *)
Definition replace_slot (slot : option nat) (cb : Cb) (q : Queue) : option nat * Queue :=
  let '(h, q') := q_schedule cb (q_cancel slot q) in (Some h, q').

(** Handles are distinct and below the next one to be allocated. *)
Definition q_wf (q : Queue) : Prop :=
  NoDup (q_pending q).*1 /\ Forall (fun h => h < q_next q) (q_pending q).*1.

(** Every pending callback is the one whose handle the slot holds. *)
Definition slot_inv (slot : option nat) (q : Queue) : Prop :=
  Forall (fun e => slot = Some e.1) (q_pending q).

Lemma q_empty_wf : q_wf q_empty.
Proof. split; constructor. Qed.

(** Dropping pending entries (a cancel, the callbacks a tick runs, a
    frame that runs them all) keeps a queue well formed and its slot
    invariant. *)
Lemma q_filter_wf (P : nat * Cb -> Prop) `{∀ e, Decision (P e)} q :
  q_wf q -> q_wf {| q_next := q_next q; q_pending := filter P (q_pending q) |}.
Proof.
  intros [Hnd Hlt]. split; simpl; [by apply NoDup_fmap_filter|].
  apply Forall_forall. intros h Hh%elem_of_fmap_filter.
  by apply Forall_forall with (x := h) in Hlt.
Qed.

Lemma slot_filter_inv (P : nat * Cb -> Prop) `{∀ e, Decision (P e)} slot q :
  slot_inv slot q -> slot_inv slot {| q_next := q_next q; q_pending := filter P (q_pending q) |}.
Proof.
  unfold slot_inv. rewrite !Forall_forall. intros Hinv e He%list_elem_of_filter. apply Hinv, He.
Qed.

Lemma q_clear_wf q : q_wf {| q_next := q_next q; q_pending := [] |}.
Proof. split; constructor. Qed.

Lemma slot_clear_inv slot q : slot_inv slot {| q_next := q_next q; q_pending := [] |}.
Proof. constructor. Qed.

Lemma q_cancel_wf h q : q_wf q -> q_wf (q_cancel h q).
Proof. intros Hwf. destruct h as [i|]; [|exact Hwf]. by apply q_filter_wf. Qed.

Lemma q_schedule_wf cb q : q_wf q -> q_wf (q_schedule cb q).2.
Proof.
  intros [Hnd Hlt]. split; simpl; rewrite fmap_app; simpl.
  - apply NoDup_snoc; [|done]. intros Hin.
    apply Forall_forall with (x := q_next q) in Hlt; [lia|done].
  - apply Forall_app. split; [|constructor; [lia|constructor]].
    eapply Forall_impl; [exact Hlt|]. simpl. lia.
Qed.

Lemma q_cancel_slot_empty i q :
  slot_inv (Some i) q -> q_pending (q_cancel (Some i) q) = [].
Proof.
  unfold slot_inv. simpl. induction (q_pending q) as [|e l IH]; [done|].
  intros Hall. apply Forall_cons in Hall as [He Hall]. injection He as ->.
  rewrite filter_cons_False by (intros H; by apply H). by apply IH.
Qed.

Lemma q_cancel_none_empty q : slot_inv None q -> q_pending q = [].
Proof.
  unfold slot_inv. destruct (q_pending q) as [|e l]; [done|].
  intros Hall. apply Forall_cons in Hall as [He _]. discriminate.
Qed.

(** After [replace_slot], exactly the new callback is pending, under the
    handle now held by the slot. *)
Lemma replace_slot_single slot cb q :
  slot_inv slot q ->
  q_pending (replace_slot slot cb q).2 = [(q_next q, cb)] /\
  (replace_slot slot cb q).1 = Some (q_next q).
Proof.
  intros Hinv. unfold replace_slot. destruct slot as [i|].
  - pose proof (q_cancel_slot_empty i q Hinv) as E. simpl in E |- *. by rewrite E.
  - pose proof (q_cancel_none_empty q Hinv) as E. simpl. by rewrite E.
Qed.

Lemma replace_slot_inv slot cb q :
  slot_inv slot q -> slot_inv (replace_slot slot cb q).1 (replace_slot slot cb q).2.
Proof.
  intros Hinv. destruct (replace_slot_single slot cb q Hinv) as [Hp Hs].
  unfold slot_inv. rewrite Hp, Hs. by repeat constructor.
Qed.

Lemma replace_slot_wf slot cb q : q_wf q -> q_wf (replace_slot slot cb q).2.
Proof.
  intros Hwf. unfold replace_slot. apply q_schedule_wf, q_cancel_wf, Hwf.
Qed.

(** Under the slot invariant, at most one callback is pending. *)
Lemma slot_inv_at_most_one slot q :
  q_wf q -> slot_inv slot q -> length (q_pending q) <= 1.
Proof.
  intros [Hnd _] Hinv. unfold slot_inv in Hinv.
  destruct (q_pending q) as [|e1 [|e2 l]]; simpl; [lia|lia|].
  apply Forall_cons in Hinv as [H1 Hinv]. apply Forall_cons in Hinv as [H2 _].
  rewrite H1 in H2. injection H2 as H2. simpl in Hnd.
  apply NoDup_cons in Hnd as [Hn _]. exfalso. apply Hn. rewrite H2. left.
Qed.

End Queue.

Arguments Queue : clear implicits.

#[export] Hint Resolve q_filter_wf slot_filter_inv q_clear_wf slot_clear_inv q_empty_wf q_cancel_wf q_schedule_wf replace_slot_wf replace_slot_inv : electron.

(** ** The closures the controllers hand to the host

    [setTimeout(applyScale, RESIZE_DELAY)] in [PageScaler.setupScaling]
    and [requestAnimationFrame(this.hideAds)] in [AdBlocker.debounceHide]
    are the only deferred callbacks of the script.  A timer entry also
    records its deadline. *)
Inductive TimerCb := CbApplyScale.
Inductive FrameCb := CbHideAds.

(** ** The console: the observability channel of the spec *)
Inductive LogEntry :=
  | LogScalingEnabled                 (** "页面自适应缩放已启用" *)
  | LogBlockerInit                    (** "广告拦截器已初始化" *)
  | LogBlocked (n : nat)              (** "已拦截广告元素:", el *)
  | LogBlockerError                   (** console.error "广告拦截器错误:" *)
  | LogSelectorAdded (s : string)     (** "已添加广告选择器: ..." *)
  | LogSelectorRemoved (s : string).  (** "已移除广告选择器: ..." *)

(** What the page shares between the two controllers. *)
Record Page := {
  pg_doc : Doc;
  pg_viewport : Scaling.Viewport;
  pg_now : nat;
  pg_timers : Queue (nat * TimerCb);
  pg_frames : Queue FrameCb;
  pg_log : list LogEntry
}.

Definition pg_set_doc (d : Doc) (pg : Page) : Page :=
  {| pg_doc := d; pg_viewport := pg_viewport pg; pg_now := pg_now pg; pg_timers := pg_timers pg;
     pg_frames := pg_frames pg; pg_log := pg_log pg |}.

Definition pg_set_timers (q : Queue (nat * TimerCb)) (pg : Page) : Page :=
  {| pg_doc := pg_doc pg; pg_viewport := pg_viewport pg; pg_now := pg_now pg; pg_timers := q;
     pg_frames := pg_frames pg; pg_log := pg_log pg |}.

Definition pg_set_frames (q : Queue FrameCb) (pg : Page) : Page :=
  {| pg_doc := pg_doc pg; pg_viewport := pg_viewport pg; pg_now := pg_now pg; pg_timers := pg_timers pg;
     pg_frames := q; pg_log := pg_log pg |}.

Definition pg_set_now (t : nat) (pg : Page) : Page :=
  {| pg_doc := pg_doc pg; pg_viewport := pg_viewport pg; pg_now := t; pg_timers := pg_timers pg;
     pg_frames := pg_frames pg; pg_log := pg_log pg |}.

(** [console.log] / [console.error]. *)
Definition log (e : LogEntry) : St Page unit :=
  st_modify (fun pg => {| pg_doc := pg_doc pg; pg_viewport := pg_viewport pg; pg_now := pg_now pg; pg_timers := pg_timers pg;
                          pg_frames := pg_frames pg; pg_log := pg_log pg ++ [e] |}).

Definition modify_doc (f : Doc -> Doc) : St Page unit :=
  st_modify (fun pg => pg_set_doc (f (pg_doc pg)) pg).

(** A window resize: the document element's client size changes. *)
Definition pg_set_viewport (vp : Scaling.Viewport) (pg : Page) : Page :=
  {| pg_doc := pg_doc pg; pg_viewport := vp; pg_now := pg_now pg; pg_timers := pg_timers pg;
     pg_frames := pg_frames pg; pg_log := pg_log pg |}.

(** ** What leaves the queues alone *)

Definition queues (pg : Page) : Queue (nat * TimerCb) * Queue FrameCb := (pg_timers pg, pg_frames pg).

Lemma keeps_log e : keeps queues (log e).
Proof. unfold log. keeps_walk. Qed.

Lemma keeps_modify_doc f : keeps queues (modify_doc f).
Proof. unfold modify_doc. keeps_walk. Qed.

Lemma keeps_queues_timers {A} (m : St Page A) pg : keeps queues m -> pg_timers (exec m pg) = pg_timers pg.
Proof. intros Hk. specialize (Hk pg). by injection Hk. Qed.

Lemma keeps_queues_frames {A} (m : St Page A) pg : keeps queues m -> pg_frames (exec m pg) = pg_frames pg.
Proof. intros Hk. specialize (Hk pg). by injection Hk. Qed.

#[export] Hint Resolve keeps_log keeps_modify_doc : electron.

