(* ===== verification/AdBlocker.v ===== *)
(** * [AdBlocker] (src/preload.js, lines 98-146)

    The object's fields are [selectors] (a JS [Set] of strings, kept here
    as a duplicate-free list in insertion order, which fixes the order of
    the joined query), [frameId] (the last [requestAnimationFrame]
    handle, [null] at first) and [observer] (connected or not).  Every
    method is a computation over the object and the page it reaches
    ([St (AdBlocker * Page)]), in the order of the source statements.

    The theorems show: the set never holds a duplicate; [add] of a
    present or empty selector changes nothing (no second scan is
    scheduled); [add] of a fresh one schedules exactly one frame; a scan
    hides exactly the attached nodes the selectors match and logs each
    newly hidden node once; a second scan changes nothing; one malformed
    selector makes the whole batched query throw, so the scan hides
    nothing at all; [remove] never shows a node again. *)

From S2P Require Import Prelude Config Dom Scale Host.
From stdpp Require Import gmap.

Module AdBlocker.

Record AdBlocker := {
  selectors : list string;
  frameId : option nat;
  observer : bool
}.

Definition set_selectors (l : list string) (ab : AdBlocker) : AdBlocker :=
  {| selectors := l; frameId := frameId ab; observer := observer ab |}.
Definition set_frameId (h : option nat) (ab : AdBlocker) : AdBlocker :=
  {| selectors := selectors ab; frameId := h; observer := observer ab |}.
Definition set_observer (b : bool) (ab : AdBlocker) : AdBlocker :=
  {| selectors := selectors ab; frameId := frameId ab; observer := b |}.

Abbreviation M := (St (AdBlocker * Page)).

(** [new Set(selectors)]: the first occurrence of each string, in
    order. *)
Definition set_of_list (l : list string) : list string :=
  foldl (fun (acc : list string) s => if decide (s ∈ acc) then acc else (acc ++ [s])%list) [] l.

Section WithEngine.
Context `{SelectorEngine}.

(** The [forEach] body of [hideAds]: hide the node unless it is
    hidden already, and log it. *)
Definition hide_el (n : nat) : St Page unit :=
  pg ← st_get;
  if node_hidden (pg_doc pg) n then mret tt
  else modify_doc (fun d => assign_node_style d n hide_props) ;; log (LogBlocked n).

(** [hideAds]: nothing for an empty set; otherwise one query for the
    comma-joined selectors, whose failure is caught and logged. *)
Definition hideAds : M unit :=
  ab ← this_get;
  if decide (selectors ab = []) then mret tt
  else on_env (
    pg ← st_get;
    match query_selector_all (pg_doc pg) (join_comma (selectors ab)) with
    | Some ns => st_iter hide_el ns
    | None => log LogBlockerError
    end).

End WithEngine.

(** [debounceHide]: cancel the pending frame, request a new one. *)
Definition debounceHide : M unit :=
  ab ← this_get;
  pg ← on_env st_get;
  let '(h, q) := replace_slot (frameId ab) CbHideAds (pg_frames pg) in
  this_put (set_frameId h ab) ;;
  on_env (st_put (pg_set_frames q pg)).

(** [init]: a first scan is scheduled, then the observer is connected
    (its callback is [debounceHide]; delivery is modelled in
    [Preload]). *)
Definition init : M unit :=
  debounceHide ;;
  ab ← this_get;
  this_put (set_observer true ab) ;;
  on_env (log LogBlockerInit).

(** [constructor(selectors = [])]. *)
Definition construct (sels : list string) : St Page AdBlocker :=
  fun pg =>
    let ab0 := {| selectors := set_of_list sels; frameId := None; observer := false |} in
    let '(_, (ab, pg')) := init (ab0, pg) in (ab, pg').

(** [add(selector)]: a truthy selector not yet present is inserted,
    logged, and a scan requested. *)
Definition add (selector : string) : M unit :=
  ab ← this_get;
  if decide (selector ≠ ""%string /\ selector ∉ selectors ab) then
    this_put (set_selectors (selectors ab ++ [selector])%list ab) ;;
    on_env (log (LogSelectorAdded selector)) ;;
    debounceHide
  else mret tt.

(** [remove(selector)]: [Set.prototype.delete] answers whether the
    selector was present; only then is the removal logged. *)
Definition remove (selector : string) : M unit :=
  ab ← this_get;
  if decide (selector ∈ selectors ab) then
    this_put (set_selectors (filter (fun s => s ≠ selector) (selectors ab)) ab) ;;
    on_env (log (LogSelectorRemoved selector))
  else mret tt.

(** The blocker's invariant over the frame queue: the only pending frame
    is the one [frameId] names, the queue is well formed, the set holds
    each selector once and never the empty string. *)
Definition blocker_inv (ab : AdBlocker) (fq : Queue FrameCb) : Prop :=
  slot_inv (frameId ab) fq /\ q_wf fq /\ NoDup (selectors ab) /\ ""%string ∉ selectors ab.

Definition method_ok {A} (m : M A) : Prop :=
  ∀ ab pg, blocker_inv ab (pg_frames pg) ->
  let s := exec m (ab, pg) in
  blocker_inv s.1 (pg_frames s.2) /\ pg_timers s.2 = pg_timers pg.

(** ** Concrete pages for the witnesses

    [demo_doc] is the page of the spec's scenario: [#player], two [div]
    siblings after it, a [div.toc-container] and a [span#new-ad]. *)
Definition demo_el (tag id : string) (classes : list string) : Element :=
  {| el_tag := tag; el_id := id; el_classes := classes; el_style := ∅ |}.

Definition demo_doc : Doc :=
  {| doc_nodes := list_to_map [(1, demo_el "div" "player" []); (2, demo_el "div" "" []);
                               (3, demo_el "div" "" []); (4, demo_el "div" "" ["toc-container"]);
                               (5, demo_el "span" "new-ad" [])];
     doc_tree := [1; 2; 3; 4; 5]; doc_root_style := ∅; doc_body_style := ∅ |}%string.

Definition demo_viewport : Scaling.Viewport :=
  {| Scaling.clientWidth := 1000; Scaling.clientHeight := 540 |}.

Definition demo_scan_page : Page :=
  {| pg_doc := demo_doc; pg_viewport := demo_viewport; pg_now := 0; pg_timers := q_empty; pg_frames := q_empty; pg_log := [] |}.

Definition demo_default_blocker : AdBlocker :=
  {| selectors := Preload.AD_SELECTORS; frameId := None; observer := true |}.

(** A page with one hidden [div.toc-container], for the witnesses. *)
Definition demo_hidden_el : Element :=
  {| el_tag := "div"; el_id := ""; el_classes := ["toc-container"];
     el_style := {["display" := SStr "none"]} |}%string.

Definition demo_page : Page :=
  {| pg_doc := {| doc_nodes := {[1 := demo_hidden_el]}; doc_tree := [1];
                  doc_root_style := ∅; doc_body_style := ∅ |};
     pg_viewport := demo_viewport; pg_now := 0; pg_timers := q_empty; pg_frames := q_empty; pg_log := [] |}.

Definition demo_blocker : AdBlocker :=
  {| selectors := ["div.toc-container"]%string; frameId := None; observer := true |}.


(** ** The set of selectors *)

Lemma set_of_list_acc_NoDup (acc l : list string) :
  NoDup acc ->
  NoDup (foldl (fun (acc : list string) s => if decide (s ∈ acc) then acc else (acc ++ [s])%list) acc l).
Proof.
  revert acc. induction l as [|x l IH]; intros acc Hacc; [done|]. simpl.
  apply IH. case_decide; auto with electron.
Qed.

Lemma set_of_list_NoDup l : NoDup (set_of_list l).
Proof. apply set_of_list_acc_NoDup. constructor. Qed.

(** ** Hiding nodes one by one *)

Section Hide.
Context `{SelectorEngine}.

Lemma exec_hide_el_hidden n pg :
  node_hidden (pg_doc pg) n = true -> exec (hide_el n) pg = pg.
Proof. intros Hh. unfold hide_el, exec. rewrite st_get_bind, Hh. done. Qed.

Lemma exec_hide_el_visible n pg :
  node_hidden (pg_doc pg) n = false ->
  exec (hide_el n) pg =
    {| pg_doc := assign_node_style (pg_doc pg) n hide_props; pg_viewport := pg_viewport pg;
       pg_now := pg_now pg;
       pg_timers := pg_timers pg; pg_frames := pg_frames pg;
       pg_log := pg_log pg ++ [LogBlocked n] |}.
Proof. intros Hh. unfold hide_el, exec. rewrite st_get_bind, Hh. done. Qed.

Lemma iter_hide_noop ns pg :
  Forall (fun n => node_hidden (pg_doc pg) n = true) ns -> exec (st_iter hide_el ns) pg = pg.
Proof.
  induction ns as [|n ns IH]; intros Hall; [done|].
  apply Forall_cons in Hall as [Hn Hall].
  rewrite exec_iter_cons, exec_hide_el_hidden by done. by apply IH.
Qed.

(** Hiding a list of distinct nodes: a node is hidden afterwards iff
    it was before or it is a stored node of the list; each node not
    hidden before is logged once, in list order; the page keeps its
    shape, clock and queues. *)
Lemma iter_hide_spec ns pg :
  NoDup ns ->
  let pg' := exec (st_iter hide_el ns) pg in
  (∀ n, node_hidden (pg_doc pg') n =
          node_hidden (pg_doc pg) n || bool_decide (n ∈ ns /\ is_Some (doc_nodes (pg_doc pg) !! n))) /\
  pg_log pg' = pg_log pg ++ (LogBlocked <$> filter (fun n => node_hidden (pg_doc pg) n = false) ns) /\
  doc_shape_eq (pg_doc pg') (pg_doc pg) /\
  pg_now pg' = pg_now pg /\ pg_timers pg' = pg_timers pg /\ pg_frames pg' = pg_frames pg.
Proof.
  revert pg. induction ns as [|n ns IH]; intros pg Hnd.
  - cbn [st_iter]. rewrite exec_ret, filter_nil, fmap_nil, app_nil_r.
    split; [intros m; by rewrite bool_decide_false, orb_false_r by set_solver|].
    split; [done|]. split; [reflexivity|done].
  - apply NoDup_cons in Hnd as [Hn Hnd]. rewrite exec_iter_cons.
    destruct (node_hidden (pg_doc pg) n) eqn:Ehn.
    + rewrite exec_hide_el_hidden by done.
      destruct (IH pg Hnd) as (Hh & Hl & Hs & Ht). split; [|split; [|done]].
      * intros m. rewrite Hh. destruct (decide (m = n)) as [->|Hmn].
        { by rewrite Ehn. }
        f_equal. apply bool_decide_ext. set_solver.
      * rewrite Hl, filter_cons_False by congruence. done.
    + rewrite exec_hide_el_visible by done.
      match goal with |- context [exec (st_iter hide_el ns) ?p] => destruct (IH p Hnd) as (Hh & Hl & Hs & Ht) end.
      cbn [pg_doc pg_log pg_now pg_timers pg_frames] in *.
      split; [|split; [|split]].
      * intros m. rewrite Hh, node_hidden_assign_display.
        pose proof (shape_eq_is_Some _ _ m (assign_node_style_shape (pg_doc pg) n hide_props)) as Hs'.
        destruct (decide (m = n)) as [->|Hmn].
        { rewrite Ehn, (bool_decide_false (n ∈ ns ∧ _)) by set_solver.
          rewrite orb_false_r. simpl. apply bool_decide_ext. set_solver. }
        f_equal. apply bool_decide_ext. rewrite Hs'. set_solver.
      * rewrite Hl, filter_cons_True by done. rewrite <- app_assoc. f_equal.
        rewrite fmap_cons. f_equal. f_equal. apply list_filter_ext_in.
        intros m Hm. rewrite node_hidden_assign_display.
        rewrite decide_False by set_solver. done.
      * rewrite Hs. apply assign_node_style_shape.
      * done.
Qed.

Lemma exec_hideAds_empty ab pg : selectors ab = [] -> exec hideAds (ab, pg) = (ab, pg).
Proof. intros He. unfold hideAds, exec. rewrite st_bind_unfold. simpl. by rewrite decide_True. Qed.

Lemma exec_hideAds_query ab pg ns :
  selectors ab ≠ [] ->
  query_selector_all (pg_doc pg) (join_comma (selectors ab)) = Some ns ->
  exec hideAds (ab, pg) = (ab, exec (st_iter hide_el ns) pg).
Proof.
  intros He Hq. unfold hideAds. rewrite exec_bind, eval_this_get, exec_this_get.
  rewrite decide_False by done. rewrite exec_on_env, exec_bind, eval_st_get, exec_st_get, Hq.
  done.
Qed.

Lemma exec_hideAds_error ab pg :
  selectors ab ≠ [] ->
  query_selector_all (pg_doc pg) (join_comma (selectors ab)) = None ->
  exec hideAds (ab, pg) = (ab, exec (log LogBlockerError) pg).
Proof.
  intros He Hq. unfold hideAds. rewrite exec_bind, eval_this_get, exec_this_get.
  rewrite decide_False by done. rewrite exec_on_env, exec_bind, eval_st_get, exec_st_get, Hq.
  done.
Qed.

Lemma keeps_hide_el n : keeps queues (hide_el n).
Proof. unfold hide_el. keeps_walk. Qed.

#[local] Hint Resolve keeps_hide_el : electron.

(** A scan changes neither the object nor the queues. *)
Lemma exec_hideAds_keeps ab pg :
  (exec hideAds (ab, pg)).1 = ab /\ queues (exec hideAds (ab, pg)).2 = queues pg.
Proof.
  destruct (decide (selectors ab = [])) as [He|He]; [by rewrite exec_hideAds_empty|].
  destruct (query_selector_all (pg_doc pg) (join_comma (selectors ab))) as [ns|] eqn:Hq.
  - rewrite (exec_hideAds_query _ _ ns) by done. split; [done|]. apply keeps_iter; auto with electron.
  - rewrite exec_hideAds_error by done. split; [done|]. apply keeps_log.
Qed.

Lemma query_NoDup d q ns : doc_wf d -> query_selector_all d q = Some ns -> NoDup ns.
Proof.
  intros [Hnd _]. unfold query_selector_all. case_match; [|done]. intros [= <-].
  by apply NoDup_filter.
Qed.

Lemma hide_el_monotone n pg m :
  node_hidden (pg_doc pg) m = true -> node_hidden (pg_doc (exec (hide_el n) pg)) m = true.
Proof.
  intros Hm. destruct (node_hidden (pg_doc pg) n) eqn:En.
  - by rewrite exec_hide_el_hidden.
  - rewrite exec_hide_el_visible by done. simpl. rewrite node_hidden_assign_display.
    case_decide; [subst; congruence|done].
Qed.

Lemma iter_hide_monotone ns pg m :
  node_hidden (pg_doc pg) m = true ->
  node_hidden (pg_doc (exec (st_iter hide_el ns) pg)) m = true.
Proof.
  revert pg. induction ns as [|n ns IH]; intros pg Hm; [done|].
  rewrite exec_iter_cons. by apply IH, hide_el_monotone.
Qed.

(** Hidden nodes stay hidden through a scan. *)
Lemma hideAds_monotone ab pg n :
  node_hidden (pg_doc pg) n = true -> node_hidden (pg_doc (exec hideAds (ab, pg)).2) n = true.
Proof.
  intros Hh. destruct (decide (selectors ab = [])) as [He|He].
  { by rewrite exec_hideAds_empty. }
  destruct (query_selector_all (pg_doc pg) (join_comma (selectors ab))) as [ns|] eqn:Hq.
  - rewrite (exec_hideAds_query _ _ ns) by done. by apply iter_hide_monotone.
  - by rewrite exec_hideAds_error.
Qed.

End Hide.

Section Scan.
Context `{SelectorEngine}.

(** What one scan does when every selector is comma-free and valid. *)
Lemma hideAds_spec ab pg :
  doc_wf (pg_doc pg) ->
  selectors ab ≠ [] ->
  Forall no_comma (selectors ab) ->
  Forall (fun s => complex_valid s = true) (selectors ab) ->
  let d := pg_doc pg in
  let matched n := existsb (fun s => complex_matches s d n) (selectors ab) in
  let s' := exec hideAds (ab, pg) in
  s'.1 = ab /\
  (∀ n, node_hidden (pg_doc s'.2) n = true <->
        node_hidden d n = true \/ (n ∈ doc_tree d /\ matched n = true)) /\
  pg_log s'.2 =
    pg_log pg ++ (LogBlocked <$> filter (fun n => node_hidden d n = false /\ matched n = true)
                                       (doc_tree d)).
Proof.
  intros Hwf Hne Hnc Hv d matched s'.
  pose proof (query_join_valid d _ Hne Hnc Hv) as Hq.
  subst s'. rewrite (exec_hideAds_query _ _ _ Hne Hq). simpl.
  destruct (iter_hide_spec _ pg (query_NoDup _ _ _ Hwf Hq)) as (Hh & Hl & _).
  split; [done|]. split.
  - intros n. rewrite Hh, orb_true_iff, bool_decide_eq_true, list_elem_of_filter.
    destruct Hwf as [_ Hall]. rewrite Forall_forall in Hall.
    split; intros [?|?]; try (by left); right; naive_solver.
  - rewrite Hl. f_equal. f_equal. by rewrite list_filter_filter.
Qed.

(** C4. When every selector of the set is comma-free and valid, a scan
    ([hideAds]) leaves the blocker as it is, hides exactly the attached
    nodes matched by some selector (and keeps hidden what was hidden),
    and logs each newly hidden node once, in document order. *)
Theorem hideAds_hides_exactly_matches ab pg :
  doc_wf (pg_doc pg) ->
  selectors ab ≠ [] ->
  Forall no_comma (selectors ab) ->
  Forall (fun s => complex_valid s = true) (selectors ab) ->
  let d := pg_doc pg in
  let matched n := existsb (fun s => complex_matches s d n) (selectors ab) in
  let s' := exec hideAds (ab, pg) in
  s'.1 = ab /\
  (∀ n, node_hidden (pg_doc s'.2) n = true <->
        node_hidden d n = true \/ (n ∈ doc_tree d /\ matched n = true)) /\
  pg_log s'.2 =
    pg_log pg ++ (LogBlocked <$> filter (fun n => node_hidden d n = false /\ matched n = true)
                                       (doc_tree d)).
Proof. exact (hideAds_spec ab pg). Qed.

(** C5. Scanning twice in a row hides nothing more the second time:
    the second scan leaves blocker and page exactly as the first left
    them, except that when the batched query throws it logs the same
    error again. *)
Theorem hideAds_idempotent `{!SelectorEngineLaws} ab pg :
  doc_wf (pg_doc pg) ->
  let s1 := exec hideAds (ab, pg) in
  exec hideAds s1 = s1 \/
  (query_selector_all (pg_doc pg) (join_comma (selectors ab)) = None /\
   exec hideAds s1 = (ab, exec (log LogBlockerError) s1.2)).
Proof.
  intros Hwf s1. subst s1.
  destruct (decide (selectors ab = [])) as [He|He].
  { left. by rewrite !exec_hideAds_empty. }
  destruct (query_selector_all (pg_doc pg) (join_comma (selectors ab))) as [ns|] eqn:Hq.
  - left. rewrite (exec_hideAds_query _ _ _ He Hq).
    destruct (iter_hide_spec _ pg (query_NoDup _ _ _ Hwf Hq)) as (Hh & _ & Hs & _).
    rewrite (exec_hideAds_query _ _ ns He); [|by rewrite (query_selector_all_shape _ _ _ Hs)].
    f_equal. apply iter_hide_noop. apply Forall_forall. intros n Hn.
    rewrite Hh, bool_decide_true; [apply orb_true_r|]. split; [done|].
    destruct Hwf as [_ Hall]. rewrite Forall_forall in Hall. apply Hall.
    by apply (query_selector_all_sub _ _ _ Hq).
  - right. split; [done|]. rewrite exec_hideAds_error by done. simpl.
    by rewrite exec_hideAds_error.
Qed.

(** C6. One malformed selector in the set makes the single batched
    query throw: the scan catches and logs the error and hides nothing,
    not even the nodes the other, valid selectors match. *)
Theorem hideAds_malformed_selector_hides_nothing ab pg s :
  s ∈ selectors ab -> no_comma s -> complex_valid s = false ->
  exec hideAds (ab, pg) = (ab, exec (log LogBlockerError) pg).
Proof.
  intros Hin Hnc Hv. apply exec_hideAds_error.
  - intros He. rewrite He in Hin. by apply elem_of_nil in Hin.
  - by apply (query_join_invalid _ _ s).
Qed.

End Scan.

Lemma hideAds_hides_exactly_matches_witness :
  doc_wf (pg_doc demo_scan_page) /\ selectors demo_default_blocker ≠ [] /\
  Forall no_comma (selectors demo_default_blocker) /\
  Forall (fun s => @complex_valid SimpleEngine.engine s = true) (selectors demo_default_blocker) /\
  node_hidden (pg_doc (@exec _ unit (@hideAds SimpleEngine.engine)
                         (demo_default_blocker, demo_scan_page)).2) 3 = true /\
  node_hidden (pg_doc (@exec _ unit (@hideAds SimpleEngine.engine)
                         (demo_default_blocker, demo_scan_page)).2) 5 = false.
Proof.
  assert (Hwf : doc_wf (pg_doc demo_scan_page))
    by (split; apply (bool_decide_unpack _); vm_compute; reflexivity).
  assert (Hne : selectors demo_default_blocker ≠ []) by discriminate.
  assert (Hnc : Forall no_comma (selectors demo_default_blocker))
    by (apply (bool_decide_unpack _); vm_compute; reflexivity).
  assert (Hv : Forall (fun s => @complex_valid SimpleEngine.engine s = true)
                      (selectors demo_default_blocker))
    by (apply (bool_decide_unpack _); vm_compute; reflexivity).
  pose proof (@hideAds_hides_exactly_matches SimpleEngine.engine _ _ Hwf Hne Hnc Hv)
    as (_ & Hiff & _).
  split; [exact Hwf|]. split; [exact Hne|]. split; [exact Hnc|]. split; [exact Hv|].
  split.
  - apply (proj2 (Hiff 3)). right.
    split; [apply (bool_decide_unpack _); vm_compute; reflexivity|vm_compute; reflexivity].
  - destruct (node_hidden _ 5) eqn:E; [|reflexivity]. exfalso.
    apply (proj1 (Hiff 5)) in E as [E|[_ E]]; vm_compute in E; discriminate.
Defined.

Lemma hideAds_idempotent_witness :
  doc_wf (pg_doc demo_scan_page) /\
  (let s1 := @exec _ unit (@hideAds SimpleEngine.engine) (demo_default_blocker, demo_scan_page) in
   @exec _ unit (@hideAds SimpleEngine.engine) s1 = s1).
Proof.
  assert (Hwf : doc_wf (pg_doc demo_scan_page))
    by (split; apply (bool_decide_unpack _); vm_compute; reflexivity).
  split; [exact Hwf|].
  destruct (@hideAds_idempotent SimpleEngine.engine SimpleEngine.engine_laws
              demo_default_blocker demo_scan_page Hwf)
    as [E|[Hq _]]; [exact E|].
  vm_compute in Hq. discriminate.
Defined.

(** The spec's malformed-selector scenario: the default selectors plus
    ["##"]; the [div.toc-container] the defaults match stays visible. *)
Lemma hideAds_malformed_selector_hides_nothing_witness :
  let ab := {| selectors := Preload.AD_SELECTORS ++ ["##"%string]; frameId := None;
               observer := true |} in
  ("##"%string ∈ selectors ab) /\ no_comma "##" /\
  @complex_valid SimpleEngine.engine "##" = false /\
  node_hidden (pg_doc (@exec _ unit (@hideAds SimpleEngine.engine) (ab, demo_scan_page)).2) 4 = false.
Proof.
  intros ab.
  assert (Hin : "##"%string ∈ selectors ab)
    by (apply (bool_decide_unpack _); vm_compute; reflexivity).
  assert (Hnc : no_comma "##") by (apply (bool_decide_unpack _); vm_compute; reflexivity).
  assert (Hv : @complex_valid SimpleEngine.engine "##" = false) by (vm_compute; reflexivity).
  split; [exact Hin|]. split; [exact Hnc|]. split; [exact Hv|].
  rewrite (@hideAds_malformed_selector_hides_nothing SimpleEngine.engine _ _ _ Hin Hnc Hv).
  vm_compute. reflexivity.
Defined.

(** ** Scheduling, [add] and [remove] *)

Lemma exec_debounceHide ab pg :
  exec debounceHide (ab, pg) =
    (set_frameId (replace_slot (frameId ab) CbHideAds (pg_frames pg)).1 ab,
     pg_set_frames (replace_slot (frameId ab) CbHideAds (pg_frames pg)).2 pg).
Proof.
  unfold debounceHide. rewrite exec_bind, eval_this_get, exec_this_get.
  rewrite exec_bind. unfold eval at 1, exec at 2. simpl.
  destruct (replace_slot (frameId ab) CbHideAds (pg_frames pg)) as [h q]. done.
Qed.

Lemma add_noop s ab pg :
  ¬ (s ≠ ""%string /\ s ∉ selectors ab) -> add s (ab, pg) = (tt, (ab, pg)).
Proof. intros Hn. unfold add. rewrite st_bind_unfold. simpl. by rewrite decide_False. Qed.

Lemma exec_add_fresh s ab pg :
  s ≠ ""%string -> s ∉ selectors ab ->
  exec (add s) (ab, pg) =
    exec debounceHide (set_selectors (selectors ab ++ [s]) ab, exec (log (LogSelectorAdded s)) pg).
Proof.
  intros Hs Hn. unfold add. rewrite exec_bind, eval_this_get, exec_this_get.
  rewrite decide_True by done. by rewrite !exec_bind, exec_this_put, exec_on_env.
Qed.

Lemma exec_remove_doc s ab pg : pg_doc (exec (remove s) (ab, pg)).2 = pg_doc pg.
Proof.
  unfold remove. rewrite exec_bind, eval_this_get, exec_this_get.
  case_decide; [|done]. by rewrite exec_bind, exec_this_put, exec_on_env.
Qed.

(** ** Each method keeps the invariant and the timer queue *)

Lemma set_of_list_acc_elem (acc l : list string) x :
  x ∈ foldl (fun (acc : list string) s => if decide (s ∈ acc) then acc else (acc ++ [s])%list) acc l ->
  x ∈ acc \/ x ∈ l.
Proof.
  revert acc. induction l as [|y l IH]; intros acc Hx; [by left|]. simpl in Hx.
  destruct (IH _ Hx) as [Hin|Hin]; [|set_solver]. case_decide; set_solver.
Qed.

Lemma set_of_list_elem l x : x ∈ set_of_list l -> x ∈ l.
Proof. intros Hx. destruct (set_of_list_acc_elem [] l x Hx) as [Hin|Hin]; [set_solver|done]. Qed.

Lemma method_ok_ret {A} (a : A) : method_ok (mret a).
Proof. intros ab pg Hinv. by split. Qed.

Lemma method_ok_bind {A B} (m : M A) (k : A -> M B) :
  method_ok m -> (∀ a, method_ok (k a)) -> method_ok (m ≫= k).
Proof.
  intros Hm Hk ab pg Hinv. cbv zeta. rewrite exec_bind.
  destruct (Hm ab pg Hinv) as [Hinv1 Ht1]. destruct (exec m (ab, pg)) as [ab1 pg1].
  destruct (Hk (eval m (ab, pg)) ab1 pg1 Hinv1) as [Hinv2 Ht2]. simpl in *. split; [done|congruence].
Qed.

Lemma method_ok_iter {X} (g : X -> M unit) xs : (∀ x, method_ok (g x)) -> method_ok (st_iter g xs).
Proof.
  intros Hg. induction xs as [|x xs IH]; [apply method_ok_ret|]. apply method_ok_bind; [done|]. by intros [].
Qed.

Lemma method_ok_this_get : method_ok this_get.
Proof. intros ab pg Hinv. by split. Qed.

#[export] Hint Resolve method_ok_ret method_ok_bind method_ok_iter method_ok_this_get : electron.

Lemma debounceHide_ok : method_ok debounceHide.
Proof.
  intros ab pg (Hsl & Hwf & Hnd & Hne). rewrite exec_debounceHide. simpl.
  split; [|done]. split; [by apply replace_slot_inv|]. split; [by apply replace_slot_wf|done].
Qed.

Lemma add_ok s : method_ok (add s).
Proof.
  intros ab pg Hinv. destruct (decide (s ≠ ""%string /\ s ∉ selectors ab)) as [[Hs Hn]|Hn];
    [|by unfold exec; rewrite add_noop].
  rewrite exec_add_fresh by done. destruct Hinv as (Hsl & Hwf & Hnd & Hne).
  apply (debounceHide_ok (set_selectors (selectors ab ++ [s]) ab) (exec (log (LogSelectorAdded s)) pg)).
  split; [done|]. split; [done|]. simpl. split; [by apply NoDup_snoc|set_solver].
Qed.

Lemma remove_ok s : method_ok (remove s).
Proof.
  intros ab pg Hinv. unfold remove. rewrite exec_bind, eval_this_get, exec_this_get.
  destruct Hinv as (Hsl & Hwf & Hnd & Hne).
  case_decide; [|done]. rewrite exec_bind, exec_this_put, exec_on_env. simpl.
  split; [|done]. split; [done|]. split; [done|]. split; [by apply NoDup_filter_neq|].
  intros Hin%list_elem_of_filter. set_solver.
Qed.

Lemma hideAds_ok `{SelectorEngine} : method_ok hideAds.
Proof.
  intros ab pg Hinv. destruct (exec_hideAds_keeps ab pg) as [Ha Hq].
  destruct (exec hideAds (ab, pg)) as [ab' pg']. simpl in *. subst ab'.
  injection Hq as Ht Hf. by rewrite Hf, Ht.
Qed.

Lemma construct_unfold sels pg :
  construct sels pg =
    ({| selectors := set_of_list sels; frameId := (replace_slot None CbHideAds (pg_frames pg)).1;
        observer := true |},
     exec (log LogBlockerInit) (pg_set_frames (replace_slot None CbHideAds (pg_frames pg)).2 pg)).
Proof.
  unfold construct, init, debounceHide. st_unfold. simpl.
  by destruct (replace_slot None CbHideAds (pg_frames pg)).
Qed.

(** [new AdBlocker(sels)] on a page with no frame pending: the
    invariant holds, one scan is pending, the timers are untouched. *)
Lemma construct_ok sels pg :
  q_pending (pg_frames pg) = [] -> q_wf (pg_frames pg) -> ""%string ∉ sels ->
  let r := construct sels pg in
  blocker_inv r.1 (pg_frames r.2) /\ pg_timers r.2 = pg_timers pg /\
  selectors r.1 = set_of_list sels /\ observer r.1 = true /\
  q_pending (pg_frames r.2) = [(q_next (pg_frames pg), CbHideAds)] /\
  pg_log r.2 = pg_log pg ++ [LogBlockerInit] /\ pg_doc r.2 = pg_doc pg.
Proof.
  intros Hp Hwf Hne. rewrite construct_unfold. cbn -[replace_slot].
  assert (Hinv0 : slot_inv None (pg_frames pg)) by (unfold slot_inv; rewrite Hp; constructor).
  destruct (replace_slot_single None CbHideAds (pg_frames pg) Hinv0) as [Hp1 Hh1].
  split; [|split; [done|split; [done|split; [done|split; [done|done]]]]].
  split; [by apply replace_slot_inv|]. split; [by apply replace_slot_wf|].
  split; [apply set_of_list_NoDup|]. intros Hin%set_of_list_elem. done.
Qed.

(** C7. The set keeps each selector once: adding the same selector
    twice leaves blocker and page exactly as adding it once (the set's
    size is unchanged and no second frame is requested). *)
Theorem add_twice_same_as_once s st :
  exec (add s ;; add s) st = exec (add s) st.
Proof.
  destruct st as [ab pg]. rewrite exec_bind.
  destruct (decide (s ≠ ""%string /\ s ∉ selectors ab)) as [[Hs Hn]|Hn].
  - rewrite exec_add_fresh by done. rewrite exec_debounceHide.
    unfold exec at 1. rewrite add_noop; [done|]. simpl. intros [_ Hn']. apply Hn'.
    apply elem_of_app. right. by left.
  - unfold exec at 2. rewrite add_noop by done. simpl. unfold exec. by rewrite add_noop.
Qed.

(** What [add] does with a new, non-empty selector. *)
Lemma add_fresh_spec s ab pg :
  s ≠ ""%string -> s ∉ selectors ab -> slot_inv (frameId ab) (pg_frames pg) ->
  let s' := exec (add s) (ab, pg) in
  selectors s'.1 = selectors ab ++ [s] /\
  frameId s'.1 = Some (q_next (pg_frames pg)) /\
  q_pending (pg_frames s'.2) = [(q_next (pg_frames pg), CbHideAds)] /\
  pg_log s'.2 = pg_log pg ++ [LogSelectorAdded s] /\
  pg_doc s'.2 = pg_doc pg.
Proof.
  intros Hs Hn Hinv s'. subst s'. rewrite exec_add_fresh, exec_debounceHide by done.
  destruct (replace_slot_single (frameId ab) CbHideAds (pg_frames pg) Hinv) as [Hp Hh].
  change (frameId (set_selectors (selectors ab ++ [s]) ab)) with (frameId ab).
  change (pg_frames (exec (log (LogSelectorAdded s)) pg)) with (pg_frames pg).
  cbn [fst snd selectors frameId set_frameId set_selectors pg_frames pg_set_frames pg_log pg_doc].
  rewrite Hh, Hp. done.
Qed.

(** C8. Adding a new, non-empty selector appends it to the set, logs it,
    and leaves exactly one scan pending, under the handle now held in
    [frameId]; the document is not touched before that frame. *)
Theorem add_fresh_schedules_one_scan s ab pg :
  s ≠ ""%string -> s ∉ selectors ab -> slot_inv (frameId ab) (pg_frames pg) ->
  let s' := exec (add s) (ab, pg) in
  selectors s'.1 = selectors ab ++ [s] /\
  frameId s'.1 = Some (q_next (pg_frames pg)) /\
  q_pending (pg_frames s'.2) = [(q_next (pg_frames pg), CbHideAds)] /\
  pg_log s'.2 = pg_log pg ++ [LogSelectorAdded s] /\
  pg_doc s'.2 = pg_doc pg.
Proof. exact (add_fresh_spec s ab pg). Qed.

Lemma add_fresh_schedules_one_scan_witness :
  let ab := {| selectors := ["div.toc-container"]%string; frameId := None; observer := true |} in
  let pg := {| pg_doc := {| doc_nodes := ∅; doc_tree := []; doc_root_style := ∅; doc_body_style := ∅ |};
               pg_viewport := demo_viewport; pg_now := 0; pg_timers := q_empty; pg_frames := q_empty; pg_log := [] |} in
  ("#new-ad"%string ≠ ""%string) /\ ("#new-ad"%string ∉ selectors ab) /\
  slot_inv (frameId ab) (pg_frames pg) /\
  (let s' := exec (add "#new-ad") (ab, pg) in
   selectors s'.1 = selectors ab ++ ["#new-ad"%string] /\
   frameId s'.1 = Some (q_next (pg_frames pg)) /\
   q_pending (pg_frames s'.2) = [(q_next (pg_frames pg), CbHideAds)] /\
   pg_log s'.2 = pg_log pg ++ [LogSelectorAdded "#new-ad"] /\
   pg_doc s'.2 = pg_doc pg).
Proof.
  intros ab pg.
  assert (H1 : "#new-ad"%string ≠ ""%string) by discriminate.
  assert (H2 : "#new-ad"%string ∉ selectors ab).
  { simpl. rewrite elem_of_cons, elem_of_nil. intros [H|[]]. discriminate. }
  assert (H3 : slot_inv (frameId ab) (pg_frames pg)) by constructor.
  split; [exact H1|]. split; [exact H2|]. split; [exact H3|].
  exact (add_fresh_schedules_one_scan _ ab pg H1 H2 H3).
Defined.

(** C9. Removal is one-directional: after [remove s], however many scans
    run, a node that was hidden stays hidden. *)
Theorem remove_never_unhides `{SelectorEngine} s k ab pg n :
  node_hidden (pg_doc pg) n = true ->
  node_hidden (pg_doc (exec (remove s ;; Nat.iter k (fun m => hideAds ;; m) (mret tt)) (ab, pg)).2) n = true.
Proof.
  intros Hh. rewrite exec_bind.
  destruct (exec (remove s) (ab, pg)) as [ab1 pg1] eqn:E.
  assert (Hh1 : node_hidden (pg_doc pg1) n = true).
  { pose proof (exec_remove_doc s ab pg) as Hd. rewrite E in Hd. simpl in Hd. by rewrite Hd. }
  clear E Hh. revert ab1 pg1 Hh1. induction k as [|k IH]; intros ab1 pg1 Hh1; [done|].
  simpl. rewrite exec_bind.
  destruct (exec hideAds (ab1, pg1)) as [ab2 pg2] eqn:E2.
  apply IH. pose proof (hideAds_monotone ab1 pg1 n Hh1) as Hm. by rewrite E2 in Hm.
Qed.

Lemma remove_never_unhides_witness :
  node_hidden (pg_doc demo_page) 1 = true /\
  node_hidden (pg_doc (exec (remove "div.toc-container" ;;
                             Nat.iter 2 (fun m => @hideAds SimpleEngine.engine ;; m) (mret tt))
                            (demo_blocker, demo_page)).2) 1 = true.
Proof.
  assert (Hh : node_hidden (pg_doc demo_page) 1 = true) by reflexivity.
  split; [exact Hh|].
  exact (remove_never_unhides (H := SimpleEngine.engine) _ 2 demo_blocker demo_page 1 Hh).
Defined.

End AdBlocker.
