(* ===== verification/PageScaler.v ===== *)
(** * [PageScaler] (src/preload.js, lines 47-93)

    The object keeps [config] (the [CONFIG.SCALE] record), [resizeTimer]
    (the last [setTimeout] handle, [null] at first) and the state of its
    MutationObserver.  [setupScaling(container)] installs a resize
    listener whose closures [applyScale] and the listener capture the
    container: the field [scaling] records that listener and the node it
    captured ([None] while the scaler still waits for the container).

    Methods run over the object and the page ([St (PageScaler * Page)]).
    The host fires a timer by running the [applyScale] closure of the
    scaler; [fire_timers t] advances the clock to [t] and runs the timers
    that are due, returning how many ran.

    The theorems show: construction never looks for the container (only a
    later mutation batch does); the first batch that finds it activates
    scaling once, after which the observer is disconnected and later
    batches do nothing; the activation writes the overflow and scale
    styles; a burst of resize events less than [RESIZE_DELAY] apart
    produces no recomputation until the last one's timer fires, and then
    exactly one, with the last viewport. *)

From S2P Require Import Prelude Config Dom Scale Host.
From stdpp Require Import gmap.

Module PageScaler.

Record PageScaler := {
  config : Preload.ScaleConfig;
  resizeTimer : option nat;
  observing : bool;
  scaling : option nat
}.

Definition set_resizeTimer (h : option nat) (ps : PageScaler) : PageScaler :=
  {| config := config ps; resizeTimer := h; observing := observing ps; scaling := scaling ps |}.
Definition set_observing (b : bool) (ps : PageScaler) : PageScaler :=
  {| config := config ps; resizeTimer := resizeTimer ps; observing := b; scaling := scaling ps |}.
Definition set_scaling (c : option nat) (ps : PageScaler) : PageScaler :=
  {| config := config ps; resizeTimer := resizeTimer ps; observing := observing ps; scaling := c |}.

Abbreviation M := (St (PageScaler * Page)).

(** [constructor(config)] with [init()]: the observer is created and
    observes [document.body]; nothing else runs now. *)
Definition construct (cfg : Preload.ScaleConfig) : St Page PageScaler :=
  mret {| config := cfg; resizeTimer := None; observing := true; scaling := None |}.

(** The [applyScale] closure: read the viewport, write the container's
    styles. *)
Definition applyScale (cfg : Preload.ScaleConfig) (container : nat) : St Page unit :=
  pg ← st_get;
  modify_doc (fun d => assign_node_style d container (Scaling.scale_styles cfg (pg_viewport pg))).

Definition overflow_hidden : list (string * StyleVal) := [("overflow", SStr "hidden")].

(** [setupScaling(container)]: clip root and body, scale once, install
    the resize listener, log. *)
Definition setupScaling (container : nat) : M unit :=
  on_env (modify_doc (fun d => assign_root_style d overflow_hidden)) ;;
  on_env (modify_doc (fun d => assign_body_style d overflow_hidden)) ;;
  ps ← this_get;
  on_env (applyScale (config ps) container) ;;
  this_put (set_scaling (Some container) ps) ;;
  on_env (log LogScalingEnabled).

(** The MutationObserver callback of [init]: runs only while connected;
    when the container exists, disconnect and set up scaling. *)
Definition on_mutation : M unit :=
  ps ← this_get;
  if observing ps then
    pg ← on_env st_get;
    match get_element_by_id (pg_doc pg) (Preload.CONTAINER_ID (config ps)) with
    | Some container => this_put (set_observing false ps) ;; setupScaling container
    | None => mret tt
    end
  else mret tt.

(** The resize listener: [clearTimeout(this.resizeTimer);
    this.resizeTimer = setTimeout(applyScale, RESIZE_DELAY)]. *)
Definition on_resize : M unit :=
  ps ← this_get;
  match scaling ps with
  | Some _ =>
      pg ← on_env st_get;
      let deadline := pg_now pg + Preload.RESIZE_DELAY (config ps) in
      let '(h, q) := replace_slot (resizeTimer ps) (deadline, CbApplyScale) (pg_timers pg) in
      this_put (set_resizeTimer h ps) ;;
      on_env (st_put (pg_set_timers q pg))
  | None => mret tt
  end.

(** The host: advance the clock to [t] and run, in order, the timers due
    by then; each one is the [applyScale] closure of the listener. *)
Definition run_timer (ps : PageScaler) : St Page unit :=
  match scaling ps with
  | Some container => applyScale (config ps) container
  | None => mret tt
  end.

Definition fire_timers (t : nat) : M nat :=
  ps ← this_get;
  pg ← on_env st_get;
  let due := filter (fun e => e.2.1 <= t) (q_pending (pg_timers pg)) in
  let rest := filter (fun e => ¬ e.2.1 <= t) (q_pending (pg_timers pg)) in
  on_env (st_put (pg_set_now t (pg_set_timers {| q_next := q_next (pg_timers pg); q_pending := rest |} pg))) ;;
  on_env (st_iter (fun _ => run_timer ps) due) ;;
  mret (length due).

(** A window resize at time [t] to viewport [vp]: the timers due by [t]
    run first, then the viewport changes and the listener runs.  The
    result is the number of [applyScale] runs. *)
Definition resize_at (t : nat) (vp : Scaling.Viewport) : M nat :=
  k ← fire_timers t;
  on_env (st_modify (pg_set_viewport vp)) ;;
  on_resize ;;
  mret k.

Fixpoint resizes (evs : list (nat * Scaling.Viewport)) : M nat :=
  match evs with
  | [] => mret 0
  | (t, vp) :: evs' => k ← resize_at t vp; k' ← resizes evs'; mret (k + k')
  end.

(** A burst of resize events after one at time [t]: each comes no
    earlier than the previous one and before the previous one's timer is
    due ([d] is [RESIZE_DELAY]). *)
Fixpoint burst_after (d t : nat) (evs : list (nat * Scaling.Viewport)) : Prop :=
  match evs with
  | [] => True
  | (t', _) :: evs' => t <= t' < t + d /\ burst_after d t' evs'
  end.

(** The scaler's invariant over the timer queue: the only pending timer
    is the one [resizeTimer] names, the queue is well formed, and a
    scaler that has set up scaling no longer observes. *)
Definition scaler_inv (ps : PageScaler) (tq : Queue (nat * TimerCb)) : Prop :=
  slot_inv (resizeTimer ps) tq /\ q_wf tq /\ (is_Some (scaling ps) -> observing ps = false).

(** A page whose body holds [#app-container] (node 7), for the witnesses. *)
Definition demo_container : Element :=
  {| el_tag := "div"; el_id := "app-container"; el_classes := []; el_style := ∅ |}.

Definition demo_page : Page :=
  {| pg_doc := {| doc_nodes := {[7 := demo_container]}; doc_tree := [7];
                  doc_root_style := ∅; doc_body_style := ∅ |};
     pg_viewport := {| Scaling.clientWidth := 1920; Scaling.clientHeight := 1080 |};
     pg_now := 0; pg_timers := q_empty; pg_frames := q_empty; pg_log := [] |}.

Definition demo_vp (w h : Z) : Scaling.Viewport :=
  {| Scaling.clientWidth := w; Scaling.clientHeight := h |}.

(** ** Running the timers and the listener *)

Lemma queue_eta {Cb} (q : Queue Cb) : {| q_next := q_next q; q_pending := q_pending q |} = q.
Proof. by destruct q. Qed.

Lemma fire_timers_unfold t ps pg :
  fire_timers t (ps, pg) =
    let due := filter (fun e => e.2.1 <= t) (q_pending (pg_timers pg)) in
    let rest := filter (fun e => ¬ e.2.1 <= t) (q_pending (pg_timers pg)) in
    (length due,
     (ps, exec (st_iter (fun _ => run_timer ps) due)
               (pg_set_now t (pg_set_timers {| q_next := q_next (pg_timers pg); q_pending := rest |} pg)))).
Proof. unfold fire_timers. st_run. Qed.

(** No timer due by [t]: the clock moves, nothing runs. *)
Lemma fire_timers_none t ps pg :
  Forall (fun e => t < e.2.1) (q_pending (pg_timers pg)) ->
  fire_timers t (ps, pg) = (0, (ps, pg_set_now t pg)).
Proof.
  intros Hall. rewrite fire_timers_unfold. cbv zeta. rewrite Forall_forall in Hall.
  rewrite filter_none by (intros e He; specialize (Hall e He); lia).
  rewrite filter_all by (intros e He; specialize (Hall e He); lia).
  rewrite queue_eta. by destruct pg.
Qed.

(** The one pending timer is due by [t]: it runs once. *)
Lemma fire_timers_one t ps pg h dl :
  q_pending (pg_timers pg) = [(h, (dl, CbApplyScale))] -> dl <= t ->
  fire_timers t (ps, pg) =
    (1, (ps, exec (run_timer ps)
                  (pg_set_now t (pg_set_timers {| q_next := q_next (pg_timers pg); q_pending := [] |} pg)))).
Proof.
  intros Hp Hdl. rewrite fire_timers_unfold. cbv zeta. rewrite Hp.
  rewrite filter_cons_True by (simpl; lia). rewrite filter_cons_False by (simpl; lia).
  rewrite !filter_nil, exec_iter_cons. reflexivity.
Qed.

Lemma on_resize_unfold ps pg c :
  scaling ps = Some c ->
  exec on_resize (ps, pg) =
    let r := replace_slot (resizeTimer ps) (pg_now pg + Preload.RESIZE_DELAY (config ps), CbApplyScale)
                          (pg_timers pg) in
    (set_resizeTimer r.1 ps, pg_set_timers r.2 pg).
Proof.
  intros Hs. unfold on_resize. st_unfold. rewrite Hs. cbn -[replace_slot].
  by destruct (replace_slot (resizeTimer ps) _ (pg_timers pg)).
Qed.

Lemma exec_on_resize_idle ps pg : scaling ps = None -> exec on_resize (ps, pg) = (ps, pg).
Proof. intros Hs. unfold on_resize. st_unfold. by rewrite Hs. Qed.

Lemma resize_at_unfold t vp ps pg :
  resize_at t vp (ps, pg) =
    let r := fire_timers t (ps, pg) in
    (r.1, exec on_resize (r.2.1, pg_set_viewport vp r.2.2)).
Proof.
  unfold resize_at. rewrite st_bind_unfold. destruct (fire_timers t (ps, pg)) as [k [ps1 pg1]].
  st_unfold. simpl. by destruct (on_resize _).
Qed.

(** A resize at [t], when no pending timer is due by [t]: nothing runs,
    the viewport is [vp], and exactly one timer is pending, due at
    [t + RESIZE_DELAY], under the handle now in [resizeTimer]. *)
Lemma resize_at_spec t vp ps pg c :
  scaling ps = Some c -> slot_inv (resizeTimer ps) (pg_timers pg) ->
  Forall (fun e => t < e.2.1) (q_pending (pg_timers pg)) ->
  let r := resize_at t vp (ps, pg) in
  r.1 = 0 /\ scaling r.2.1 = Some c /\ config r.2.1 = config ps /\
  resizeTimer r.2.1 = Some (q_next (pg_timers pg)) /\
  q_pending (pg_timers r.2.2) =
    [(q_next (pg_timers pg), (t + Preload.RESIZE_DELAY (config ps), CbApplyScale))] /\
  pg_viewport r.2.2 = vp /\ pg_now r.2.2 = t /\ pg_doc r.2.2 = pg_doc pg /\ pg_log r.2.2 = pg_log pg.
Proof.
  intros Hs Hinv Hdue r. subst r. rewrite resize_at_unfold, fire_timers_none by done.
  cbn -[replace_slot]. rewrite (on_resize_unfold _ _ c Hs). cbn -[replace_slot].
  destruct (replace_slot_single (resizeTimer ps) (t + Preload.RESIZE_DELAY (config ps), CbApplyScale)
              (pg_timers pg) Hinv) as [Hp Hh].
  rewrite Hp, Hh. by repeat split.
Qed.

Lemma resizes_cons_unfold t vp evs ps pg :
  resizes ((t, vp) :: evs) (ps, pg) =
    let r := resize_at t vp (ps, pg) in
    let r' := resizes evs r.2 in
    (r.1 + r'.1, r'.2).
Proof.
  cbn [resizes]. rewrite st_bind_unfold. destruct (resize_at t vp (ps, pg)) as [k s1].
  rewrite st_bind_unfold. simpl. by destruct (resizes evs s1).
Qed.

Lemma keeps_run_timer ps : keeps queues (run_timer ps).
Proof. unfold run_timer, applyScale. keeps_walk. Qed.

#[export] Hint Resolve keeps_run_timer : electron.

Lemma exec_run_timer ps pg c :
  scaling ps = Some c ->
  exec (run_timer ps) pg =
    pg_set_doc (assign_node_style (pg_doc pg) c (Scaling.scale_styles (config ps) (pg_viewport pg))) pg.
Proof. intros Hs. unfold run_timer. by rewrite Hs. Qed.

(** Inside a burst, with one timer pending for the previous event, each
    event moves that timer later and nothing runs. *)
Lemma resizes_burst evs ps pg c t vp h :
  scaling ps = Some c -> resizeTimer ps = Some h ->
  q_pending (pg_timers pg) = [(h, (t + Preload.RESIZE_DELAY (config ps), CbApplyScale))] ->
  pg_viewport pg = vp ->
  burst_after (Preload.RESIZE_DELAY (config ps)) t evs ->
  let r := resizes evs (ps, pg) in
  ∀ tl vpl, last ((t, vp) :: evs) = Some (tl, vpl) ->
  r.1 = 0 /\ ∃ h', resizeTimer r.2.1 = Some h' /\ scaling r.2.1 = Some c /\
  config r.2.1 = config ps /\
  q_pending (pg_timers r.2.2) = [(h', (tl + Preload.RESIZE_DELAY (config ps), CbApplyScale))] /\
  pg_viewport r.2.2 = vpl /\ pg_doc r.2.2 = pg_doc pg /\ pg_log r.2.2 = pg_log pg.
Proof.
  revert ps pg t vp h. induction evs as [|[t' vp'] evs IH];
    intros ps pg t vp h Hs Hh Hp Hv Hb r tl vpl Hl.
  - simpl in Hl. injection Hl as <- <-. subst r. split; [done|]. by exists h.
  - destruct Hb as [Ht Hb]. subst r. rewrite resizes_cons_unfold.
    destruct (resize_at_spec t' vp' ps pg c Hs) as (H0 & Hs1 & Hc1 & Hh1 & Hp1 & Hv1 & Hn1 & Hd1 & Hl1).
    { unfold slot_inv. rewrite Hp, Hh. by repeat constructor. }
    { rewrite Hp. repeat constructor. simpl. lia. }
    destruct (resize_at t' vp' (ps, pg)) as [k [ps1 pg1]]. simpl in *.
    rewrite <- Hc1 in Hp1, Hb.
    destruct (IH ps1 pg1 t' vp' _ Hs1 Hh1 Hp1 Hv1 Hb tl vpl) as (Hk & h' & Hrest).
    { rewrite last_cons in Hl. rewrite last_cons. destruct (last evs); done. }
    split; [lia|]. exists h'. rewrite <- Hc1, <- Hd1, <- Hl1. done.
Qed.

(** ** Activation *)

Lemma exec_setupScaling c ps pg :
  exec (setupScaling c) (ps, pg) =
    (set_scaling (Some c) ps,
     {| pg_doc := assign_node_style
                    (assign_body_style (assign_root_style (pg_doc pg) overflow_hidden) overflow_hidden)
                    c (Scaling.scale_styles (config ps) (pg_viewport pg));
        pg_viewport := pg_viewport pg; pg_now := pg_now pg; pg_timers := pg_timers pg;
        pg_frames := pg_frames pg; pg_log := pg_log pg ++ [LogScalingEnabled] |}).
Proof. reflexivity. Qed.

Lemma exec_on_mutation_found c ps pg :
  observing ps = true ->
  get_element_by_id (pg_doc pg) (Preload.CONTAINER_ID (config ps)) = Some c ->
  exec on_mutation (ps, pg) = exec (setupScaling c) (set_observing false ps, pg).
Proof. intros Ho Hc. unfold on_mutation. st_unfold. rewrite Ho. simpl. by rewrite Hc. Qed.

Lemma exec_on_mutation_idle ps pg :
  observing ps = false \/ get_element_by_id (pg_doc pg) (Preload.CONTAINER_ID (config ps)) = None ->
  exec on_mutation (ps, pg) = (ps, pg).
Proof.
  intros [Ho|Hc]; unfold on_mutation; st_unfold.
  - by rewrite Ho.
  - destruct (observing ps); [|done]. simpl. by rewrite Hc.
Qed.

(** C11. The first mutation batch after which [#app-container] exists
    activates scaling: the observer is disconnected, the listener captures
    the container, root and body clip their overflow, the container gets
    the scale styles of the current viewport, the activation is logged;
    and every later batch, whatever the page, does nothing. *)
Theorem on_mutation_activates_once c ps pg :
  observing ps = true ->
  get_element_by_id (pg_doc pg) (Preload.CONTAINER_ID (config ps)) = Some c ->
  let s1 := exec on_mutation (ps, pg) in
  observing s1.1 = false /\ scaling s1.1 = Some c /\
  doc_root_style (pg_doc s1.2) !! "overflow"%string = Some (SStr "hidden") /\
  doc_body_style (pg_doc s1.2) !! "overflow"%string = Some (SStr "hidden") /\
  doc_nodes (pg_doc s1.2) !! c =
    (fun e => set_el_style e (style_assign (el_style e)
                (Scaling.scale_styles (config ps) (pg_viewport pg)))) <$> doc_nodes (pg_doc pg) !! c /\
  pg_log s1.2 = pg_log pg ++ [LogScalingEnabled] /\
  ∀ pg', exec on_mutation (s1.1, pg') = (s1.1, pg').
Proof.
  intros Ho Hc s1. subst s1. rewrite (exec_on_mutation_found c) by done.
  rewrite exec_setupScaling. cbn -[assign_node_style].
  destruct (assign_node_style_page_styles
    (assign_body_style (assign_root_style (pg_doc pg) overflow_hidden) overflow_hidden)
    c (Scaling.scale_styles (config ps) (pg_viewport pg))) as [-> ->].
  split; [done|]. split; [done|].
  split; [simpl; by rewrite lookup_insert_eq|]. split; [simpl; by rewrite lookup_insert_eq|].
  split; [by rewrite assign_node_style_lookup_eq|]. split; [done|].
  intros pg'. apply exec_on_mutation_idle. by left.
Qed.

(** C10. Debounce coalescing: once scaling is set up and no timer is
    pending, a burst of resize events, each less than [RESIZE_DELAY] after
    the previous one, recomputes nothing while it lasts and leaves the
    document untouched; when the clock then reaches the last event's time
    plus [RESIZE_DELAY], exactly one recomputation runs, and it scales the
    container to the last event's viewport. *)
Theorem resize_burst_applies_once ps pg c t1 vp1 evs tl vpl T :
  scaling ps = Some c -> q_pending (pg_timers pg) = [] ->
  burst_after (Preload.RESIZE_DELAY (config ps)) t1 evs ->
  last ((t1, vp1) :: evs) = Some (tl, vpl) ->
  tl + Preload.RESIZE_DELAY (config ps) <= T ->
  let r := resizes ((t1, vp1) :: evs) (ps, pg) in
  let f := fire_timers T r.2 in
  r.1 = 0 /\ pg_doc r.2.2 = pg_doc pg /\ f.1 = 1 /\
  pg_doc f.2.2 = assign_node_style (pg_doc pg) c (Scaling.scale_styles (config ps) vpl).
Proof.
  intros Hs Hp Hb Hl HT r f. subst r f. rewrite resizes_cons_unfold.
  destruct (resize_at_spec t1 vp1 ps pg c Hs) as (H0 & Hs1 & Hc1 & Hh1 & Hp1 & Hv1 & _ & Hd1 & _).
  { unfold slot_inv. by rewrite Hp. }
  { by rewrite Hp. }
  destruct (resize_at t1 vp1 (ps, pg)) as [k [ps1 pg1]]. simpl in *.
  rewrite <- Hc1 in Hp1, Hb.
  destruct (resizes_burst evs ps1 pg1 c t1 vp1 _ Hs1 Hh1 Hp1 Hv1 Hb tl vpl Hl)
    as (Hk & h' & Hh2 & Hs2 & Hc2 & Hp2 & Hv2 & Hd2 & _).
  destruct (resizes evs (ps1, pg1)) as [k' [ps2 pg2]]. simpl in *.
  rewrite Hc1 in Hp2. rewrite (fire_timers_one T ps2 pg2 h' _ Hp2) by lia.
  split; [lia|]. split; [congruence|]. split; [done|].
  simpl. rewrite (exec_run_timer _ _ c Hs2). simpl. by rewrite Hc2, Hc1, Hd2, Hd1, Hv2.
Qed.

(** ** Each method keeps the invariant, the frame queue and the
    configuration *)

Definition method_ok {A} (m : M A) : Prop :=
  ∀ ps pg, scaler_inv ps (pg_timers pg) ->
  let s := exec m (ps, pg) in
  scaler_inv s.1 (pg_timers s.2) /\ pg_frames s.2 = pg_frames pg /\ config s.1 = config ps.

Lemma on_mutation_ok : method_ok on_mutation.
Proof.
  intros ps pg Hinv.
  destruct (observing ps) eqn:Ho; [|by rewrite exec_on_mutation_idle by auto].
  destruct (get_element_by_id (pg_doc pg) (Preload.CONTAINER_ID (config ps))) as [c|] eqn:Hc;
    [|by rewrite exec_on_mutation_idle by auto].
  rewrite (exec_on_mutation_found c) by done. rewrite exec_setupScaling.
  destruct Hinv as (Hs & Hwf & _). split; [|done]. split; [done|]. by split.
Qed.

Lemma on_resize_ok : method_ok on_resize.
Proof.
  intros ps pg Hinv. destruct (scaling ps) as [c|] eqn:Hs; [|by rewrite exec_on_resize_idle].
  rewrite (on_resize_unfold _ _ c Hs). destruct Hinv as (Hsl & Hwf & Hobs).
  split; [|done]. split; [by apply replace_slot_inv|]. split; [by apply replace_slot_wf|done].
Qed.

Lemma fire_timers_ok t : method_ok (fire_timers t).
Proof.
  intros ps pg Hinv. cbv zeta. change (exec (fire_timers t) (ps, pg)) with (fire_timers t (ps, pg)).2.
  rewrite fire_timers_unfold.
  cbv zeta. cbn [fst snd]. destruct Hinv as (Hsl & Hwf & Hobs).
  rewrite (keeps_queues_timers _ _ (keeps_iter _ _ _ (fun _ => keeps_run_timer ps))).
  rewrite (keeps_queues_frames _ _ (keeps_iter _ _ _ (fun _ => keeps_run_timer ps))).
  cbn. split; [|done]. split; [by apply slot_filter_inv|]. split; [by apply q_filter_wf|done].
Qed.

Lemma on_mutation_activates_once_witness :
  let ps := {| config := Preload.SCALE; resizeTimer := None; observing := true; scaling := None |} in
  let s1 := exec on_mutation (ps, demo_page) in
  observing s1.1 = false /\ scaling s1.1 = Some 7 /\
  pg_log s1.2 = [LogScalingEnabled].
Proof.
  destruct (on_mutation_activates_once 7
              {| config := Preload.SCALE; resizeTimer := None; observing := true; scaling := None |}
              demo_page eq_refl eq_refl) as (H1 & H2 & _ & _ & _ & H6 & _).
  split; [exact H1|]. split; [exact H2|exact H6].
Defined.

Lemma resize_burst_applies_once_witness :
  let ps := {| config := Preload.SCALE; resizeTimer := None; observing := false; scaling := Some 7 |} in
  let r := resizes [(0, demo_vp 960 540); (40, demo_vp 1000 540); (90, demo_vp 1280 720)]
                   (ps, demo_page) in
  let f := fire_timers 190 r.2 in
  r.1 = 0 /\ pg_doc r.2.2 = pg_doc demo_page /\ f.1 = 1 /\
  pg_doc f.2.2 = assign_node_style (pg_doc demo_page) 7 (Scaling.scale_styles Preload.SCALE (demo_vp 1280 720)).
Proof.
  exact (resize_burst_applies_once
           {| config := Preload.SCALE; resizeTimer := None; observing := false; scaling := Some 7 |}
           demo_page 7 0 (demo_vp 960 540) [(40, demo_vp 1000 540); (90, demo_vp 1280 720)]
           90 (demo_vp 1280 720) 190 eq_refl eq_refl ltac:(simpl; lia) eq_refl ltac:(simpl; lia)).
Defined.

End PageScaler.
