(* ===== verification/Script.v ===== *)
(** * The preload script as a whole (src/preload.js, lines 151-168)

    [World] is everything the script's listeners see: the isolated
    world's [navigator], the page (document, viewport, clock, timer and
    frame queues, console), the two controllers once [DOMContentLoaded]
    has created them, and whether [electronAPI] is exposed.  [step]
    runs one event of the page's event loop:

    - [DOMContentLoaded]: the listener of lines 152-165 (fingerprint
      patch, [new PageScaler(CONFIG.SCALE)], [new AdBlocker(...)], the
      bridge);
    - [Mutations ops]: the page's own script edits the body's subtree;
      a non-empty batch is delivered to both observers, in the order
      they were created (the scaler's first);
    - [WindowResize], [Tick] (the clock advances and due timers run),
      [AnimationFrame] (the pending frame callbacks run);
    - [CallAddAdSelector v], [CallRefreshAds]: a call through the
      bridge with any JavaScript value.

    [reachable] is the set of worlds a fresh page reaches, with
    [DOMContentLoaded] firing at most once.  The theorems: an invariant
    of every reachable world (each controller has at most one pending
    unit of work, the selector set has no duplicate, an activated scaler
    no longer observes); the bridge ignores anything but a non-empty
    string; a scaler whose container is already in the page when it is
    created stays idle while no mutation batch arrives; a selector
    added through the bridge takes effect at the next animation frame,
    in any reachable world (the spec's [#new-ad] scenario is its
    witness). *)

From S2P Require Import Prelude Config Dom Scale Fingerprint Host AdBlocker PageScaler.
From stdpp Require Import gmap.
From Stdlib Require Import ZArith QArith Lqa.
Local Open Scope nat_scope.

Module Script.

(** The values a page script can pass through the bridge. *)
Inductive JsVal :=
  | JsString (s : string)
  | JsNumber (q : Q)
  | JsBool (b : bool)
  | JsNull
  | JsUndefined
  | JsObject.

(** [addAdSelector]: [typeof selector === 'string' && selector]. *)
Definition addAdSelector (v : JsVal) : AdBlocker.M unit :=
  match v with
  | JsString s => if decide (s ≠ ""%string) then AdBlocker.add s else mret tt
  | _ => mret tt
  end.

(** [refreshAds: () => blocker.debounceHide()]. *)
Definition refreshAds : AdBlocker.M unit := AdBlocker.debounceHide.

Record World := {
  w_nav : Fingerprint.Navigator;
  w_page : Page;
  w_scaler : option PageScaler.PageScaler;
  w_blocker : option AdBlocker.AdBlocker;
  w_api : bool
}.

Definition w_set_page (pg : Page) (w : World) : World :=
  {| w_nav := w_nav w; w_page := pg; w_scaler := w_scaler w; w_blocker := w_blocker w; w_api := w_api w |}.

(** Run a method of the scaler, if there is one, on the page. *)
Definition with_scaler {A} (m : PageScaler.M A) (w : World) : World :=
  match w_scaler w with
  | Some ps =>
      let '(ps', pg') := exec m (ps, w_page w) in
      {| w_nav := w_nav w; w_page := pg'; w_scaler := Some ps'; w_blocker := w_blocker w; w_api := w_api w |}
  | None => w
  end.

Definition with_blocker {A} (m : AdBlocker.M A) (w : World) : World :=
  match w_blocker w with
  | Some ab =>
      let '(ab', pg') := exec m (ab, w_page w) in
      {| w_nav := w_nav w; w_page := pg'; w_scaler := w_scaler w; w_blocker := Some ab'; w_api := w_api w |}
  | None => w
  end.

(** The [DOMContentLoaded] listener. *)
Definition on_DOMContentLoaded (r1 r2 : Q) (w : World) : World :=
  let nav := Fingerprint.hideBrowserFingerprint r1 r2 (w_nav w) in
  let '(ps, pg1) := PageScaler.construct Preload.SCALE (w_page w) in
  let '(ab, pg2) := AdBlocker.construct Preload.AD_SELECTORS pg1 in
  {| w_nav := nav; w_page := pg2; w_scaler := Some ps; w_blocker := Some ab; w_api := true |}.

(** The blocker's observer: [new MutationObserver(this.debounceHide)],
    connected by [init]. *)
Definition blocker_observer : AdBlocker.M unit :=
  ab ← this_get;
  if AdBlocker.observer ab then AdBlocker.debounceHide else mret tt.

(** A batch of [childList] mutations under [document.body]; an empty
    batch produces no record and no callback. *)
Definition on_mutations (ops : list DomOp) (w : World) : World :=
  let w1 := w_set_page (pg_set_doc (apply_dom_ops (pg_doc (w_page w)) ops) (w_page w)) w in
  match ops with
  | [] => w1
  | _ :: _ => with_blocker blocker_observer (with_scaler PageScaler.on_mutation w1)
  end.

(** [window] [resize]: the viewport changes, then the listener (if
    [setupScaling] installed it) runs. *)
Definition on_window_resize (vp : Scaling.Viewport) (w : World) : World :=
  let w1 := w_set_page (pg_set_viewport vp (w_page w)) w in
  match w_scaler w1 with
  | Some _ => with_scaler PageScaler.on_resize w1
  | None => w1
  end.

(** The clock reaches [t]: due timers run (all of them are the scaler's). *)
Definition on_tick (t : nat) (w : World) : World :=
  match w_scaler w with
  | Some _ => with_scaler (PageScaler.fire_timers t) w
  | None => w_set_page (pg_set_now t (w_page w)) w
  end.

Section WithEngine.
Context `{SelectorEngine}.

(** An animation frame: the callbacks requested before it run, in
    order; each is the blocker's [hideAds]. *)
Definition run_frames : AdBlocker.M unit :=
  pg ← on_env st_get;
  on_env (st_put (pg_set_frames {| q_next := q_next (pg_frames pg); q_pending := [] |} pg)) ;;
  st_iter (fun _ => AdBlocker.hideAds) (q_pending (pg_frames pg)).

Definition on_animation_frame (w : World) : World :=
  match w_blocker w with
  | Some _ => with_blocker run_frames w
  | None => w_set_page (pg_set_frames {| q_next := q_next (pg_frames (w_page w)); q_pending := [] |} (w_page w)) w
  end.

Inductive Event :=
  | DOMContentLoaded (r1 r2 : Q)
  | Mutations (ops : list DomOp)
  | WindowResize (vp : Scaling.Viewport)
  | Tick (t : nat)
  | AnimationFrame
  | CallAddAdSelector (v : JsVal)
  | CallRefreshAds.

(** A bridge call before the bridge exists reaches nothing. *)
Definition step (e : Event) (w : World) : World :=
  match e with
  | DOMContentLoaded r1 r2 => on_DOMContentLoaded r1 r2 w
  | Mutations ops => on_mutations ops w
  | WindowResize vp => on_window_resize vp w
  | Tick t => on_tick t w
  | AnimationFrame => on_animation_frame w
  | CallAddAdSelector v => if w_api w then with_blocker (addAdSelector v) w else w
  | CallRefreshAds => if w_api w then with_blocker refreshAds w else w
  end.

Definition run (evs : list Event) (w : World) : World := foldl (fun w e => step e w) w evs.

End WithEngine.

(** A page before the preload script's listener ran: nothing pending. *)
Definition initial (nav : Fingerprint.Navigator) (pg : Page) : World :=
  {| w_nav := nav; w_page := pg; w_scaler := None; w_blocker := None; w_api := false |}.

Definition fresh_page (pg : Page) : Prop :=
  q_pending (pg_timers pg) = [] /\ q_pending (pg_frames pg) = [] /\
  q_wf (pg_timers pg) /\ q_wf (pg_frames pg).

Definition is_load (e : Event) : bool :=
  match e with DOMContentLoaded _ _ => true | _ => false end.

Definition is_mutation (e : Event) : bool :=
  match e with Mutations (_ :: _) => true | _ => false end.

(** A navigator with [window.performance] and no [memory], as in
    Chromium with the precise-memory flag off. *)
Definition demo_nav : Fingerprint.Navigator :=
  {| Fingerprint.webdriver := true; Fingerprint.has_performance := true; Fingerprint.memory := None |}.

(** The invariant of a page load: each controller's queue holds at most
    the work its handle field names, the selector set is a set of
    non-empty strings, an activated scaler no longer observes, and before
    [DOMContentLoaded] nothing is pending. *)
Definition world_inv (w : World) : Prop :=
  let pg := w_page w in
  match w_scaler w with
  | Some ps => PageScaler.scaler_inv ps (pg_timers pg) /\ PageScaler.config ps = Preload.SCALE
  | None => q_pending (pg_timers pg) = [] /\ q_wf (pg_timers pg)
  end /\
  match w_blocker w with
  | Some ab => AdBlocker.blocker_inv ab (pg_frames pg)
  | None => q_pending (pg_frames pg) = [] /\ q_wf (pg_frames pg)
  end /\
  (w_api w = false -> w_scaler w = None /\ w_blocker w = None).

Section Reach.
Context `{SelectorEngine}.

(** The worlds of one page load: [DOMContentLoaded] fires once, with
    two draws of [Math.random]; every other event any number of times. *)
Inductive reachable : World -> Prop :=
  | reach_init nav pg : fresh_page pg -> reachable (initial nav pg)
  | reach_load w r1 r2 :
      reachable w -> w_api w = false -> Fingerprint.random_draw r1 -> Fingerprint.random_draw r2 ->
      reachable (step (DOMContentLoaded r1 r2) w)
  | reach_event w e : reachable w -> is_load e = false -> reachable (step e w).

End Reach.

(** ** The invariant, one event at a time *)

Lemma world_inv_set_page w pg :
  world_inv w -> queues pg = queues (w_page w) -> world_inv (w_set_page pg w).
Proof. intros Hinv Hq. injection Hq as Ht Hf. unfold world_inv. simpl. by rewrite Ht, Hf. Qed.

Lemma with_scaler_inv {A} (m : PageScaler.M A) w :
  PageScaler.method_ok m -> world_inv w -> world_inv (with_scaler m w).
Proof.
  intros Hm Hinv. unfold with_scaler. destruct (w_scaler w) as [ps|] eqn:Es; [|exact Hinv].
  destruct Hinv as (Hs & Hb & Ha). rewrite Es in Hs, Ha. destruct Hs as [Hs Hc]. destruct (Hm ps (w_page w) Hs) as (Hs' & Hf & Hc').
  destruct (exec m (ps, w_page w)) as [ps' pg']. simpl in *.
  unfold world_inv. simpl. rewrite Hf. split; [split; [done|congruence]|].
  split; [done|]. intros Hf'. by destruct (Ha Hf').
Qed.

Lemma with_blocker_inv {A} (m : AdBlocker.M A) w :
  AdBlocker.method_ok m -> world_inv w -> world_inv (with_blocker m w).
Proof.
  intros Hm Hinv. unfold with_blocker. destruct (w_blocker w) as [ab|] eqn:Eb; [|exact Hinv].
  destruct Hinv as (Hs & Hb & Ha). rewrite Eb in Hb, Ha.
  destruct (Hm ab (w_page w) Hb) as (Hb' & Ht).
  destruct (exec m (ab, w_page w)) as [ab' pg']. simpl in *.
  unfold world_inv. simpl. rewrite Ht. split; [done|]. split; [done|]. intros Hf'. by destruct (Ha Hf').
Qed.

Lemma blocker_observer_ok : AdBlocker.method_ok blocker_observer.
Proof.
  unfold blocker_observer. apply AdBlocker.method_ok_bind; [apply AdBlocker.method_ok_this_get|].
  intros ab. destruct (AdBlocker.observer ab); [apply AdBlocker.debounceHide_ok|apply AdBlocker.method_ok_ret].
Qed.

Lemma addAdSelector_ok v : AdBlocker.method_ok (addAdSelector v).
Proof.
  destruct v; simpl; try apply AdBlocker.method_ok_ret.
  case_decide; [apply AdBlocker.add_ok|apply AdBlocker.method_ok_ret].
Qed.

Lemma exec_run_frames `{SelectorEngine} ab pg :
  exec run_frames (ab, pg) =
    exec (st_iter (fun _ => AdBlocker.hideAds) (q_pending (pg_frames pg)))
         (ab, pg_set_frames {| q_next := q_next (pg_frames pg); q_pending := [] |} pg).
Proof. reflexivity. Qed.

Lemma run_frames_ok `{SelectorEngine} : AdBlocker.method_ok run_frames.
Proof.
  intros ab pg (_ & _ & Hnd & Hne). rewrite exec_run_frames.
  refine (AdBlocker.method_ok_iter (fun _ => AdBlocker.hideAds) (q_pending (pg_frames pg))
            (fun _ => AdBlocker.hideAds_ok) ab _ _).
  split; [apply slot_clear_inv|]. split; [apply q_clear_wf|]. by split.
Qed.

Lemma step_inv `{SelectorEngine} e w :
  world_inv w -> is_load e = false -> world_inv (step e w).
Proof.
  intros Hinv Hl. destruct e as [r1 r2|ops|vp|t| |v|]; simpl in Hl |- *; [done| | | | | |].
  - unfold on_mutations. assert (Hw1 := world_inv_set_page w
      (pg_set_doc (apply_dom_ops (pg_doc (w_page w)) ops) (w_page w)) Hinv eq_refl).
    destruct ops; [done|].
    apply with_blocker_inv; [apply blocker_observer_ok|].
    apply with_scaler_inv; [apply PageScaler.on_mutation_ok|done].
  - unfold on_window_resize. assert (Hw1 := world_inv_set_page w (pg_set_viewport vp (w_page w)) Hinv eq_refl).
    case_match; [|done]. apply with_scaler_inv; [apply PageScaler.on_resize_ok|done].
  - unfold on_tick. case_match.
    + apply with_scaler_inv; [apply PageScaler.fire_timers_ok|done].
    + by apply world_inv_set_page.
  - unfold on_animation_frame. destruct (w_blocker w) as [ab|] eqn:Eb.
    + apply with_blocker_inv; [apply run_frames_ok|]. done.
    + destruct Hinv as (Hs & _ & Ha). unfold world_inv. simpl. rewrite Eb.
      split; [done|]. split; [split; [done|apply q_clear_wf]|]. intros Hf. by destruct (Ha Hf).
  - destruct (w_api w); [|done]. apply with_blocker_inv; [apply addAdSelector_ok|done].
  - destruct (w_api w); [|done]. apply with_blocker_inv; [apply AdBlocker.debounceHide_ok|done].
Qed.

Lemma load_inv `{SelectorEngine} r1 r2 w :
  world_inv w -> w_api w = false -> world_inv (step (DOMContentLoaded r1 r2) w).
Proof.
  intros (Hs & Hb & Ha) Hapi. destruct (Ha Hapi) as [Es Eb]. rewrite Es in Hs. rewrite Eb in Hb.
  destruct Hs as [Htp Htw]. destruct Hb as [Hfp Hfw].
  simpl. unfold on_DOMContentLoaded. cbn [PageScaler.construct mret st_mret].
  assert (Hne : ""%string ∉ Preload.AD_SELECTORS) by (vm_compute; set_solver).
  destruct (AdBlocker.construct_ok Preload.AD_SELECTORS (w_page w) Hfp Hfw Hne) as (Hbi & Ht & _).
  destruct (AdBlocker.construct Preload.AD_SELECTORS (w_page w)) as [ab pg2]. simpl in *.
  unfold world_inv. simpl. rewrite Ht. split; [|split; [done|discriminate]].
  split; [|done]. split; [unfold slot_inv; by rewrite Htp|]. split; [done|]. by intros [].
Qed.

Lemma reachable_inv `{SelectorEngine} w : reachable w -> world_inv w.
Proof.
  induction 1 as [nav pg (Htp & Hfp & Htw & Hfw)|w r1 r2 _ IH Hapi _ _|w e _ IH Hl].
  - unfold world_inv. simpl. split; [done|]. by split.
  - by apply load_inv.
  - by apply step_inv.
Qed.

(** C12. Coalescing holds for the whole page load: in every world a
    fresh page reaches, at most one [applyScale] timer and at most one
    [hideAds] frame are pending, the selector set holds no duplicate and
    no empty string, and a scaler that has set up scaling no longer
    observes mutations. *)
Theorem reachable_single_pending `{SelectorEngine} w :
  reachable w ->
  length (q_pending (pg_timers (w_page w))) <= 1 /\
  length (q_pending (pg_frames (w_page w))) <= 1 /\
  (∀ ab, w_blocker w = Some ab -> NoDup (AdBlocker.selectors ab) /\ ""%string ∉ AdBlocker.selectors ab) /\
  (∀ ps, w_scaler w = Some ps -> is_Some (PageScaler.scaling ps) -> PageScaler.observing ps = false).
Proof.
  intros Hr. destruct (reachable_inv w Hr) as (Hs & Hb & _).
  split; [|split; [|split]].
  - destruct (w_scaler w) as [ps|]; [destruct Hs as [(Hsl & Hwf & _) _]|destruct Hs as [-> _]; simpl; lia].
    by apply (slot_inv_at_most_one (PageScaler.resizeTimer ps)).
  - destruct (w_blocker w) as [ab|]; [destruct Hb as (Hsl & Hwf & _)|destruct Hb as [-> _]; simpl; lia].
    by apply (slot_inv_at_most_one (AdBlocker.frameId ab)).
  - intros ab Eb. rewrite Eb in Hb. by destruct Hb as (_ & _ & Hnd & Hne).
  - intros ps Es. rewrite Es in Hs. by destruct Hs as [(_ & _ & Hobs) _].
Qed.

Lemma with_blocker_scaler {A} (m : AdBlocker.M A) w : w_scaler (with_blocker m w) = w_scaler w.
Proof. unfold with_blocker. repeat case_match; simplify_eq/=; done. Qed.

Lemma with_blocker_ret {A} (a : A) w : with_blocker (mret a) w = w.
Proof. destruct w as [nav pg sc [ab|] api]; reflexivity. Qed.

(** Without a mutation batch, an idle scaler stays exactly as it is. *)
Lemma step_scaler_idle `{SelectorEngine} e w ps :
  is_mutation e = false -> is_load e = false ->
  w_scaler w = Some ps -> PageScaler.scaling ps = None -> w_scaler (step e w) = Some ps.
Proof.
  intros Hm Hl Hs Hsc. destruct e as [r1 r2|[|op ops]|vp|t| |v|]; simpl in Hm, Hl |- *; try done.
  - unfold on_window_resize, with_scaler. simpl. rewrite Hs.
    by rewrite PageScaler.exec_on_resize_idle.
  - unfold on_tick, with_scaler. rewrite Hs.
    change (exec (PageScaler.fire_timers t) (ps, w_page w)) with (PageScaler.fire_timers t (ps, w_page w)).2.
    by rewrite PageScaler.fire_timers_unfold.
  - unfold on_animation_frame. case_match; [by rewrite with_blocker_scaler|done].
  - case_match; [by rewrite with_blocker_scaler|done].
  - case_match; [by rewrite with_blocker_scaler|done].
Qed.

(** C13. The scaler only looks for its container when a mutation batch
    arrives: whatever the page holds when [DOMContentLoaded] fires (the
    container included), as long as no non-empty mutation batch follows,
    the scaler stays unactivated and keeps observing, whatever resizes,
    ticks, frames and bridge calls happen. *)
Theorem scaler_idle_without_mutations `{SelectorEngine} w r1 r2 evs :
  Forall (fun e => is_mutation e = false /\ is_load e = false) evs ->
  ∃ ps, w_scaler (run evs (step (DOMContentLoaded r1 r2) w)) = Some ps /\
        PageScaler.scaling ps = None /\ PageScaler.observing ps = true.
Proof.
  intros Hall. exists {| PageScaler.config := Preload.SCALE; PageScaler.resizeTimer := None;
                         PageScaler.observing := true; PageScaler.scaling := None |}.
  split; [|done]. unfold run.
  assert (Hs0 : w_scaler (step (DOMContentLoaded r1 r2) w) =
                Some {| PageScaler.config := Preload.SCALE; PageScaler.resizeTimer := None;
                        PageScaler.observing := true; PageScaler.scaling := None |}).
  { simpl. unfold on_DOMContentLoaded, PageScaler.construct. cbv [mret st_mret].
    by destruct (AdBlocker.construct Preload.AD_SELECTORS (w_page w)). }
  revert Hs0. generalize (step (DOMContentLoaded r1 r2) w). induction Hall as [|e evs [Hm Hl] _ IH]; intros w1 Hs1; [done|].
  simpl. apply IH. by apply step_scaler_idle.
Qed.

(** C16. The bridge's guard: [addAdSelector] with anything but a
    non-empty string (a number, a boolean, [null], [undefined], an
    object, or [''] ) changes nothing at all: no selector, no log, no
    frame. *)
Theorem bridge_rejects_invalid_selector `{SelectorEngine} w v :
  (∀ s, v = JsString s -> s = ""%string) -> step (CallAddAdSelector v) w = w.
Proof.
  intros Hv. simpl. destruct (w_api w); [|done].
  assert (E : addAdSelector v = mret tt).
  { destruct v as [s| | | | |]; try reflexivity. simpl.
    rewrite decide_False; [done|]. intros Hne. apply Hne, (Hv s eq_refl). }
  rewrite E. apply with_blocker_ret.
Qed.

(** A frame with the one scan [debounceHide] requested runs [hideAds]
    once, on the page with the frame queue emptied. *)
Lemma exec_run_frames_single `{SelectorEngine} ab pg h :
  q_pending (pg_frames pg) = [(h, CbHideAds)] ->
  exec run_frames (ab, pg) =
    exec AdBlocker.hideAds (ab, pg_set_frames {| q_next := q_next (pg_frames pg); q_pending := [] |} pg).
Proof. intros Hp. by rewrite exec_run_frames, Hp, exec_iter_cons. Qed.

Lemma step_add_fresh `{SelectorEngine} w ab s :
  w_api w = true -> w_blocker w = Some ab -> s ≠ ""%string ->
  step (CallAddAdSelector (JsString s)) w =
    let '(ab', pg') := exec (AdBlocker.add s) (ab, w_page w) in
    {| w_nav := w_nav w; w_page := pg'; w_scaler := w_scaler w; w_blocker := Some ab'; w_api := w_api w |}.
Proof.
  intros Hapi Eb Hs. cbn [step addAdSelector]. rewrite Hapi.
  destruct (decide _) as [_|Hn]; [|done]. unfold with_blocker. by rewrite Eb, Hapi.
Qed.

(** C17. A selector added through the bridge takes effect at the next
    animation frame: in any world of a page load where the bridge is up,
    calling [addAdSelector] with a new, non-empty selector and then
    letting a frame run (all selectors comma-free and valid) leaves the
    set extended by the selector, no frame pending, the hidden nodes
    exactly those hidden before and the attached nodes some selector of
    the extended set matches, and a console that shows the addition and
    then each newly hidden node in document order. *)
Theorem bridge_selector_takes_effect `{SelectorEngine} w ab s :
  reachable w -> w_api w = true -> w_blocker w = Some ab ->
  doc_wf (pg_doc (w_page w)) ->
  s ≠ ""%string -> s ∉ AdBlocker.selectors ab ->
  Forall no_comma (AdBlocker.selectors ab ++ [s]) ->
  Forall (fun s => complex_valid s = true) (AdBlocker.selectors ab ++ [s]) ->
  let d := pg_doc (w_page w) in
  let matched n := existsb (fun s => complex_matches s d n) (AdBlocker.selectors ab ++ [s]) in
  let w' := step AnimationFrame (step (CallAddAdSelector (JsString s)) w) in
  option_map AdBlocker.selectors (w_blocker w') = Some (AdBlocker.selectors ab ++ [s]) /\
  q_pending (pg_frames (w_page w')) = [] /\
  (∀ n, node_hidden (pg_doc (w_page w')) n = true <->
        node_hidden d n = true \/ (n ∈ doc_tree d /\ matched n = true)) /\
  pg_log (w_page w') =
    pg_log (w_page w) ++ LogSelectorAdded s ::
      (LogBlocked <$> filter (fun n => node_hidden d n = false /\ matched n = true) (doc_tree d)).
Proof.
  intros Hr Hapi Eb Hwf Hs Hn Hnc Hv d matched w'. subst w'.
  destruct (reachable_inv w Hr) as (_ & Hb & _). rewrite Eb in Hb. destruct Hb as (Hsl & _).
  rewrite (step_add_fresh w ab s Hapi Eb Hs).
  destruct (AdBlocker.add_fresh_spec s ab (w_page w) Hs Hn Hsl) as (Hsel & _ & Hp & Hlog & Hdoc).
  destruct (exec (AdBlocker.add s) (ab, w_page w)) as [ab1 pg1]. simpl in Hsel, Hp, Hlog, Hdoc.
  cbn [step on_animation_frame w_blocker]. unfold with_blocker. cbn [w_blocker w_page w_nav w_scaler w_api].
  rewrite (exec_run_frames_single _ _ _ Hp).
  set (pg2 := pg_set_frames _ pg1).
  assert (Hd2 : pg_doc pg2 = d) by exact Hdoc.
  assert (Hne : AdBlocker.selectors ab1 ≠ []) by (rewrite Hsel; intros E; by apply app_nil in E as [_ ?]).
  rewrite <- Hsel in Hnc, Hv.
  destruct (AdBlocker.hideAds_spec ab1 pg2 ltac:(by rewrite Hd2) Hne Hnc Hv) as (Hab & Hh & Hl).
  destruct (AdBlocker.exec_hideAds_keeps ab1 pg2) as [_ Hq].
  destruct (exec AdBlocker.hideAds (ab1, pg2)) as [ab3 pg3]. simpl in Hab, Hh, Hl, Hq |- *.
  injection Hq as _ Hf. rewrite Hdoc, Hsel in Hh, Hl. subst ab3.
  split; [by rewrite Hsel|]. split; [by rewrite Hf|]. split; [exact Hh|].
  rewrite Hl. change (pg_log pg2) with (pg_log pg1). rewrite Hlog, <- app_assoc. done.
Qed.

(** The spec's page ([AdBlocker.demo_doc]) once loaded and the first
    frame has run: the three default selectors are in the set and their
    matches (nodes 3 and 4) are hidden. *)
Definition demo_loaded : World :=
  step (H := SimpleEngine.engine) AnimationFrame
    (step (H := SimpleEngine.engine) (DOMContentLoaded (1#2) (1#2)) (initial demo_nav AdBlocker.demo_scan_page)).

Lemma demo_reachable : reachable (H := SimpleEngine.engine) demo_loaded.
Proof.
  apply reach_event; [|reflexivity]. apply reach_load; [| reflexivity | unfold Fingerprint.random_draw; lra..].
  apply reach_init. split; [reflexivity|]. split; [reflexivity|]. split; apply q_empty_wf.
Qed.

Lemma reachable_single_pending_witness :
  let w := demo_loaded in
  reachable (H := SimpleEngine.engine) w /\
  length (q_pending (pg_timers (w_page w))) <= 1 /\ length (q_pending (pg_frames (w_page w))) <= 1.
Proof.
  split; [exact demo_reachable|].
  destruct (reachable_single_pending (H := SimpleEngine.engine) _ demo_reachable) as (H1 & H2 & _).
  split; [exact H1|exact H2].
Defined.

(** The container is in the page when [DOMContentLoaded] fires, the
    window is resized, time passes, frames run: the scaler never
    activates. *)
Lemma scaler_idle_without_mutations_witness :
  get_element_by_id (pg_doc PageScaler.demo_page) "app-container" = Some 7 /\
  Forall (fun e => is_mutation e = false /\ is_load e = false)
    [WindowResize (PageScaler.demo_vp 1000 540); Tick 500; AnimationFrame] /\
  ∃ ps, w_scaler (run (H := SimpleEngine.engine)
                    [WindowResize (PageScaler.demo_vp 1000 540); Tick 500; AnimationFrame]
                    (step (H := SimpleEngine.engine) (DOMContentLoaded (1#2) (1#2))
                       (initial demo_nav PageScaler.demo_page))) = Some ps /\
        PageScaler.scaling ps = None /\ PageScaler.observing ps = true.
Proof.
  assert (Hf : Forall (fun e => is_mutation e = false /\ is_load e = false)
                 [WindowResize (PageScaler.demo_vp 1000 540); Tick 500; AnimationFrame])
    by (repeat constructor).
  split; [reflexivity|]. split; [exact Hf|].
  exact (scaler_idle_without_mutations (H := SimpleEngine.engine) _ _ _ _ Hf).
Defined.

Lemma bridge_rejects_invalid_selector_witness :
  (∀ s, JsNumber 3 = JsString s -> s = ""%string) /\
  step (H := SimpleEngine.engine) (CallAddAdSelector (JsNumber 3)) demo_loaded = demo_loaded.
Proof.
  assert (Hv : ∀ s, JsNumber 3 = JsString s -> s = ""%string) by discriminate.
  split; [exact Hv|]. exact (bridge_rejects_invalid_selector (H := SimpleEngine.engine) demo_loaded _ Hv).
Defined.

(** On the spec's page, [addAdSelector('#new-ad')] and one frame hide
    the [span#new-ad] (node 5). *)
Lemma bridge_selector_takes_effect_witness :
  let w' := step (H := SimpleEngine.engine) AnimationFrame
              (step (H := SimpleEngine.engine) (CallAddAdSelector (JsString "#new-ad")) demo_loaded) in
  reachable (H := SimpleEngine.engine) demo_loaded /\ w_api demo_loaded = true /\
  (∃ ab, w_blocker demo_loaded = Some ab /\ ("#new-ad"%string ∉ AdBlocker.selectors ab) /\
         node_hidden (pg_doc (w_page demo_loaded)) 5 = false /\
         node_hidden (pg_doc (w_page w')) 5 = true).
Proof.
  split; [exact demo_reachable|]. split; [reflexivity|].
  eexists. assert (Eb : w_blocker demo_loaded = Some _) by (vm_compute; reflexivity).
  assert (Hwf : doc_wf (pg_doc (w_page demo_loaded)))
    by (split; apply (bool_decide_unpack _); vm_compute; reflexivity).
  assert (Hn : "#new-ad"%string ∉ AdBlocker.selectors
                 {| AdBlocker.selectors := Preload.AD_SELECTORS; AdBlocker.frameId := Some 0;
                    AdBlocker.observer := true |})
    by (apply (bool_decide_unpack _); vm_compute; reflexivity).
  assert (Hnc : Forall no_comma (Preload.AD_SELECTORS ++ ["#new-ad"%string]))
    by (apply (bool_decide_unpack _); vm_compute; reflexivity).
  assert (Hv : Forall (fun s => @complex_valid SimpleEngine.engine s = true)
                      (Preload.AD_SELECTORS ++ ["#new-ad"%string]))
    by (apply (bool_decide_unpack _); vm_compute; reflexivity).
  destruct (bridge_selector_takes_effect (H := SimpleEngine.engine) demo_loaded _ "#new-ad"
              demo_reachable eq_refl Eb Hwf ltac:(discriminate) Hn Hnc Hv) as (_ & _ & Hiff & _).
  split; [exact Eb|]. split; [exact Hn|]. split; [vm_compute; reflexivity|].
  apply (proj2 (Hiff 5)). right.
  split; [apply (bool_decide_unpack _); vm_compute; reflexivity|vm_compute; reflexivity].
Defined.

End Script.
