(* ===== verification/UriEncode.v ===== *)
(** * [encodeURIComponent] and the [data:] URL of the error page

    [MainWindow.showErrorPage] (src/main.js, lines 318-320) loads
    [`data:text/html;charset=utf-8,${encodeURIComponent(html)}`].  The
    JavaScript builtin encodes the UTF-8 bytes of its argument: a byte
    that is an ASCII letter, digit or one of [- _ . ! ~ * ' ( )] is kept,
    every other byte becomes [%] and two upper-case hexadecimal digits.
    Strings here are byte strings ([String.string] of [ascii]), the
    UTF-8 encoding of the JavaScript string, so the builtin is a map over
    bytes; its inverse [decodeURIComponent] fails on a [%] not followed by
    two hexadecimal digits.

    The theorems: decoding an encoded string gives it back (so the error
    page the window shows is exactly the HTML that was built); the
    encoding uses only URL-safe characters (no [#], which would cut the
    [data:] URL, no space, no [,]); its length is between one and three
    times the input's. *)

From S2P Require Import Prelude.
From Stdlib Require Import Ascii.

Module Uri.

Local Open Scope char_scope.

(** The characters [encodeURIComponent] leaves alone. *)
Definition is_alnum (c : ascii) : bool :=
  let n := nat_of_ascii c in
  (Nat.leb 48 n && Nat.leb n 57) || (Nat.leb 65 n && Nat.leb n 90) || (Nat.leb 97 n && Nat.leb n 122).

Definition is_unreserved (c : ascii) : bool :=
  is_alnum c || existsb (fun m => bool_decide (c = m)) ["-"; "_"; "."; "!"; "~"; "*"; "'"; "("; ")"].

(** The upper-case hexadecimal digit of a nibble [b3 b2 b1 b0]. *)
Definition hex_digit (b0 b1 b2 b3 : bool) : ascii :=
  match b3, b2, b1, b0 with
  | false, false, false, false => "0" | false, false, false, true => "1"
  | false, false, true, false => "2"  | false, false, true, true => "3"
  | false, true, false, false => "4"  | false, true, false, true => "5"
  | false, true, true, false => "6"   | false, true, true, true => "7"
  | true, false, false, false => "8"  | true, false, false, true => "9"
  | true, false, true, false => "A"   | true, false, true, true => "B"
  | true, true, false, false => "C"   | true, true, false, true => "D"
  | true, true, true, false => "E"    | true, true, true, true => "F"
  end.

(** The nibble of a hexadecimal digit, either case ([b0], ..., [b3]). *)
Definition hex_value (c : ascii) : option (bool * bool * bool * bool) :=
  match c with
  | "0" => Some (false, false, false, false) | "1" => Some (true, false, false, false)
  | "2" => Some (false, true, false, false)  | "3" => Some (true, true, false, false)
  | "4" => Some (false, false, true, false)  | "5" => Some (true, false, true, false)
  | "6" => Some (false, true, true, false)   | "7" => Some (true, true, true, false)
  | "8" => Some (false, false, false, true)  | "9" => Some (true, false, false, true)
  | "A" | "a" => Some (false, true, false, true) | "B" | "b" => Some (true, true, false, true)
  | "C" | "c" => Some (false, false, true, true) | "D" | "d" => Some (true, false, true, true)
  | "E" | "e" => Some (false, true, true, true)  | "F" | "f" => Some (true, true, true, true)
  | _ => None
  end.

(** One byte: kept, or [%HL] with the high nibble first. *)
Definition encode_byte (c : ascii) : string :=
  if is_unreserved c then String c EmptyString
  else match c with
       | Ascii b0 b1 b2 b3 b4 b5 b6 b7 =>
           String "%" (String (hex_digit b4 b5 b6 b7) (String (hex_digit b0 b1 b2 b3) EmptyString))
       end.

Fixpoint encodeURIComponent (s : string) : string :=
  match s with
  | EmptyString => EmptyString
  | String c s' => encode_byte c ++ encodeURIComponent s'
  end.

Fixpoint decodeURIComponent (s : string) : option string :=
  match s with
  | EmptyString => Some EmptyString
  | String "%" (String h (String l s')) =>
      match hex_value h, hex_value l, decodeURIComponent s' with
      | Some (b4, b5, b6, b7), Some (b0, b1, b2, b3), Some d => Some (String (Ascii b0 b1 b2 b3 b4 b5 b6 b7) d)
      | _, _, _ => None
      end
  | String "%" _ => None
  | String c s' => String c <$> decodeURIComponent s'
  end.

(** What may appear in the encoded text. *)
Definition url_safe (c : ascii) : bool :=
  is_unreserved c || bool_decide (c = "%").

Fixpoint all_chars (p : ascii -> bool) (s : string) : bool :=
  match s with
  | EmptyString => true
  | String c s' => p c && all_chars p s'
  end.

(** ** Byte-level facts *)

Lemma hex_value_digit b0 b1 b2 b3 : hex_value (hex_digit b0 b1 b2 b3) = Some (b0, b1, b2, b3).
Proof. by destruct b0, b1, b2, b3. Qed.

Lemma hex_digit_unreserved b0 b1 b2 b3 : is_unreserved (hex_digit b0 b1 b2 b3) = true.
Proof. by destruct b0, b1, b2, b3. Qed.

Lemma unreserved_not_percent c : is_unreserved c = true -> c <> "%".
Proof. intros Hc ->. discriminate. Qed.

(** Any byte but [%] decodes to itself. *)
Lemma decode_cons_other c s :
  c <> "%" -> decodeURIComponent (String c s) = String c <$> decodeURIComponent s.
Proof.
  intros Hc. destruct c as [[] [] [] [] [] [] [] []]; try reflexivity. by destruct Hc.
Qed.

Lemma decode_encode_byte c s :
  decodeURIComponent (encode_byte c ++ s) = String c <$> decodeURIComponent s.
Proof.
  unfold encode_byte. destruct (is_unreserved c) eqn:Hu.
  - by apply decode_cons_other, unreserved_not_percent.
  - destruct c as [b0 b1 b2 b3 b4 b5 b6 b7]. simpl.
    rewrite !hex_value_digit. change ("" ++ s)%string with s. by destruct (decodeURIComponent s).
Qed.

Lemma all_chars_app p s1 s2 : all_chars p (s1 ++ s2) = all_chars p s1 && all_chars p s2.
Proof. induction s1 as [|c s1 IH]; [done|]. simpl. by rewrite IH, andb_assoc. Qed.

Lemma length_app (s1 s2 : string) : String.length (s1 ++ s2) = String.length s1 + String.length s2.
Proof. induction s1 as [|c s1 IH]; [done|]. simpl. f_equal. exact IH. Qed.

Lemma encode_byte_safe c : all_chars url_safe (encode_byte c) = true.
Proof.
  unfold encode_byte, url_safe. destruct (is_unreserved c) eqn:Hu; simpl; [by rewrite Hu|].
  destruct c. simpl. by rewrite !hex_digit_unreserved.
Qed.

Lemma encode_byte_length c : 1 <= String.length (encode_byte c) <= 3.
Proof. unfold encode_byte. destruct (is_unreserved c); [simpl; lia|]. destruct c. simpl. lia. Qed.

(** [decodeURIComponent] inverts [encodeURIComponent]. *)
Theorem decode_encode s : decodeURIComponent (encodeURIComponent s) = Some s.
Proof.
  induction s as [|c s IH]; [done|]. simpl. by rewrite decode_encode_byte, IH.
Qed.

(** The encoded text uses only unreserved characters and [%]: no
    [#], space, [,] or double quote survives into the [data:] URL, and its
    length is between one and three times the input's. *)
Theorem encode_url_safe_and_bounded s :
  all_chars url_safe (encodeURIComponent s) = true /\
  String.length s <= String.length (encodeURIComponent s) <= 3 * String.length s.
Proof.
  induction s as [|c s [IHs IHl]]; [simpl; split; [done|lia]|]. simpl.
  rewrite all_chars_app, encode_byte_safe, IHs, length_app.
  pose proof (encode_byte_length c). split; [done|lia].
Qed.

End Uri.
