(* ===== verification/MainWindow.v ===== *)
(** * [MainWindow] (src/main.js, lines 41-337)

    The class keeps [this.window] (the [BrowserWindow], [null] once
    closed) and [this.isQuitting].  Its handlers reach the window's web
    contents (its URL and navigation history, reload count, developer
    tools, whether the renderer is gone), Electron's [app] (whether
    [app.quit()] ran), the clipboard and the error boxes shown.  All of
    it is the state [Main]; every method is a computation [St Main].

    Electron's own behaviour is modelled as far as the handlers observe
    it: [loadURL] pushes a history entry after the active one (the first
    load replaces the empty initial page), [reload] reloads the active
    entry, [goBack]/[goForward] move the active index.  [app.quit()]
    emits [before-quit] (so [setQuitting(true)] runs), then closes the
    window, whose [close] handler lets it close, then quits.

    The platform and [NODE_ENV] are the record [Env]; the button a user
    picks in a synchronous message box, the outcome of a load, and user
    input are parameters of the events. *)

From S2P Require Import Prelude Config UriEncode.
From Stdlib Require Import ZArith Ascii.
From stdpp Require Import sets.

Module MainWindow.

(** ** Electron's side *)

Record WebContents := {
  wc_entries : list string;
  wc_index : nat;
  wc_reloads : nat;
  wc_devtools : bool;
  wc_crashed : bool
}.

Definition fresh_wc : WebContents :=
  {| wc_entries := []; wc_index := 0; wc_reloads := 0; wc_devtools := false; wc_crashed := false |}.

Definition wc_url (wc : WebContents) : string := default ""%string (wc_entries wc !! wc_index wc).

Definition wc_load_url (u : string) (wc : WebContents) : WebContents :=
  match wc_entries wc with
  | [] => {| wc_entries := [u]; wc_index := 0; wc_reloads := wc_reloads wc;
             wc_devtools := wc_devtools wc; wc_crashed := false |}
  | _ => {| wc_entries := take (S (wc_index wc)) (wc_entries wc) ++ [u]; wc_index := S (wc_index wc);
            wc_reloads := wc_reloads wc; wc_devtools := wc_devtools wc; wc_crashed := false |}
  end.

Definition wc_reload (wc : WebContents) : WebContents :=
  {| wc_entries := wc_entries wc; wc_index := wc_index wc; wc_reloads := S (wc_reloads wc);
     wc_devtools := wc_devtools wc; wc_crashed := false |}.

Definition wc_set_index (i : nat) (wc : WebContents) : WebContents :=
  {| wc_entries := wc_entries wc; wc_index := i; wc_reloads := wc_reloads wc;
     wc_devtools := wc_devtools wc; wc_crashed := wc_crashed wc |}.

Definition wc_set_devtools (b : bool) (wc : WebContents) : WebContents :=
  {| wc_entries := wc_entries wc; wc_index := wc_index wc; wc_reloads := wc_reloads wc;
     wc_devtools := b; wc_crashed := wc_crashed wc |}.

Definition wc_crash (wc : WebContents) : WebContents :=
  {| wc_entries := wc_entries wc; wc_index := wc_index wc; wc_reloads := wc_reloads wc;
     wc_devtools := wc_devtools wc; wc_crashed := true |}.

(** [navigationHistory.canGoBack()] / [canGoForward()]. *)
Definition can_go_back (wc : WebContents) : bool := Nat.ltb 0 (wc_index wc).
Definition can_go_forward (wc : WebContents) : bool := Nat.ltb (S (wc_index wc)) (length (wc_entries wc)).

(** [goBack()] / [goForward()] do nothing where they cannot move. *)
Definition wc_go_back (wc : WebContents) : WebContents :=
  if can_go_back wc then wc_set_index (pred (wc_index wc)) wc else wc.
Definition wc_go_forward (wc : WebContents) : WebContents :=
  if can_go_forward wc then wc_set_index (S (wc_index wc)) wc else wc.

(** The history is well formed: empty, or the active index is an entry. *)
Definition wc_wf (wc : WebContents) : Prop :=
  (wc_entries wc = [] /\ wc_index wc = 0) \/ wc_index wc < length (wc_entries wc).

Inductive Platform := Darwin | Win32 | Linux.

#[export] Instance Platform_eq_dec : EqDecision Platform.
Proof. solve_decision. Defined.

(** [process.platform] and [process.env.NODE_ENV === 'development']. *)
Record Env := { platform : Platform; development : bool }.

Record Win := { visible : bool; wc : WebContents }.

Record Main := {
  window : option Win;
  isQuitting : bool;
  app_quit_called : bool;
  clipboard : string;
  error_boxes : list (string * string)
}.

Definition set_window (w : option Win) (m : Main) : Main :=
  {| window := w; isQuitting := isQuitting m; app_quit_called := app_quit_called m;
     clipboard := clipboard m; error_boxes := error_boxes m |}.
Definition set_isQuitting (b : bool) (m : Main) : Main :=
  {| window := window m; isQuitting := b; app_quit_called := app_quit_called m;
     clipboard := clipboard m; error_boxes := error_boxes m |}.
Definition set_quit_called (m : Main) : Main :=
  {| window := window m; isQuitting := isQuitting m; app_quit_called := true;
     clipboard := clipboard m; error_boxes := error_boxes m |}.
Definition set_clipboard (s : string) (m : Main) : Main :=
  {| window := window m; isQuitting := isQuitting m; app_quit_called := app_quit_called m;
     clipboard := s; error_boxes := error_boxes m |}.
Definition add_error_box (title msg : string) (m : Main) : Main :=
  {| window := window m; isQuitting := isQuitting m; app_quit_called := app_quit_called m;
     clipboard := clipboard m; error_boxes := error_boxes m ++ [(title, msg)] |}.

Abbreviation M := (St Main).

(** [this.wc.f()]: act on the window's web contents. *)
Definition on_wc (f : WebContents -> WebContents) : M unit :=
  st_modify (fun m => match window m with
                      | Some w => set_window (Some {| visible := visible w; wc := f (wc w) |}) m
                      | None => m
                      end).

Definition set_visible (b : bool) : M unit :=
  st_modify (fun m => match window m with
                      | Some w => set_window (Some {| visible := b; wc := wc w |}) m
                      | None => m
                      end).

(** ** The error page *)

Definition dq : string := String (Ascii.ascii_of_nat 34) EmptyString.

Definition html_head : string :=
  "
      <!DOCTYPE html>
      <html>
        <head>
          <meta charset=" +:+ dq +:+ "utf-8" +:+ dq +:+ ">
          <style>
            body {
              font-family: -apple-system, BlinkMacSystemFont, 'Segoe UI', sans-serif;
              display: flex;
              justify-content: center;
              align-items: center;
              height: 100vh;
              margin: 0;
              background: linear-gradient(135deg, #667eea 0%, #764ba2 100%);
              color: white;
            }
            .error-container {
              text-align: center;
              padding: 40px;
              background: rgba(255, 255, 255, 0.1);
              border-radius: 10px;
              backdrop-filter: blur(10px);
            }
            h1 {
              margin: 0 0 20px;
              font-size: 2.5em;
            }
            p {
              margin: 0 0 30px;
              opacity: 0.9;
            }
            button {
              padding: 12px 30px;
              margin: 0 10px;
              border: none;
              border-radius: 5px;
              background: white;
              color: #764ba2;
              font-size: 16px;
              cursor: pointer;
              transition: transform 0.2s;
            }
            button:hover {
              transform: scale(1.05);
            }
          </style>
        </head>
        <body>
          <div class=" +:+ dq +:+ "error-container" +:+ dq +:+ ">
            <h1>⚠️ 加载失败</h1>
            <p>".

Definition html_mid : string :=
  "</p>
            <button onclick=" +:+ dq.

Definition html_tail : string :=
  dq +:+ ">重试</button>
            <button onclick=" +:+ dq +:+ "history.back()" +:+ dq +:+ ">返回</button>
          </div>
        </body>
      </html>
    ".

(** [retryUrl ? `location.href='${retryUrl}'` : 'location.reload()']. *)
Definition retry_onclick (retryUrl : string) : string :=
  if decide (retryUrl = ""%string) then "location.reload()"
  else "location.href='" +:+ retryUrl +:+ "'".

(** The template literal of [showErrorPage]. *)
Definition error_html (message retryUrl : string) : string :=
  html_head +:+ message +:+ html_mid +:+ retry_onclick retryUrl +:+ html_tail.

Definition data_url (html : string) : string :=
  "data:text/html;charset=utf-8," +:+ Uri.encodeURIComponent html.

(** [showErrorPage(message, retryUrl = '')]. *)
Definition showErrorPage (message retryUrl : string) : M unit :=
  on_wc (wc_load_url (data_url (error_html message retryUrl))).

(** The URL the error page's Retry button loads: [location.href = url],
    or [location.reload()] of the page showing, the error page itself. *)
Definition retry_target (retryUrl current : string) : string :=
  if decide (retryUrl = ""%string) then current else retryUrl.

(** ** Closing and quitting *)

(** The [close] handler followed, when the close is not prevented, by
    [closed]: on macOS a window closed while not quitting is hidden
    instead.  The result tells whether the window was destroyed. *)
Definition on_close (env : Env) : M bool :=
  m ← st_get;
  if negb (isQuitting m) && bool_decide (platform env = Darwin) then
    set_visible false ;; mret false
  else
    st_modify (set_window None) ;; mret true.

(** [app.quit()]: [before-quit] runs [setQuitting(true)], the window
    closes, the application quits. *)
Definition app_quit (env : Env) : M unit :=
  st_modify (set_isQuitting true) ;;
  m ← st_get;
  (if window m is Some _ then on_close env ;; mret tt else mret tt) ;;
  st_modify set_quit_called.

(** [window-all-closed]: quit unless on macOS. *)
Definition window_all_closed (env : Env) : M unit :=
  if bool_decide (platform env = Darwin) then mret tt else app_quit env.

(** The user closes the window; if it is destroyed, it was the last. *)
Definition user_close (env : Env) : M unit :=
  m ← st_get;
  match window m with
  | Some _ => on_close env ≫= fun destroyed : bool => if destroyed then window_all_closed env else mret tt
  | None => mret tt
  end.

(** ** Public methods *)

Definition setQuitting (b : bool) : M unit := st_modify (set_isQuitting b).

(** [this.window?.show()]. *)
Definition show : M unit := set_visible true.

Definition exists_ (m : Main) : bool := if window m is Some _ then true else false.

(** ** Creation and the initial load *)

(** [loadPage()] up to its [await]: the navigation to [TARGET_URL]
    starts. *)
Definition loadPage_start : M unit := on_wc (wc_load_url Main.TARGET_URL).

(** [create()]: a hidden window, its handlers, the initial load, the
    developer tools in development. *)
Definition create (env : Env) : M unit :=
  st_modify (set_window (Some {| visible := false; wc := fresh_wc |})) ;;
  loadPage_start ;;
  (if development env then on_wc (wc_set_devtools true) else mret tt).

(** How the two racers of [loadPage] settle: the load resolves or
    rejects at time [t] after it started, or never settles.  The timer
    rejects at [LOAD_TIMEOUT]; the load wins only when it settles
    strictly earlier. *)
Inductive LoadResult :=
  | LoadResolved (t : nat)
  | LoadRejected (t : nat) (message : string)
  | LoadHangs.

(** [Promise.race([...])]: [None] when it resolves, the rejection's
    message otherwise. *)
Definition race (r : LoadResult) : option string :=
  match r with
  | LoadResolved t => if Nat.ltb t Main.LOAD_TIMEOUT then None else Some "Load timeout"%string
  | LoadRejected t msg => if Nat.ltb t Main.LOAD_TIMEOUT then Some msg else Some "Load timeout"%string
  | LoadHangs => Some "Load timeout"%string
  end.

(** The rest of [loadPage()]: the [catch] shows the error page whose
    Retry button goes to [TARGET_URL]. *)
Definition loadPage_settled (r : LoadResult) : M unit :=
  match race r with
  | None => mret tt
  | Some msg => showErrorPage msg Main.TARGET_URL
  end.

(** ** Web contents handlers *)

(** [onBeforeSendHeaders]: [details.requestHeaders['User-Agent'] = ...]
    on the headers object, then [callback({ requestHeaders })]. *)
Fixpoint js_set (k v : string) (o : list (string * string)) : list (string * string) :=
  match o with
  | [] => [(k, v)]
  | (k', v') :: o' => if decide (k = k') then (k, v) :: o' else (k', v') :: js_set k v o'
  end.

(** Reading a property of the headers object. *)
Fixpoint js_get (k : string) (o : list (string * string)) : option string :=
  match o with
  | [] => None
  | (k', v) :: o' => if decide (k = k') then Some v else js_get k o'
  end.

Definition onBeforeSendHeaders (requestHeaders : list (string * string)) : list (string * string) :=
  js_set "User-Agent" Main.USER_AGENT requestHeaders.

Inductive WindowOpenAction := Deny | Allow.

(** [setWindowOpenHandler]: an [http...] URL is loaded in this window;
    no new window is ever opened. *)
Definition windowOpenHandler (url : string) : M WindowOpenAction :=
  (if String.prefix "http" url then on_wc (wc_load_url url) else mret tt) ;;
  mret Deny.

(** [handleCrash(_, details)]: only the reason ['crashed'] asks the
    user; button 0 reloads, button 1 quits. *)
Definition handleCrash (env : Env) (reason : string) (choice : nat) : M unit :=
  if decide (reason ≠ "crashed"%string) then mret tt
  else if Nat.eqb choice 0 then on_wc wc_reload else app_quit env.

(** [render-process-gone]: the renderer is gone, then the handler. *)
Definition render_process_gone (env : Env) (reason : string) (choice : nat) : M unit :=
  on_wc wc_crash ;; handleCrash env reason choice.

(** [handleUnresponsive()]: button 1 reloads. *)
Definition handleUnresponsive (choice : nat) : M unit :=
  if Nat.eqb choice 1 then on_wc wc_reload else mret tt.

(** [handleLoadError(_, errorCode, errorDescription)]. *)
Definition handleLoadError (errorCode : Z) (errorDescription : string) : M unit :=
  if decide (errorCode = Main.ERROR_ABORTED) then mret tt
  else showErrorPage errorDescription "".

(** ** Keyboard shortcuts *)

(** [String.prototype.toLowerCase] on the ASCII letters (key names are
    ASCII). *)
Definition ascii_lower (c : ascii) : ascii :=
  let n := Ascii.nat_of_ascii c in
  if Nat.leb 65 n && Nat.leb n 90 then Ascii.ascii_of_nat (n + 32) else c.

Fixpoint to_lower (s : string) : string :=
  match s with
  | EmptyString => EmptyString
  | String c s' => String (ascii_lower c) (to_lower s')
  end.

(** [.replace(' ', '')]: a string pattern replaces its first occurrence
    only. *)
Fixpoint replace_first_space (s : string) : string :=
  match s with
  | EmptyString => EmptyString
  | String c s' => if Ascii.eqb c " "%char then s' else String c (replace_first_space s')
  end.

Definition normalize_key (k : string) : string := replace_first_space (to_lower k).

Inductive Direction := Forward | Back.

(** [navigate(direction)]: move if the history allows, answer whether
    it moved. *)
Definition navigate (dir : Direction) : M bool :=
  m ← st_get;
  match window m with
  | Some w =>
      let can := match dir with Forward => can_go_forward (wc w) | Back => can_go_back (wc w) end in
      if can then
        on_wc (match dir with Forward => wc_go_forward | Back => wc_go_back end) ;; mret true
      else mret false
  | None => mret false
  end.

Inductive KeyAction := KReload | KForward | KBack | KDevTools.

(** [keyMap[key]]. *)
Definition keyMap (key : string) : option KeyAction :=
  if decide (key = "r"%string) then Some KReload
  else if decide (key = "arrowright"%string) then Some KForward
  else if decide (key = "arrowleft"%string) then Some KBack
  else if decide (key = "i"%string) then Some KDevTools
  else None.

(** [action()], with the truthiness of what it returns: [this.wc.reload()]
    returns [undefined]. *)
Definition run_action (env : Env) (a : KeyAction) : M bool :=
  match a with
  | KReload => on_wc wc_reload ;; mret false
  | KForward => navigate Forward
  | KBack => navigate Back
  | KDevTools =>
      if development env then on_wc (fun wc => wc_set_devtools (negb (wc_devtools wc)) wc) ;; mret true
      else mret false
  end.

Record Input := { input_type : string; control : bool; meta : bool; key : string }.

(** The [before-input-event] listener; the result is whether
    [event.preventDefault()] ran. *)
Definition before_input_event (env : Env) (input : Input) : M bool :=
  if bool_decide (input_type input = "keyDown"%string) && (control input || meta input) then
    match keyMap (normalize_key (key input)) with
    | Some a => run_action env a
    | None => mret false
    end
  else mret false.

(** ** The context menu *)

Record MenuParams := { linkURL : string; selectionText : string; px : Z; py : Z }.

Inductive MenuAction := MReload | MForward | MBack | MCopy | MInspect.

Inductive MenuItem :=
  | MItem (label : string) (accelerator : option string) (enabled : bool) (click : MenuAction)
  | MRole (label role : string)
  | MSeparator.

(** [menuTemplate] of [showContextMenu]. *)
Definition menuTemplate (w : WebContents) (params : MenuParams) : list MenuItem :=
  [ MItem "刷新" (Some "CmdOrCtrl+R") true MReload;
    MSeparator;
    MItem "前进" (Some "CmdOrCtrl+Right") (can_go_forward w) MForward;
    MItem "后退" (Some "CmdOrCtrl+Left") (can_go_back w) MBack;
    MSeparator;
    MItem "复制" None (negb (bool_decide (linkURL params = ""%string /\ selectionText params = ""%string))) MCopy;
    MRole "粘贴" "paste";
    MRole "剪切" "cut";
    MSeparator;
    MItem "检查元素" None true MInspect ].

(** Whether an item of the template can be clicked ([enabled], which
    defaults to [true]; a role item is always enabled). *)
Definition item_enabled (it : MenuItem) : bool :=
  match it with
  | MItem _ _ e _ => e
  | MRole _ _ => true
  | MSeparator => false
  end.

(** A click on an item: the copy writes the link if there is one, else
    copies the page's selection. *)
Definition menu_click (params : MenuParams) (a : MenuAction) : M unit :=
  match a with
  | MReload => on_wc wc_reload
  | MForward => on_wc wc_go_forward
  | MBack => on_wc wc_go_back
  | MCopy =>
      if decide (linkURL params ≠ ""%string) then st_modify (set_clipboard (linkURL params))
      else st_modify (set_clipboard (selectionText params))
  | MInspect => on_wc (wc_set_devtools true)
  end.

(** [showContextMenu(params)] and a click on an enabled item, if any. *)
Definition showContextMenu (params : MenuParams) (pick : option nat) : M unit :=
  m ← st_get;
  match window m with
  | Some w =>
      match pick ≫= fun i => menuTemplate (wc w) params !! i with
      | Some (MItem _ _ true a) => menu_click params a
      | _ => mret tt
      end
  | None => mret tt
  end.

(** A window on the second of two history entries, for the witnesses. *)
Definition demo_wc : WebContents :=
  {| wc_entries := ["https://google.com/"; "https://google.com/search"]; wc_index := 1;
     wc_reloads := 0; wc_devtools := false; wc_crashed := false |}%string.

Definition demo_win : Win := {| visible := true; wc := demo_wc |}.

Definition demo_main : Main :=
  {| window := Some demo_win; isQuitting := false; app_quit_called := false;
     clipboard := ""; error_boxes := [] |}.

Definition demo_env : Env := {| platform := Linux; development := false |}.

(** ** The web contents' history *)

Lemma wc_url_load u w : wc_wf w -> wc_url (wc_load_url u w) = u.
Proof.
  unfold wc_wf, wc_url, wc_load_url. intros [[E _]|Hlt]; [by rewrite E|].
  destruct (wc_entries w) as [|e es] eqn:E; simpl in *; [lia|].
  rewrite lookup_app_r; rewrite length_take; [|lia].
  by replace (wc_index w - wc_index w `min` length es) with 0 by lia.
Qed.

Lemma wc_wf_load u w : wc_wf w -> wc_wf (wc_load_url u w).
Proof.
  unfold wc_wf, wc_load_url. intros Hwf.
  destruct (wc_entries w) as [|e es]; simpl in *; [right; simpl; lia|].
  right. rewrite length_app, length_take. simpl. lia.
Qed.

Lemma wc_wf_reload w : wc_wf w -> wc_wf (wc_reload w).
Proof. done. Qed.

Lemma wc_wf_devtools b w : wc_wf w -> wc_wf (wc_set_devtools b w).
Proof. done. Qed.

Lemma wc_wf_crash w : wc_wf w -> wc_wf (wc_crash w).
Proof. done. Qed.

Lemma wc_wf_go_back w : wc_wf w -> wc_wf (wc_go_back w).
Proof.
  unfold wc_go_back, can_go_back, wc_wf. destruct (Nat.ltb_spec 0 (wc_index w)) as [Hi|Hi]; [|done].
  simpl. intros [[_ E]|Hlt]; [lia|right; lia].
Qed.

Lemma wc_wf_go_forward w : wc_wf w -> wc_wf (wc_go_forward w).
Proof.
  unfold wc_go_forward, can_go_forward, wc_wf. destruct (Nat.ltb_spec (S (wc_index w)) (length (wc_entries w))); [|done].
  intros _. simpl. by right.
Qed.

#[export] Hint Resolve wc_wf_load wc_wf_reload wc_wf_devtools wc_wf_crash wc_wf_go_back wc_wf_go_forward : electron.

Lemma exec_on_wc f m w :
  window m = Some w -> exec (on_wc f) m = set_window (Some {| visible := visible w; wc := f (wc w) |}) m.
Proof. intros Hw. unfold on_wc, exec, st_modify. simpl. by rewrite Hw. Qed.

Lemma exec_on_wc_none f m : window m = None -> exec (on_wc f) m = m.
Proof. intros Hw. unfold on_wc, exec, st_modify. simpl. by rewrite Hw. Qed.

(** ** The error page *)

Lemma exec_showErrorPage msg retryUrl m w :
  window m = Some w ->
  exec (showErrorPage msg retryUrl) m =
    set_window (Some {| visible := visible w;
                        wc := wc_load_url (data_url (error_html msg retryUrl)) (wc w) |}) m.
Proof. apply exec_on_wc. Qed.

(** What the window shows after [showErrorPage msg retryUrl]: a [data:]
    URL whose payload decodes to the template with [msg] inserted as is,
    and whose Retry button loads [retry_target]. *)
Lemma showErrorPage_spec msg retryUrl m w :
  window m = Some w -> wc_wf (wc w) ->
  ∃ w', window (exec (showErrorPage msg retryUrl) m) = Some w' /\
    ∃ payload, wc_url (wc w') = "data:text/html;charset=utf-8," +:+ payload /\
      Uri.decodeURIComponent payload = Some (html_head +:+ msg +:+ html_mid +:+ retry_onclick retryUrl +:+ html_tail).
Proof.
  intros Hw Hwf. rewrite (exec_showErrorPage _ _ _ w Hw). eexists; split; [reflexivity|].
  simpl. rewrite wc_url_load by done. eexists; split; [reflexivity|]. apply Uri.decode_encode.
Qed.

(** C21. A failed load other than an abort replaces the page with the
    error page: a [data:] URL whose payload decodes to the template with
    the error description inserted as is (no HTML escaping), and whose
    Retry button runs [location.reload()], which reloads the error page
    itself rather than the page that failed.  An abort ([-3]) changes
    nothing. *)
Theorem handleLoadError_spec code desc m w :
  window m = Some w -> wc_wf (wc w) ->
  (code = Main.ERROR_ABORTED -> exec (handleLoadError code desc) m = m) /\
  (code ≠ Main.ERROR_ABORTED ->
   ∃ w', window (exec (handleLoadError code desc) m) = Some w' /\
     ∃ payload, wc_url (wc w') = "data:text/html;charset=utf-8," +:+ payload /\
       Uri.decodeURIComponent payload =
         Some (html_head +:+ desc +:+ html_mid +:+ "location.reload()" +:+ html_tail) /\
       retry_target "" (wc_url (wc w')) = wc_url (wc w')).
Proof.
  intros Hw Hwf. unfold handleLoadError. split; intros Hc.
  - by rewrite decide_True.
  - rewrite decide_False by done.
    destruct (showErrorPage_spec desc "" m w Hw Hwf) as (w' & Hw' & payload & Hurl & Hdec).
    exists w'. split; [done|]. exists payload. by split.
Qed.

(** C22. The initial load's race: only a load that resolves before
    [LOAD_TIMEOUT] avoids the fallback; a load that hangs or settles late
    ends with the message ["Load timeout"]; whatever the message, the
    window then shows the error page with it, whose Retry button goes to
    [TARGET_URL]. *)
Theorem loadPage_fallback r m w :
  window m = Some w -> wc_wf (wc w) ->
  (race r = None <-> ∃ t, r = LoadResolved t /\ t < Main.LOAD_TIMEOUT) /\
  ((r = LoadHangs \/ ∃ t, Main.LOAD_TIMEOUT <= t /\ (r = LoadResolved t \/ ∃ msg, r = LoadRejected t msg)) ->
   race r = Some "Load timeout"%string) /\
  (∀ msg, race r = Some msg ->
   ∃ w', window (exec (loadPage_settled r) m) = Some w' /\
     ∃ payload, wc_url (wc w') = "data:text/html;charset=utf-8," +:+ payload /\
       Uri.decodeURIComponent payload =
         Some (html_head +:+ msg +:+ html_mid +:+ "location.href='" +:+ Main.TARGET_URL +:+ "'" +:+ html_tail) /\
       retry_target Main.TARGET_URL (wc_url (wc w')) = Main.TARGET_URL).
Proof.
  intros Hw Hwf. split; [|split].
  - destruct r as [t|t msg|]; simpl; [|destruct (Nat.ltb_spec t Main.LOAD_TIMEOUT)|].
    + destruct (Nat.ltb_spec t Main.LOAD_TIMEOUT); split.
      * eauto.
      * done.
      * done.
      * intros (t' & [= <-] & Ht'). lia.
    + split; [done|]. by intros (t' & ? & _).
    + split; [done|]. by intros (t' & ? & _).
    + split; [done|]. by intros (t' & ? & _).
  - intros [->|(t & Ht & [->|(msg & ->)])]; simpl; [done| |];
      by destruct (Nat.ltb_spec t Main.LOAD_TIMEOUT); [lia|].
  - intros msg Hr. unfold loadPage_settled. rewrite Hr.
    destruct (showErrorPage_spec msg Main.TARGET_URL m w Hw Hwf) as (w' & Hw' & payload & Hurl & Hdec).
    exists w'. split; [done|]. exists payload. by split.
Qed.

(** ** Shortcuts, crashes, new windows, headers, menu *)

Lemma before_input_event_action env input a m :
  input_type input = "keyDown"%string -> control input || meta input = true ->
  keyMap (normalize_key (key input)) = Some a ->
  before_input_event env input m = run_action env a m.
Proof.
  intros Ht Hc Hk. unfold before_input_event. rewrite bool_decide_true by done. simpl.
  by rewrite Hc, Hk.
Qed.

(** C23. Ctrl (or Cmd) with a key that normalises to [r] ([R], [r])
    reloads the page but does not call [preventDefault]: the action
    returns [this.wc.reload()]'s [undefined]. *)
Theorem ctrl_r_reloads_without_preventDefault env input m w :
  window m = Some w -> input_type input = "keyDown"%string -> control input || meta input = true ->
  normalize_key (key input) = "r"%string ->
  before_input_event env input m = (false, set_window (Some {| visible := visible w; wc := wc_reload (wc w) |}) m).
Proof.
  intros Hw Ht Hc Hk. rewrite (before_input_event_action env input KReload) by (rewrite ?Hk; done).
  unfold run_action. by rewrite st_then_ret, (exec_on_wc _ _ w Hw).
Qed.

(** C24. Ctrl (or Cmd) with [ArrowRight] / [ArrowLeft] moves in the
    history exactly when it can, and [preventDefault] is called exactly
    then. *)
Theorem ctrl_arrows_navigate env input m w dir :
  window m = Some w -> input_type input = "keyDown"%string -> control input || meta input = true ->
  normalize_key (key input) = (match dir with Forward => "arrowright" | Back => "arrowleft" end)%string ->
  let can := match dir with Forward => can_go_forward (wc w) | Back => can_go_back (wc w) end in
  before_input_event env input m =
    (can, if can then set_window (Some {| visible := visible w;
                                           wc := match dir with Forward => wc_go_forward | Back => wc_go_back end (wc w) |}) m
          else m).
Proof.
  intros Hw Ht Hc Hk can.
  rewrite (before_input_event_action env input (match dir with Forward => KForward | Back => KBack end))
    by (rewrite ?Hk; by destruct dir).
  assert (E : run_action env (match dir with Forward => KForward | Back => KBack end) = navigate dir)
    by (by destruct dir).
  rewrite E. unfold navigate. rewrite st_get_bind, Hw. subst can.
  destruct (match dir with Forward => can_go_forward (wc w) | Back => can_go_back (wc w) end); [|done].
  by rewrite st_then_ret, (exec_on_wc _ _ w Hw).
Qed.

(** C25. A renderer that is gone for any reason but ['crashed'] (an
    out-of-memory kill, a launch failure) is left dead: no dialog, no
    reload, no quit.  For ['crashed'], the first button reloads and the
    second quits the application, which closes the window. *)
Theorem render_process_gone_spec env reason choice m w :
  window m = Some w ->
  (reason ≠ "crashed"%string ->
   exec (render_process_gone env reason choice) m =
     set_window (Some {| visible := visible w; wc := wc_crash (wc w) |}) m) /\
  (reason = "crashed"%string -> choice = 0 ->
   exec (render_process_gone env reason choice) m =
     set_window (Some {| visible := visible w; wc := wc_reload (wc_crash (wc w)) |}) m) /\
  (reason = "crashed"%string -> choice ≠ 0 ->
   let m' := exec (render_process_gone env reason choice) m in
   window m' = None /\ app_quit_called m' = true /\ isQuitting m' = true).
Proof.
  intros Hw. unfold render_process_gone, handleCrash. rewrite exec_bind, (exec_on_wc _ _ w Hw).
  split; [|split].
  - intros Hr. by rewrite decide_True.
  - intros -> ->. rewrite decide_False by (intros H; by apply H).
    simpl. by rewrite (exec_on_wc _ _ {| visible := visible w; wc := wc_crash (wc w) |}).
  - intros -> Hc. rewrite decide_False by (intros H; by apply H).
    destruct (Nat.eqb_spec choice 0); [lia|]. split; [|split]; reflexivity.
Qed.

(** C26. [window.open] never opens a window: the handler always answers
    [deny]; a URL starting with [http] is loaded in the main window
    instead, any other is dropped. *)
Theorem windowOpen_denies url m w :
  window m = Some w ->
  eval (windowOpenHandler url) m = Deny /\
  exec (windowOpenHandler url) m =
    if String.prefix "http" url then set_window (Some {| visible := visible w; wc := wc_load_url url (wc w) |}) m
    else m.
Proof.
  intros Hw. unfold windowOpenHandler. split.
  - unfold eval. rewrite st_bind_unfold. by destruct (String.prefix "http" url).
  - rewrite exec_bind, exec_ret. destruct (String.prefix "http" url); [|done].
    by apply exec_on_wc.
Qed.

Lemma js_get_set_eq k v o : js_get k (js_set k v o) = Some v.
Proof.
  induction o as [|[k' v'] o IH]; simpl; [by rewrite decide_True|].
  case_decide; simpl; [by rewrite decide_True|]. by rewrite decide_False.
Qed.

Lemma js_get_set_ne k k2 v o : k2 ≠ k -> js_get k2 (js_set k v o) = js_get k2 o.
Proof.
  intros Hne. induction o as [|[k' v'] o IH]; simpl; [by rewrite decide_False|].
  case_decide as Hk; simpl.
  - subst k'. by rewrite !decide_False.
  - by case_decide.
Qed.

Lemma js_set_keys k v o : k ∈ o.*1 -> (js_set k v o).*1 = o.*1.
Proof.
  induction o as [|[k' v'] o IH]; simpl; [set_solver|]. intros Hin.
  case_decide; simpl; [by subst|]. f_equal. apply IH. set_solver.
Qed.

Lemma js_set_keys_new k v o : k ∉ o.*1 -> (js_set k v o).*1 = o.*1 ++ [k].
Proof.
  induction o as [|[k' v'] o IH]; simpl; [done|]. intros Hin.
  rewrite decide_False by set_solver. simpl. f_equal. apply IH. set_solver.
Qed.

(** C27. Every request carries the configured User-Agent: after the
    handler, the header reads [USER_AGENT], every other header is as it
    was, and the header names stay distinct. *)
Theorem onBeforeSendHeaders_spec h :
  js_get "User-Agent" (onBeforeSendHeaders h) = Some Main.USER_AGENT /\
  (∀ k, k ≠ "User-Agent"%string -> js_get k (onBeforeSendHeaders h) = js_get k h) /\
  (NoDup h.*1 -> NoDup (onBeforeSendHeaders h).*1).
Proof.
  unfold onBeforeSendHeaders. split; [apply js_get_set_eq|]. split; [intros k Hk; by apply js_get_set_ne|].
  intros Hnd. destruct (decide ("User-Agent"%string ∈ h.*1)).
  - by rewrite js_set_keys.
  - rewrite js_set_keys_new by done. by apply NoDup_snoc.
Qed.

(** C28. The context menu's Forward and Back items (positions 2 and 3)
    are enabled exactly when the history can move that way, and a click
    on them acts as the Ctrl+ArrowRight / Ctrl+ArrowLeft shortcuts; the
    Copy item (position 5) is enabled exactly when there is a link or a
    selection under the pointer, and a click copies the link if there is
    one, else the selection, and otherwise changes nothing. *)
Theorem context_menu_matches_shortcuts params m w :
  window m = Some w ->
  (item_enabled <$> menuTemplate (wc w) params !! 2) = Some (can_go_forward (wc w)) /\
  (item_enabled <$> menuTemplate (wc w) params !! 3) = Some (can_go_back (wc w)) /\
  exec (showContextMenu params (Some 2)) m = exec (navigate Forward) m /\
  exec (showContextMenu params (Some 3)) m = exec (navigate Back) m /\
  (item_enabled <$> menuTemplate (wc w) params !! 5) =
    Some (bool_decide (linkURL params ≠ ""%string \/ selectionText params ≠ ""%string)) /\
  exec (showContextMenu params (Some 5)) m =
    if decide (linkURL params ≠ ""%string) then set_clipboard (linkURL params) m
    else if decide (selectionText params ≠ ""%string) then set_clipboard (selectionText params) m
    else m.
Proof.
  intros Hw. unfold showContextMenu, navigate. rewrite !exec_bind, !exec_st_get, !eval_st_get, Hw.
  simpl. split; [done|]. split; [done|]. split; [|split; [|split]].
  - destruct (can_go_forward (wc w)) eqn:E; [|done]. by rewrite exec_bind, exec_ret.
  - destruct (can_go_back (wc w)) eqn:E; [|done]. by rewrite exec_bind, exec_ret.
  - f_equal. repeat case_bool_decide; simpl; try done; exfalso; tauto.
  - case_bool_decide; simpl; repeat case_decide; try reflexivity; naive_solver.
Qed.

(** ** Witnesses on [demo_main] *)

Lemma demo_window : window demo_main = Some demo_win.
Proof. reflexivity. Qed.

Lemma demo_wf : wc_wf (wc demo_win).
Proof. right. simpl. lia. Qed.

Lemma handleLoadError_spec_witness :
  ∃ w', window (exec (handleLoadError (-105)%Z "ERR_NAME_NOT_RESOLVED") demo_main) = Some w' /\
    retry_target "" (wc_url (wc w')) = wc_url (wc w').
Proof.
  assert (Hc : (-105)%Z ≠ Main.ERROR_ABORTED) by discriminate.
  destruct (proj2 (handleLoadError_spec (-105)%Z "ERR_NAME_NOT_RESOLVED" demo_main demo_win demo_window demo_wf) Hc)
    as (w' & Hw' & payload & _ & _ & Hr).
  exists w'. split; [exact Hw'|exact Hr].
Defined.

Lemma loadPage_fallback_witness : race LoadHangs = Some "Load timeout"%string.
Proof.
  exact (proj1 (proj2 (loadPage_fallback LoadHangs demo_main demo_win demo_window demo_wf)) (or_introl eq_refl)).
Defined.

Definition demo_key (k : string) : Input :=
  {| input_type := "keyDown"; control := true; meta := false; key := k |}%string.

Lemma ctrl_r_reloads_without_preventDefault_witness :
  before_input_event demo_env (demo_key "R") demo_main =
    (false, set_window (Some {| visible := true; wc := wc_reload demo_wc |}) demo_main).
Proof.
  exact (ctrl_r_reloads_without_preventDefault demo_env (demo_key "R") demo_main demo_win
           demo_window eq_refl eq_refl eq_refl).
Defined.

Lemma ctrl_arrows_navigate_witness :
  before_input_event demo_env (demo_key "ArrowLeft") demo_main =
    (true, set_window (Some {| visible := true; wc := wc_go_back demo_wc |}) demo_main).
Proof.
  exact (ctrl_arrows_navigate demo_env (demo_key "ArrowLeft") demo_main demo_win Back
           demo_window eq_refl eq_refl eq_refl).
Defined.

Lemma render_process_gone_spec_witness :
  exec (render_process_gone demo_env "oom" 0) demo_main =
    set_window (Some {| visible := true; wc := wc_crash demo_wc |}) demo_main.
Proof.
  assert (Hr : "oom"%string ≠ "crashed"%string) by discriminate.
  exact (proj1 (render_process_gone_spec demo_env "oom" 0 demo_main demo_win demo_window) Hr).
Defined.

Lemma windowOpen_denies_witness :
  eval (windowOpenHandler "https://example.com/") demo_main = Deny.
Proof. exact (proj1 (windowOpen_denies "https://example.com/" demo_main demo_win demo_window)). Defined.

(** On the second of two history entries, Back is enabled and Forward
    is not. *)
Lemma context_menu_matches_shortcuts_witness :
  (item_enabled <$> menuTemplate (wc demo_win) {| linkURL := ""; selectionText := ""; px := 0; py := 0 |} !! 3) =
    Some true /\
  (item_enabled <$> menuTemplate (wc demo_win) {| linkURL := ""; selectionText := ""; px := 0; py := 0 |} !! 2) =
    Some false.
Proof.
  destruct (context_menu_matches_shortcuts {| linkURL := ""; selectionText := ""; px := 0; py := 0 |}
              demo_main demo_win demo_window) as (Hf & Hb & _).
  split; [rewrite Hb|rewrite Hf]; reflexivity.
Defined.

End MainWindow.
