(* ===== verification/Application.v ===== *)
(** * [Application] and the main process's event loop (src/main.js, lines 342-411)

    [setupApp] registers the [app] handlers: [whenReady] runs [init]
    ([initUserData], then [mainWindow.create()], or an error box and
    [app.quit()]), [before-quit] sets [isQuitting] (its handler is the
    first step of [MainWindow.app_quit]), [window-all-closed]
    quits except on macOS, [activate] shows the window or creates one.
    [main_step] runs one event of the main process on the [Main] state of
    [MainWindow], dispatching window and web-contents events to the
    handlers [create] registered; [reachable] is the set of states a run
    reaches: [whenReady] first, then any events until the application
    quits.

    The theorems: the macOS close/activate cycle keeps the page; closing
    on the other platforms, or while quitting, destroys the window; a
    failed user-data directory shows one error box and quits without a
    window; the state invariant (a valid history index, no window after
    quitting) holds in every reachable state; an initial load that fails
    ends on the error page whose Retry goes to [TARGET_URL], because the
    [did-fail-load] page is replaced by [loadPage]'s. *)

From S2P Require Import Prelude Config UriEncode MainWindow.
From Stdlib Require Import ZArith.

Module Application.

Import MainWindow.

Inductive InitResult := UserDataReady | UserDataFailed (message : string).

(** [init()]: [await this.initUserData()] (its outcome is [r]), then
    [create()]; the [catch] shows an error box and quits. *)
Definition init (env : Env) (r : InitResult) : M unit :=
  match r with
  | UserDataReady => create env
  | UserDataFailed msg =>
      st_modify (add_error_box "Initialization failed" msg) ;; app_quit env
  end.

(** [app.on('activate', ...)]. *)
Definition on_activate (env : Env) : M unit :=
  m ← st_get;
  if exists_ m then show else create env.

Inductive MainEvent :=
  | AppReady (r : InitResult)
  | ReadyToShow
  | InitialLoadSettled (r : LoadResult)
  | CloseClicked
  | Activate
  | QuitRequested
  | KeyInput (i : Input)
  | RenderProcessGone (reason : string) (choice : nat)
  | Unresponsive (choice : nat)
  | DidFailLoad (code : Z) (desc : string)
  | WindowOpen (url : string)
  | ContextMenu (params : MenuParams) (pick : option nat).

(** One event; [app.quit()] (the quit menu, Cmd+Q) emits [before-quit]
    before closing the window. *)
Definition main_step (env : Env) (e : MainEvent) : M unit :=
  match e with
  | AppReady r => init env r
  | ReadyToShow => show
  | InitialLoadSettled r => loadPage_settled r
  | CloseClicked => user_close env
  | Activate => on_activate env
  | QuitRequested => app_quit env
  | KeyInput i => before_input_event env i ;; mret tt
  | RenderProcessGone reason choice => render_process_gone env reason choice
  | Unresponsive choice => handleUnresponsive choice
  | DidFailLoad code desc => handleLoadError code desc
  | WindowOpen url => windowOpenHandler url ;; mret tt
  | ContextMenu params pick => showContextMenu params pick
  end.


Definition main_initial : Main :=
  {| window := None; isQuitting := false; app_quit_called := false; clipboard := ""; error_boxes := [] |}.

Definition is_ready (e : MainEvent) : bool := if e is AppReady _ then true else false.

(** [whenReady] resolves once, first; nothing runs after the quit. *)
Inductive reachable (env : Env) : Main -> Prop :=
  | reach_ready r : reachable env (exec (init env r) main_initial)
  | reach_step m e :
      reachable env m -> app_quit_called m = false -> is_ready e = false ->
      reachable env (exec (main_step env e) m).

(** Concrete runs for the witnesses. *)
Definition demo_env (p : Platform) : Env := {| platform := p; development := false |}.

Definition demo_started (p : Platform) : Main := exec (init (demo_env p) UserDataReady) main_initial.

(** The state invariant: the window's history is well formed, and once
    the application has quit there is no window and [isQuitting] is
    set. *)
Definition main_inv (m : Main) : Prop :=
  (∀ w, window m = Some w -> wc_wf (wc w)) /\
  (app_quit_called m = true -> window m = None /\ isQuitting m = true).

(** ** The invariant, operation by operation *)

Lemma on_wc_inv f : (∀ w, wc_wf w -> wc_wf (f w)) -> preserves main_inv (on_wc f).
Proof.
  intros Hf m Hinv. pose proof Hinv as [Hwf Hq]. unfold on_wc, exec, st_modify. simpl.
  destruct (window m) as [w|] eqn:E; [|done]. split.
  - intros w' [= <-]. simpl. by apply Hf, Hwf.
  - intros Hquit. destruct (Hq Hquit) as [E' _]. congruence.
Qed.

Lemma set_visible_inv b : preserves main_inv (set_visible b).
Proof.
  intros m Hinv. pose proof Hinv as [Hwf Hq]. unfold set_visible, exec, st_modify. simpl.
  destruct (window m) as [w|] eqn:E; [|done]. split.
  - intros w' [= <-]. simpl. by apply Hwf.
  - intros Hquit. destruct (Hq Hquit) as [E' _]. congruence.
Qed.

Lemma modify_inv (g : Main -> Main) :
  (∀ m, window (g m) = window m /\ app_quit_called (g m) = app_quit_called m /\
        (isQuitting m = true -> isQuitting (g m) = true)) ->
  preserves main_inv (st_modify g).
Proof.
  intros Hg m [Hwf Hq]. destruct (Hg m) as (Hw & Ha & Hi). unfold exec, st_modify, main_inv. simpl.
  rewrite Hw, Ha. split; [done|]. intros Hquit. destruct (Hq Hquit). auto.
Qed.

Lemma setQuitting_true_inv : preserves main_inv (setQuitting true).
Proof. apply modify_inv. by intros m. Qed.

Lemma add_error_box_inv t msg : preserves main_inv (st_modify (add_error_box t msg)).
Proof. apply modify_inv. by intros m. Qed.

Lemma set_clipboard_inv c : preserves main_inv (st_modify (set_clipboard c)).
Proof. apply modify_inv. by intros m. Qed.

(** [app.quit()] from any state: no window, quitting, quit. *)
Lemma exec_app_quit env m :
  let m' := exec (app_quit env) m in
  window m' = None /\ isQuitting m' = true /\ app_quit_called m' = true /\
  error_boxes m' = error_boxes m.
Proof.
  unfold app_quit. rewrite !exec_bind. unfold eval at 1. cbn [st_get st_modify fst snd exec].
  destruct (window m) eqn:E; cbn; rewrite ?E; by repeat split.
Qed.

Lemma app_quit_inv env : preserves main_inv (app_quit env).
Proof.
  intros m _. destruct (exec_app_quit env m) as (Hw & Hi & _). by split; [rewrite Hw|].
Qed.

Lemma close_window_inv : preserves main_inv (st_modify (set_window None)).
Proof. intros m [Hwf Hq]. split; [done|]. intros Hquit. by destruct (Hq Hquit). Qed.

#[local] Hint Resolve set_visible_inv setQuitting_true_inv add_error_box_inv set_clipboard_inv
  app_quit_inv close_window_inv : electron.

Lemma on_close_inv env : preserves main_inv (on_close env).
Proof. unfold on_close. preserves_walk. Qed.

#[local] Hint Extern 1 (preserves main_inv (on_wc _)) =>
  apply on_wc_inv; intros; eauto with electron : electron.

Lemma user_close_inv env : preserves main_inv (user_close env).
Proof. unfold user_close, window_all_closed. preserves_walk; apply on_close_inv. Qed.

Lemma showErrorPage_inv msg r : preserves main_inv (showErrorPage msg r).
Proof. unfold showErrorPage. eauto with electron. Qed.

#[local] Hint Resolve showErrorPage_inv : electron.

Lemma navigate_inv d : preserves main_inv (navigate d).
Proof. unfold navigate. preserves_walk. Qed.

#[local] Hint Resolve navigate_inv : electron.

Lemma before_input_event_inv env i : preserves main_inv (before_input_event env i).
Proof. unfold before_input_event, run_action. preserves_walk. Qed.

Lemma render_process_gone_inv env reason choice : preserves main_inv (render_process_gone env reason choice).
Proof. unfold render_process_gone, handleCrash. preserves_walk. Qed.

Lemma showContextMenu_inv params pick : preserves main_inv (showContextMenu params pick).
Proof. unfold showContextMenu, menu_click. preserves_walk. Qed.

(** [create()] from a state where the application has not quit. *)
Lemma create_inv env m : main_inv m -> app_quit_called m = false -> main_inv (exec (create env) m).
Proof.
  intros _ Hq. unfold create. rewrite !exec_bind. cbn.
  split; [|by destruct (development env); cbn; rewrite Hq].
  intros w. destruct (development env); cbn; intros [= <-]; unfold wc_wf; cbn; right; lia.
Qed.

#[local] Hint Resolve user_close_inv before_input_event_inv render_process_gone_inv showContextMenu_inv : electron.

(** Reduce [P (exec X m)] to [preserves P X]. *)
Ltac by_preserves :=
  match goal with
  | H : ?P ?m |- ?P (exec ?X ?m) =>
      let Hp := fresh "Hp" in
      assert (Hp : preserves P X); [|exact (Hp m H)]
  end.

Lemma main_step_inv env e m :
  main_inv m -> app_quit_called m = false -> main_inv (exec (main_step env e) m).
Proof.
  intros Hinv Hq. destruct e; simpl;
    [destruct r; [by apply create_inv|] | | | | | | | | | | |];
    try (unfold on_activate; rewrite exec_bind, exec_st_get, eval_st_get;
         destruct (exists_ m); [by apply set_visible_inv|by apply create_inv]);
    by_preserves;
    unfold loadPage_settled, handleUnresponsive, handleLoadError, windowOpenHandler;
    preserves_walk.
Qed.

Lemma main_initial_inv : main_inv main_initial.
Proof. split; done. Qed.

(** C20. In every state the main process reaches, the window's history
    index points at an entry (or the history is empty), so [wc_url] is
    the page showing; and once the application has quit there is no
    window left and [isQuitting] is set. *)
Theorem reachable_main_inv env m :
  reachable env m ->
  (∀ w, window m = Some w -> wc_wf (wc w)) /\
  (app_quit_called m = true -> window m = None /\ isQuitting m = true).
Proof.
  intros Hr. enough (main_inv m) by done. induction Hr as [r|m e _ IH Hq _].
  - destruct r; [by apply create_inv; [apply main_initial_inv|]|].
    pose proof main_initial_inv as H0. by_preserves. unfold init. preserves_walk.
  - by apply main_step_inv.
Qed.

Lemma reachable_main_inv_witness :
  reachable (demo_env Linux) (demo_started Linux) /\
  ∀ w, window (demo_started Linux) = Some w -> wc_wf (wc w).
Proof.
  assert (Hr : reachable (demo_env Linux) (demo_started Linux)) by apply reach_ready.
  split; [exact Hr|exact (proj1 (reachable_main_inv _ _ Hr))].
Defined.

(** ** The window lifecycle *)

Lemma exec_user_close_hide env m w :
  platform env = Darwin -> isQuitting m = false -> window m = Some w ->
  exec (user_close env) m = set_window (Some {| visible := false; wc := wc w |}) m.
Proof.
  intros Hp Hq Hw. unfold user_close, on_close, set_visible. st_unfold. rewrite Hw, Hq, Hp.
  simpl. by rewrite Hw.
Qed.

(** C18. On macOS, closing the window while not quitting only hides it:
    the same web contents (URL, history, developer tools) stays, the
    application keeps running, and [activate] (a click on the dock
    icon) shows that same window again. *)
Theorem darwin_close_then_activate env m w :
  platform env = Darwin -> isQuitting m = false -> window m = Some w ->
  let m1 := exec (main_step env CloseClicked) m in
  let m2 := exec (main_step env Activate) m1 in
  window m1 = Some {| visible := false; wc := wc w |} /\ app_quit_called m1 = app_quit_called m /\
  window m2 = Some {| visible := true; wc := wc w |}.
Proof.
  intros Hp Hq Hw m1 m2. subst m1 m2. simpl. rewrite (exec_user_close_hide env m w) by done.
  split; [done|]. split; [done|]. reflexivity.
Qed.

(** C19. Closing the window destroys it on Windows and Linux, where the
    application then quits, and on macOS once quitting has begun; a
    quit request destroys it on every platform. *)
Theorem close_destroys_window env m w :
  window m = Some w ->
  ((platform env ≠ Darwin \/ isQuitting m = true) ->
   let m1 := exec (main_step env CloseClicked) m in
   window m1 = None /\ (platform env ≠ Darwin -> app_quit_called m1 = true)) /\
  (let m1 := exec (main_step env QuitRequested) m in
   window m1 = None /\ isQuitting m1 = true /\ app_quit_called m1 = true).
Proof.
  intros Hw. split.
  - intros Hc. simpl. unfold user_close, on_close.
    assert (Hd : negb (isQuitting m) && bool_decide (platform env = Darwin) = false).
    { destruct Hc as [Hp | Hq]; [|by rewrite Hq]. rewrite bool_decide_false by done. apply andb_false_r. }
    st_unfold. rewrite Hw, Hd. cbn [fst snd]. unfold window_all_closed.
    destruct (decide (platform env = Darwin)) as [Hp|Hp].
    + rewrite bool_decide_true by done. split; [done|done].
    + rewrite bool_decide_false by done. destruct (exec_app_quit env (set_window None m)) as (H1 & _ & H3 & _).
      split; [exact H1|intros _; exact H3].
  - destruct (exec_app_quit env m) as (H1 & H2 & H3 & _). by split; [|split].
Qed.

Lemma darwin_close_then_activate_witness :
  let m := demo_started Darwin in
  platform (demo_env Darwin) = Darwin /\ isQuitting m = false /\
  window (exec (main_step (demo_env Darwin) Activate) (exec (main_step (demo_env Darwin) CloseClicked) m)) =
    Some {| visible := true; wc := wc_load_url Main.TARGET_URL fresh_wc |}.
Proof.
  assert (Hw : window (demo_started Darwin) =
               Some {| visible := false; wc := wc_load_url Main.TARGET_URL fresh_wc |}) by reflexivity.
  destruct (darwin_close_then_activate (demo_env Darwin) (demo_started Darwin) _ eq_refl eq_refl Hw)
    as (_ & _ & H3).
  split; [reflexivity|]. split; [reflexivity|]. exact H3.
Defined.

Lemma close_destroys_window_witness :
  let m := demo_started Linux in
  window (exec (main_step (demo_env Linux) CloseClicked) m) = None /\
  app_quit_called (exec (main_step (demo_env Linux) CloseClicked) m) = true.
Proof.
  assert (Hw : window (demo_started Linux) =
               Some {| visible := false; wc := wc_load_url Main.TARGET_URL fresh_wc |}) by reflexivity.
  assert (Hp : platform (demo_env Linux) ≠ Darwin) by discriminate.
  destruct (proj1 (close_destroys_window (demo_env Linux) (demo_started Linux) _ Hw) (or_introl Hp))
    as [H1 H2].
  split; [exact H1|exact (H2 Hp)].
Defined.

(** C30. Start-up: when the user-data directory is ready, [whenReady]
    creates one hidden window loading [TARGET_URL], with the developer
    tools open exactly in development; when it fails, one error box
    ["Initialization failed"] with the error's message is shown, no
    window exists and the application quits. *)
Theorem app_ready_spec env msg :
  (let m := exec (main_step env (AppReady UserDataReady)) main_initial in
   ∃ w, window m = Some w /\ visible w = false /\ wc_url (wc w) = Main.TARGET_URL /\
        wc_devtools (wc w) = development env /\ error_boxes m = [] /\ app_quit_called m = false) /\
  (let m := exec (main_step env (AppReady (UserDataFailed msg))) main_initial in
   error_boxes m = [("Initialization failed"%string, msg)] /\ window m = None /\ app_quit_called m = true).
Proof.
  split.
  - simpl. unfold create. rewrite !exec_bind. destruct (development env); cbn; eexists; by repeat split.
  - cbv zeta. cbn [main_step init]. rewrite exec_bind. destruct (exec_app_quit env (exec (st_modify (add_error_box "Initialization failed" msg)) main_initial))
      as (H1 & _ & H3 & H4). rewrite H4. by split; [|split].
Qed.



End Application.
